(** * sse-events: the reconnecting EventSource client of [src/EventSource.js]

    A shallow embedding of the retry-delay computation ([randomInterval],
    [backoffInterval]), of the line decoder inside [xhr.onreadystatechange],
    and of the connection state machine ([open], [close], [_poll],
    [_retry], [xhr.onerror], ...), followed by the properties proved about
    them.

    Modelling conventions
    - A JavaScript string is the list of its UTF-16 code units.
    - The numbers of the configuration, the attempt counter and the delays
      are integers ([Z]); [Math.random()] is a rational draw of the host and
      the arithmetic of [randomInterval] is exact (binary64 rounding is not
      modelled).
    - [emit], the timers and the XMLHttpRequest object belong to the host:
      the model records what the client asks of them in an effect log.
      Listeners are assumed not to call back into the client while an event
      is being published.
    - The file is a CommonJS module whose code sits in a class body, which
      is strict mode code: an assignment to an identifier that is declared
      nowhere throws a ReferenceError unless the global environment binds
      it. The global environment is part of the host. *)

From Stdlib Require Import List ZArith NArith QArith Qround Bool Lia String Ascii.
Import ListNotations.
Local Open Scope Z_scope.

(** ** JavaScript strings and the string primitives the source uses *)

Module JS.

Definition jsstring := list N.

(** A string literal of the source, code unit by code unit. *)
Definition js (s : string) : jsstring :=
  List.map N_of_ascii (list_ascii_of_string s).

Definition LF : N := 10%N.
Definition DQUOTE : N := 34%N.
Definition COLON : N := 58%N.

Fixpoint eqb (a b : jsstring) : bool :=
  match a, b with
  | [], [] => true
  | x :: a', y :: b' => N.eqb x y && eqb a' b'
  | _, _ => false
  end.

(** The class [\s] of a JavaScript regular expression (WhiteSpace and
    LineTerminator code points); it already holds U+00A0, which [reTrim]
    lists a second time. *)
Definition is_ws (c : N) : bool :=
  ((9 <=? c) && (c <=? 13) || (c =? 32) || (c =? 160) || (c =? 5760)
   || (8192 <=? c) && (c <=? 8202) || (c =? 8232) || (c =? 8233)
   || (c =? 8239) || (c =? 8287) || (c =? 12288) || (c =? 65279))%N.

Fixpoint drop_ws (s : jsstring) : jsstring :=
  match s with
  | c :: s' => if is_ws c then drop_ws s' else s
  | [] => []
  end.

(** [s.replace(reTrim, '')] with
    [reTrim = /^(\s|\u00A0)+|(\s|\u00A0)+$/g]: the leading and the trailing
    run of white space are removed. *)
Definition trim (s : jsstring) : jsstring :=
  rev (drop_ws (rev (drop_ws s))).

(** [s.substr(n)] for [0 <= n]. *)
Definition substr (s : jsstring) (n : nat) : jsstring := skipn n s.

(** [s.split("\n")]: never empty, the last part is what follows the last
    line feed. *)
Fixpoint split_lf (s : jsstring) : list jsstring :=
  match s with
  | [] => [[]]
  | c :: s' =>
      if (c =? LF)%N then [] :: split_lf s'
      else match split_lf s' with
           | p :: ps => (c :: p) :: ps
           | [] => [[c]]
           end
  end.

(** [parts.join('\n')]. *)
Fixpoint join_lf (parts : list jsstring) : jsstring :=
  match parts with
  | [] => []
  | [p] => p
  | p :: ps => p ++ LF :: join_lf ps
  end.

(** [line.indexOf(p) === 0]. *)
Fixpoint starts_with (p line : jsstring) : bool :=
  match p, line with
  | [], _ => true
  | x :: p', y :: line' => N.eqb x y && starts_with p' line'
  | _ :: _, [] => false
  end.

(** What remains after a match of [:?\s*] at the head of [s]. *)
Definition drop_colon_ws (s : jsstring) : jsstring :=
  match s with
  | c :: s' => if (c =? COLON)%N then drop_ws s' else drop_ws s
  | [] => []
  end.

(** [line.replace(/<name>:?\s*/, '')]: the regular expression is not
    global, so the leftmost match only is removed, wherever it starts. *)
Fixpoint replace_field (name line : jsstring) : jsstring :=
  if starts_with name line then drop_colon_ws (skipn (List.length name) line)
  else match line with
       | c :: line' => c :: replace_field name line'
       | [] => []
       end.

(** A number as the decoder meets it: [parseInt] answers an integer or
    [NaN]. *)
Inductive number := NaN | Num (z : Z).

Definition digit_value (c : N) : option Z :=
  if ((48 <=? c) && (c <=? 57))%N then Some (Z.of_N c - 48)
  else if ((97 <=? c) && (c <=? 122))%N then Some (Z.of_N c - 87)
  else if ((65 <=? c) && (c <=? 90))%N then Some (Z.of_N c - 55)
  else None.

(** The longest prefix of digits of [radix], read left to right;
    [None] when there is no digit. *)
Fixpoint read_digits (radix : Z) (acc : option Z) (s : jsstring) : option Z :=
  match s with
  | c :: s' =>
      match digit_value c with
      | Some d =>
          if d <? radix
          then read_digits radix
                 (Some (match acc with Some a => a * radix + d | None => d end)) s'
          else acc
      | None => acc
      end
  | [] => acc
  end.

(** [parseInt(s)] without a radix: leading white space, a sign, [0x] or
    [0X] for radix 16, then the digits up to the first other character.
    The integer read is kept exact. *)
Definition parseInt (s : jsstring) : number :=
  let s1 := drop_ws s in
  let '(sign, s2) :=
    match s1 with
    | 45%N :: r => (-1, r)
    | 43%N :: r => (1, r)
    | _ => (1, s1)
    end in
  let '(radix, s3) :=
    match s2 with
    | 48%N :: 120%N :: r => (16, r)
    | 48%N :: 88%N :: r => (16, r)
    | _ => (10, s2)
    end in
  match read_digits radix None s3 with
  | Some v => Num (sign * v)
  | None => NaN
  end.

Definition isNaN (n : number) : bool :=
  match n with NaN => true | Num _ => false end.

End JS.
Import JS.

(** ** Interval calculation *)

(** [randomInterval(max, min = 0)] on the draw [r] of [Math.random()]:
    [Math.floor(r * (max + 1 - min) + min)], in exact arithmetic. The
    rounding of binary64 is in [randomInterval64] below. *)
Definition randomInterval (r : Q) (max min : Z) : Z :=
  Qfloor (r * inject_Z (max + 1 - min) + inject_Z min)%Q.

(** The [for] loop of [backoffInterval], [n] iterations left: advance the
    pair, then leave the loop when the new ceiling is over [maxDelay]. *)
Fixpoint backoff_loop (n : nat) (prev current delay maxDelay : Z) : Z :=
  match n with
  | O => current
  | S n' =>
      let next := prev + current in
      if delay + next * 100 >? maxDelay then next
      else backoff_loop n' current next delay maxDelay
  end.

(** The value of [current] when [backoffInterval] reaches its [return]. *)
Definition backoff_current (attempt delay maxDelay : Z) : Z :=
  if attempt >? 1
  then backoff_loop (Z.to_nat (attempt - 2)) 1 2 delay maxDelay
  else 1.

(** [backoffInterval(attempt, delay, maxDelay)] on the draw [r]. *)
Definition backoffInterval (r : Q) (attempt delay maxDelay : Z) : Z :=
  delay + randomInterval r (backoff_current attempt delay maxDelay * 100) 0.

(** The largest delay [backoffInterval] can return for an attempt. *)
Definition backoff_ceiling (attempt delay maxDelay : Z) : Z :=
  delay + backoff_current attempt delay maxDelay * 100.

(** ** [JSON.parse]

    The host's JSON reader, which [_emitMessage] and [_emitError] call
    inside [try { ... } catch (e) {}]: [None] stands for the SyntaxError.
    Numbers are kept as the exact rational their text denotes; an object is
    the list of its members, a repeated key keeping its first place and
    its last value. *)

Module JSON.

#[warnings="-register-all"]
Inductive value :=
| JNull
| JBool (b : bool)
| JNumber (q : Q)
| JString (s : jsstring)
| JArray (items : list value)
| JObject (members : list (jsstring * value)).

Definition is_json_ws (c : N) : bool :=
  ((c =? 9) || (c =? 10) || (c =? 13) || (c =? 32))%N.

Fixpoint skip_ws (s : jsstring) : jsstring :=
  match s with
  | c :: s' => if is_json_ws c then skip_ws s' else s
  | [] => []
  end.

Definition is_digit (c : N) : bool := ((48 <=? c) && (c <=? 57))%N.

Definition hex_value (c : N) : option N :=
  match digit_value c with
  | Some d => if d <? 16 then Some (Z.to_N d) else None
  | None => None
  end.

(** The characters of a string literal after its opening quote, up to
    the closing one. *)
Fixpoint parse_string (s acc : jsstring) : option (jsstring * jsstring) :=
  match s with
  | [] => None
  | 34%N :: r => Some (rev acc, r)
  | 92%N :: 117%N :: a :: b :: c :: d :: r =>
      match hex_value a, hex_value b, hex_value c, hex_value d with
      | Some a', Some b', Some c', Some d' =>
          parse_string r ((((a' * 16 + b') * 16 + c') * 16 + d')%N :: acc)
      | _, _, _, _ => None
      end
  | 92%N :: e :: r =>
      let unescaped :=
        if (e =? 34)%N then Some 34%N
        else if (e =? 92)%N then Some 92%N
        else if (e =? 47)%N then Some 47%N
        else if (e =? 98)%N then Some 8%N
        else if (e =? 102)%N then Some 12%N
        else if (e =? 110)%N then Some 10%N
        else if (e =? 114)%N then Some 13%N
        else if (e =? 116)%N then Some 9%N
        else None in
      match unescaped with
      | Some c => parse_string r (c :: acc)
      | None => None
      end
  | c :: r => if (c <? 32)%N then None else parse_string r (c :: acc)
  end.

(** The digits at the head of [s]: their value after [acc], how many they
    are, and what follows. *)
Fixpoint read_decimal (s : jsstring) (acc : Z) (count : Z) : Z * Z * jsstring :=
  match s with
  | c :: r =>
      if is_digit c then read_decimal r (acc * 10 + (Z.of_N c - 48)) (count + 1)
      else (acc, count, s)
  | [] => (acc, count, s)
  end.

Definition scale (m e : Z) : Q :=
  if 0 <=? e then inject_Z (m * 10 ^ e)
  else Qred (Qmake m (Z.to_pos (10 ^ (- e)))).

(** A number token: an optional minus sign, then [0] or a run of digits
    that does not start with [0], then an optional fraction (a dot and one
    digit or more), then an optional exponent ([e] or [E], an optional
    sign, one digit or more). *)
Definition parse_number (s : jsstring) : option (value * jsstring) :=
  let '(sign, s1) :=
    match s with 45%N :: r => (-1, r) | _ => (1, s) end in
  let int_part :=
    match s1 with
    | 48%N :: r => Some (0, r)
    | c :: _ =>
        if is_digit c
        then let '(m, _, r) := read_decimal s1 0 0 in Some (m, r)
        else None
    | [] => None
    end in
  match int_part with
  | None => None
  | Some (m, s2) =>
      let frac_part :=
        match s2 with
        | 46%N :: r =>
            let '(m', k, r') := read_decimal r m 0 in
            if k =? 0 then None else Some (m', k, r')
        | _ => Some (m, 0, s2)
        end in
      match frac_part with
      | None => None
      | Some (m1, k, s3) =>
          let exp_part :=
            match s3 with
            | c :: r =>
                if ((c =? 101) || (c =? 69))%N then
                  let '(esign, r1) :=
                    match r with
                    | 45%N :: r' => (-1, r')
                    | 43%N :: r' => (1, r')
                    | _ => (1, r)
                    end in
                  let '(e, n, r2) := read_decimal r1 0 0 in
                  if n =? 0 then None else Some (esign * e, r2)
                else Some (0, s3)
            | [] => Some (0, s3)
            end in
          match exp_part with
          | None => None
          | Some (e, s4) => Some (JNumber (scale (sign * m1) (e - k)), s4)
          end
      end
  end.

Fixpoint set_member (k : jsstring) (v : value) (ms : list (jsstring * value))
  : list (jsstring * value) :=
  match ms with
  | [] => [(k, v)]
  | (k', v') :: ms' =>
      if JS.eqb k k' then (k', v) :: ms' else (k', v') :: set_member k v ms'
  end.

(** Recursive descent; every call spends one unit of [fuel]. *)
Fixpoint parse_value (fuel : nat) (s : jsstring) {struct fuel}
  : option (value * jsstring) :=
  match fuel with
  | O => None
  | S f =>
      let s := skip_ws s in
      if starts_with (js "null") s then Some (JNull, skipn 4 s)
      else if starts_with (js "true") s then Some (JBool true, skipn 4 s)
      else if starts_with (js "false") s then Some (JBool false, skipn 5 s)
      else
        match s with
        | 34%N :: r =>
            match parse_string r [] with
            | Some (str, r') => Some (JString str, r')
            | None => None
            end
        | 91%N :: r =>
            match skip_ws r with
            | 93%N :: r' => Some (JArray [], r')
            | _ => parse_elements f r []
            end
        | 123%N :: r =>
            match skip_ws r with
            | 125%N :: r' => Some (JObject [], r')
            | _ => parse_members f r []
            end
        | _ => parse_number s
        end
  end
with parse_elements (fuel : nat) (s : jsstring) (acc : list value) {struct fuel}
  : option (value * jsstring) :=
  match fuel with
  | O => None
  | S f =>
      match parse_value f s with
      | Some (v, r) =>
          match skip_ws r with
          | 44%N :: r' => parse_elements f r' (v :: acc)
          | 93%N :: r' => Some (JArray (rev (v :: acc)), r')
          | _ => None
          end
      | None => None
      end
  end
with parse_members (fuel : nat) (s : jsstring) (acc : list (jsstring * value))
       {struct fuel} : option (value * jsstring) :=
  match fuel with
  | O => None
  | S f =>
      match skip_ws s with
      | 34%N :: r =>
          match parse_string r [] with
          | Some (k, r1) =>
              match skip_ws r1 with
              | 58%N :: r2 =>
                  match parse_value f r2 with
                  | Some (v, r3) =>
                      match skip_ws r3 with
                      | 44%N :: r4 => parse_members f r4 (set_member k v acc)
                      | 125%N :: r4 => Some (JObject (set_member k v acc), r4)
                      | _ => None
                      end
                  | None => None
                  end
              | _ => None
              end
          | None => None
          end
      | _ => None
      end
  end.

(** [JSON.parse(text)]: one value and nothing but white space after it.
    The fuel covers the deepest chain of calls a text of this length can
    need. *)
Definition parse (text : jsstring) : option value :=
  match parse_value (2 * List.length text + 2) text with
  | Some (v, r) => match skip_ws r with [] => Some v | _ :: _ => None end
  | None => None
  end.

End JSON.

(** ** The client and its host *)

(** [this.CONNECTING = 0], [this.OPEN = 1], [this.CLOSED = 2]. *)
Inductive ReadyState := CONNECTING | OPEN | CLOSED.

Definition ReadyState_eqb (a b : ReadyState) : bool :=
  match a, b with
  | CONNECTING, CONNECTING | OPEN, OPEN | CLOSED, CLOSED => true
  | _, _ => false
  end.

(** [this.readyState === state], the property being [undefined] until the
    first [open()]. *)
Definition readyState_is (r : option ReadyState) (state : ReadyState) : bool :=
  match r with
  | Some s => ReadyState_eqb s state
  | None => false
  end.

(** The XMLHttpRequest object of one [_poll()], with the variable [cache]
    its handlers close over. *)
Record Xhr := {
  xhr_readyState : Z;
  status : Z;
  responseText : jsstring;
  cache : jsstring
}.

(** The instance: the fields the constructor sets. [options] and [params]
    only feed the request and are left out. *)
Record EventSource := {
  RECONNECT_INTERVAL : Z;
  MAX_INTERVAL : Z;
  MIN_INTERVAL : Z;
  MAX_ATTEMPTS : Z;
  RETRY_ON_NETWORK_ERROR : bool;
  RETRY_ON_SERVER_ERROR : bool;
  SERVER_ERROR_CODES : list Z;
  url : jsstring;
  path : jsstring;
  readyState : option ReadyState;
  lastEventId : option jsstring;
  _pollTimer : option nat;
  _xhr : option Xhr;
  _attempts : Z
}.

Definition set_readyState (v : option ReadyState) (e : EventSource) : EventSource :=
  {| RECONNECT_INTERVAL := RECONNECT_INTERVAL e; MAX_INTERVAL := MAX_INTERVAL e;
     MIN_INTERVAL := MIN_INTERVAL e; MAX_ATTEMPTS := MAX_ATTEMPTS e;
     RETRY_ON_NETWORK_ERROR := RETRY_ON_NETWORK_ERROR e;
     RETRY_ON_SERVER_ERROR := RETRY_ON_SERVER_ERROR e;
     SERVER_ERROR_CODES := SERVER_ERROR_CODES e; url := url e; path := path e;
     readyState := v; lastEventId := lastEventId e; _pollTimer := _pollTimer e;
     _xhr := _xhr e; _attempts := _attempts e |}.

Definition set_lastEventId (v : option jsstring) (e : EventSource) : EventSource :=
  {| RECONNECT_INTERVAL := RECONNECT_INTERVAL e; MAX_INTERVAL := MAX_INTERVAL e;
     MIN_INTERVAL := MIN_INTERVAL e; MAX_ATTEMPTS := MAX_ATTEMPTS e;
     RETRY_ON_NETWORK_ERROR := RETRY_ON_NETWORK_ERROR e;
     RETRY_ON_SERVER_ERROR := RETRY_ON_SERVER_ERROR e;
     SERVER_ERROR_CODES := SERVER_ERROR_CODES e; url := url e; path := path e;
     readyState := readyState e; lastEventId := v; _pollTimer := _pollTimer e;
     _xhr := _xhr e; _attempts := _attempts e |}.

Definition set_pollTimer (v : option nat) (e : EventSource) : EventSource :=
  {| RECONNECT_INTERVAL := RECONNECT_INTERVAL e; MAX_INTERVAL := MAX_INTERVAL e;
     MIN_INTERVAL := MIN_INTERVAL e; MAX_ATTEMPTS := MAX_ATTEMPTS e;
     RETRY_ON_NETWORK_ERROR := RETRY_ON_NETWORK_ERROR e;
     RETRY_ON_SERVER_ERROR := RETRY_ON_SERVER_ERROR e;
     SERVER_ERROR_CODES := SERVER_ERROR_CODES e; url := url e; path := path e;
     readyState := readyState e; lastEventId := lastEventId e; _pollTimer := v;
     _xhr := _xhr e; _attempts := _attempts e |}.

Definition set_xhr (v : option Xhr) (e : EventSource) : EventSource :=
  {| RECONNECT_INTERVAL := RECONNECT_INTERVAL e; MAX_INTERVAL := MAX_INTERVAL e;
     MIN_INTERVAL := MIN_INTERVAL e; MAX_ATTEMPTS := MAX_ATTEMPTS e;
     RETRY_ON_NETWORK_ERROR := RETRY_ON_NETWORK_ERROR e;
     RETRY_ON_SERVER_ERROR := RETRY_ON_SERVER_ERROR e;
     SERVER_ERROR_CODES := SERVER_ERROR_CODES e; url := url e; path := path e;
     readyState := readyState e; lastEventId := lastEventId e;
     _pollTimer := _pollTimer e; _xhr := v; _attempts := _attempts e |}.

Definition set_attempts (v : Z) (e : EventSource) : EventSource :=
  {| RECONNECT_INTERVAL := RECONNECT_INTERVAL e; MAX_INTERVAL := MAX_INTERVAL e;
     MIN_INTERVAL := MIN_INTERVAL e; MAX_ATTEMPTS := MAX_ATTEMPTS e;
     RETRY_ON_NETWORK_ERROR := RETRY_ON_NETWORK_ERROR e;
     RETRY_ON_SERVER_ERROR := RETRY_ON_SERVER_ERROR e;
     SERVER_ERROR_CODES := SERVER_ERROR_CODES e; url := url e; path := path e;
     readyState := readyState e; lastEventId := lastEventId e;
     _pollTimer := _pollTimer e; _xhr := _xhr e; _attempts := v |}.

(** The argument of the constructor; [None] is a property left
    [undefined]. *)
Record Options := {
  o_url : jsstring;
  o_path : option jsstring;
  reconnectInterval : option Z;
  maxInterval : option Z;
  minInterval : option Z;
  maxAttempts : option Z;
  retryOnNetworkError : option bool;
  retryOnServerError : option bool;
  serverErrorCodes : option (list Z)
}.

(** [x || d] on a number: [undefined] and [0] are falsy. *)
Definition or_number (x : option Z) (d : Z) : Z :=
  match x with
  | Some v => if v =? 0 then d else v
  | None => d
  end.

(** [x || d] on a boolean: [undefined] and [false] are falsy. *)
Definition or_bool (x : option bool) (d : bool) : bool :=
  match x with
  | Some true => true
  | Some false | None => d
  end.

(** [x || d] on an array: every array is truthy. *)
Definition or_array (x : option (list Z)) (d : list Z) : list Z :=
  match x with
  | Some l => l
  | None => d
  end.

(** [constructor({ url, path = '', reconnectInterval, ... })]. *)
Definition new_EventSource (o : Options) : EventSource :=
  {| RECONNECT_INTERVAL := or_number (reconnectInterval o) 1000;
     MAX_INTERVAL := or_number (maxInterval o) 15000;
     MIN_INTERVAL := or_number (minInterval o) 1000;
     MAX_ATTEMPTS := or_number (maxAttempts o) (-1);
     RETRY_ON_NETWORK_ERROR := or_bool (retryOnNetworkError o) true;
     RETRY_ON_SERVER_ERROR := or_bool (retryOnServerError o) false;
     SERVER_ERROR_CODES := or_array (serverErrorCodes o) [502; 503; 504];
     url := o_url o;
     path := match o_path o with Some p => p | None => [] end;
     readyState := None;
     lastEventId := None;
     _pollTimer := None;
     _xhr := None;
     _attempts := 0 |}.

(** The identifiers [retry] and [interval] that the decoder assigns
    without declaring them: they resolve in the global environment, where
    [None] is an identifier with no binding. *)
Record Globals := {
  retry : option number;
  interval : option number
}.

(** What the client uses of its host: the pending timers (handle and
    delay), the next handle ([setTimeout] answers positive handles, so a
    handle is always truthy), the draws [Math.random()] will answer, the
    global environment, and whether building or sending a request
    throws. *)
Record Host := {
  timers : list (nat * Z);
  next_handle : nat;
  draws : list Q;
  globals : Globals;
  request_throws : bool
}.

Record World := {
  self : EventSource;
  host : Host
}.

(** What reaches the listeners. *)
Inductive Payload :=
| POpen (url : jsstring)
| PError (status : Z) (message : option jsstring) (data : JSON.value)
| PClose (error : bool)
| PState (state : ReadyState) (prevState : option ReadyState)
| PTimeout
| PMessage (type : jsstring) (data : JSON.value)
    (lastEventId : option jsstring) (origin : jsstring).

(** What the client asks of the host, in order. *)
Inductive Effect :=
| Emit (name : jsstring) (payload : Payload)
| XhrSend (lastEventIdHeader : option jsstring)
| XhrAbort
| SetTimeout (handle : nat) (delay : Z)
| ClearInterval (handle : option nat)
| RemoveAllListeners.

Inductive completion := Normal | ThrowReferenceError.

(** Event names. *)
Module types.
Definition ON_OPEN := js "open".
Definition ON_ERROR := js "error".
Definition ON_CLOSE := js "close".
Definition ON_STATE := js "state".
Definition ON_TIMEOUT := js "timeout".
End types.

(** *** State and effect-log monad *)

Definition M (A : Type) : Type := World -> A * World * list Effect.

Definition ret {A : Type} (a : A) : M A := fun w => (a, w, []).

Definition bind {A B : Type} (m : M A) (f : A -> M B) : M B :=
  fun w =>
    let '(a, w1, l1) := m w in
    let '(b, w2, l2) := f a w1 in
    (b, w2, l1 ++ l2).

Declare Scope js_scope.
Delimit Scope js_scope with js.
Notation "x <- m ;; k" := (bind m (fun x => k))
  (at level 61, m at next level, right associativity) : js_scope.
Notation "m ;; k" := (bind m (fun _ => k))
  (at level 61, right associativity) : js_scope.
Local Open Scope js_scope.

Definition this_ : M EventSource := fun w => (self w, w, []).

Definition update (f : EventSource -> EventSource) : M unit :=
  fun w => (tt, {| self := f (self w); host := host w |}, []).

Definition update_host (f : Host -> Host) : M unit :=
  fun w => (tt, {| self := self w; host := f (host w) |}, []).

Definition tell (e : Effect) : M unit := fun w => (tt, w, [e]).

(** [this.emit(name, payload)]: the event goes to the log. What the
    listeners do with it is not part of the instance; they are taken to
    return without calling a method of the client. Listeners that do
    call it are those of [onerror_heard] and [onreadystatechange_heard]
    below. *)
Definition emit (name : jsstring) (payload : Payload) : M unit :=
  tell (Emit name payload).

(** [Math.random()]: the next draw of the host. *)
Definition next_draw (h : Host) : Q :=
  match draws h with
  | r :: _ => r
  | [] => 0%Q
  end.

Definition pop_draw (h : Host) : Host :=
  {| timers := timers h; next_handle := next_handle h; draws := tl (draws h);
     globals := globals h; request_throws := request_throws h |}.

Definition Math_random : M Q :=
  fun w => (next_draw (host w), {| self := self w; host := pop_draw (host w) |}, []).

(** [setTimeout(callback, delay)], the callback being [_poll]. *)
Definition add_timer (delay : Z) (h : Host) : Host :=
  {| timers := timers h ++ [(next_handle h, delay)];
     next_handle := S (next_handle h);
     draws := draws h; globals := globals h;
     request_throws := request_throws h |}.

Definition setTimeout (delay : Z) : M nat :=
  fun w =>
    (next_handle (host w),
     {| self := self w; host := add_timer delay (host w) |},
     [SetTimeout (next_handle (host w)) delay]).

Definition remove_timer (handle : option nat) (ts : list (nat * Z)) : list (nat * Z) :=
  match handle with
  | Some n => filter (fun t => negb (Nat.eqb (fst t) n)) ts
  | None => ts
  end.

Definition drop_timer (handle : option nat) (h : Host) : Host :=
  {| timers := remove_timer handle (timers h); next_handle := next_handle h;
     draws := draws h; globals := globals h;
     request_throws := request_throws h |}.

(** [clearInterval(handle)]; timeouts and intervals share their handles. *)
Definition clearInterval (handle : option nat) : M unit :=
  fun w =>
    (tt, {| self := self w; host := drop_timer handle (host w) |},
     [ClearInterval handle]).

Definition set_globals (g : Globals) (h : Host) : Host :=
  {| timers := timers h; next_handle := next_handle h; draws := draws h;
     globals := g; request_throws := request_throws h |}.

(** ** The methods of [EventSource] *)

(** [_setReadyState(state)]. *)
Definition _setReadyState (state : ReadyState) : M unit :=
  e <- this_ ;;
  let prevState := readyState e in
  if negb (readyState_is prevState state) then
    update (set_readyState (Some state)) ;;
    emit types.ON_STATE (PState state prevState)
  else ret tt.

(** [xhr.abort()]: the request ends and the object goes back to
    readyState 0. The readystatechange it may fire on the way carries
    readyState 4 and status 0, on which the handler below does nothing. *)
Definition aborted (x : Xhr) : Xhr :=
  {| xhr_readyState := 0; status := 0; responseText := []; cache := cache x |}.

Definition abort (x : Xhr) : M unit :=
  tell XhrAbort ;;
  update (set_xhr (Some (aborted x))).

(** [close(error = false)]. *)
Definition close (error : bool) : M unit :=
  e <- this_ ;;
  if readyState_is (readyState e) CLOSED then ret tt
  else
    _setReadyState CLOSED ;;
    clearInterval (_pollTimer e) ;;
    update (set_pollTimer None) ;;
    match _xhr e with Some x => abort x | None => ret tt end ;;
    update (set_attempts 0) ;;
    emit types.ON_CLOSE (PClose error).

(** [destroy()]. *)
Definition destroy : M unit :=
  close false ;;
  tell RemoveAllListeners.

(** [_emitError(status, message)]; [data] stays [{}] when the message is
    not JSON. *)
Definition _emitError (status : Z) (message : option jsstring) : M unit :=
  let data :=
    if negb (status =? 0) then
      match message with
      | Some m => match JSON.parse m with
                  | Some v => v
                  | None => JSON.JObject []
                  end
      | None => JSON.JObject []
      end
    else JSON.JObject [] in
  emit types.ON_ERROR (PError status message data).

(** The object [MessageEvent(data, origin, lastEventId)] builds. *)
Record Message := {
  m_type : jsstring;
  m_data : jsstring;
  m_lastEventId : option jsstring;
  m_origin : jsstring
}.

Definition MessageEvent (data origin : jsstring) (lastEventId : option jsstring)
  : Message :=
  {| m_type := js "message"; m_data := data;
     m_lastEventId := lastEventId; m_origin := origin |}.

(** [_emitMessage(type, message)]: the data, when not empty, is replaced
    by what [JSON.parse] makes of it, if anything. *)
Definition _emitMessage (type : jsstring) (message : Message) : M unit :=
  let decodedData :=
    match m_data message with
    | [] => JSON.JString []
    | d => match JSON.parse d with
           | Some v => v
           | None => JSON.JString d
           end
    end in
  emit type (PMessage (m_type message) decodedData
               (m_lastEventId message) (m_origin message)).

(** [_pollAgain(interval)]. *)
Definition _pollAgain (interval : Z) : M unit :=
  handle <- setTimeout interval ;;
  update (set_pollTimer (Some handle)).

(** [_retry()]. *)
Definition _retry : M unit :=
  update (fun e => set_attempts (_attempts e + 1) e) ;;
  e <- this_ ;;
  r <- Math_random ;;
  let interval := backoffInterval r (_attempts e) (MIN_INTERVAL e) (MAX_INTERVAL e) in
  _pollAgain interval.

(** *** The decoder: the body of [xhr.onreadystatechange] that reads
    [this.responseText] *)

(** The variables [data] and [eventType], declared anew by every call of
    the handler. *)
Record Locals := {
  data : list jsstring;
  eventType : option jsstring
}.

Definition no_locals : Locals := {| data := []; eventType := None |}.

(** The branch of the [if ... else if] chain a trimmed line takes. *)
Inductive Field :=
| F_event | F_retry | F_data | F_id_colon | F_id | F_empty | F_other.

Definition classify (line : jsstring) : Field :=
  if starts_with (js "event") line then F_event
  else if starts_with (js "retry") line then F_retry
  else if starts_with (js "data") line then F_data
  else if starts_with (js "id:") line then F_id_colon
  else if starts_with (js "id") line then F_id
  else match line with
       | [] => F_empty
       | _ :: _ => F_other
       end.

(** [name = v] for an identifier that is declared nowhere. A class body
    is strict mode code, and so are the handlers written in it: the
    assignment throws a ReferenceError when the global environment has no
    such binding. *)
Definition assign_retry (v : number) : M completion :=
  fun w =>
    match retry (globals (host w)) with
    | None => (ThrowReferenceError, w, [])
    | Some _ =>
        (Normal,
         {| self := self w;
            host := set_globals {| retry := Some v;
                                   interval := interval (globals (host w)) |}
                      (host w) |},
         [])
    end.

Definition assign_interval (v : number) : M completion :=
  fun w =>
    match interval (globals (host w)) with
    | None => (ThrowReferenceError, w, [])
    | Some _ =>
        (Normal,
         {| self := self w;
            host := set_globals {| retry := retry (globals (host w));
                                   interval := Some v |}
                      (host w) |},
         [])
    end.

(** One turn of the [for] loop, on [parts[i]]. *)
Definition line_body (part : jsstring) (l : Locals) : M (completion * Locals) :=
  let line := trim part in
  match classify line with
  | F_event =>
      ret (Normal, {| data := data l;
                      eventType := Some (replace_field (js "event") line) |})
  | F_retry =>
      let n := parseInt (replace_field (js "retry") line) in
      c <- assign_retry n ;;
      match c with
      | ThrowReferenceError => ret (ThrowReferenceError, l)
      | Normal =>
          if negb (isNaN n) then
            c' <- assign_interval n ;; ret (c', l)
          else ret (Normal, l)
      end
  | F_data =>
      ret (Normal, {| data := data l ++ [replace_field (js "data") line];
                      eventType := eventType l |})
  | F_id_colon =>
      update (set_lastEventId (Some (replace_field (js "id") line))) ;;
      ret (Normal, l)
  | F_id =>
      update (set_lastEventId None) ;;
      ret (Normal, l)
  | F_empty =>
      match data l with
      | [] => ret (Normal, l)
      | _ :: _ =>
          e <- this_ ;;
          _emitMessage
            (match eventType l with
             | Some ((_ :: _) as t) => t
             | Some [] | None => js "message"
             end)
            (MessageEvent (join_lf (data l)) (url e ++ path e) (lastEventId e)) ;;
          ret (Normal, no_locals)
      end
  | F_other => ret (Normal, l)
  end.

(** The [for] loop over [parts]; an exception ends it. *)
Fixpoint for_parts (parts : list jsstring) (l : Locals) : M (completion * Locals) :=
  match parts with
  | [] => ret (Normal, l)
  | part :: rest =>
      r <- line_body part l ;;
      match r with
      | (Normal, l') => for_parts rest l'
      | (ThrowReferenceError, l') => ret (ThrowReferenceError, l')
      end
  end.

(** The text after [cache] is split and read; [cache] becomes the whole
    text before the loop starts. Answers how the loop ended and the new
    [cache]. *)
Definition decode (responseText cache : jsstring) : M (completion * jsstring) :=
  let parts := split_lf (substr responseText (List.length cache)) in
  r <- for_parts parts no_locals ;;
  ret (fst r, responseText).

(** *** [_poll()] and the handlers it attaches *)

Definition includes (codes : list Z) (s : Z) : bool :=
  existsb (Z.eqb s) codes.

Definition below_ceiling (e : EventSource) : bool :=
  (MAX_ATTEMPTS e <? 0) || (_attempts e <? MAX_ATTEMPTS e).

Definition set_cache (c : jsstring) (x : Xhr) : Xhr :=
  {| xhr_readyState := xhr_readyState x; status := status x;
     responseText := responseText x; cache := c |}.

(** [xhr.onreadystatechange], [this] being the request [_xhr] holds. *)
Definition onreadystatechange : M completion :=
  e <- this_ ;;
  match _xhr e with
  | None => ret Normal
  | Some this =>
      if (xhr_readyState this =? 3)
         || ((xhr_readyState this =? 4) && (status this =? 200))
      then
        (if readyState_is (readyState e) CONNECTING && (status this =? 200)
         then
           _setReadyState OPEN ;;
           emit types.ON_OPEN (POpen (url e)) ;;
           update (set_attempts 0)
         else ret tt) ;;
        r <- decode (responseText this) (cache this) ;;
        update (set_xhr (Some (set_cache (snd r) this))) ;;
        match fst r with
        | ThrowReferenceError => ret ThrowReferenceError
        | Normal =>
            if xhr_readyState this =? 4 then
              emit types.ON_TIMEOUT PTimeout ;;
              e' <- this_ ;;
              r <- Math_random ;;
              let interval := randomInterval r (RECONNECT_INTERVAL e') 100 in
              _pollAgain interval ;;
              ret Normal
            else ret Normal
        end
      else if xhr_readyState this =? 4 then
        if negb (status this =? 0) then
          _emitError (status this) (Some (responseText this)) ;;
          e' <- this_ ;;
          if RETRY_ON_SERVER_ERROR e'
             && includes (SERVER_ERROR_CODES e') (status this)
             && below_ceiling e'
          then
            _setReadyState CONNECTING ;;
            _retry ;;
            ret Normal
          else
            close true ;;
            ret Normal
        else ret Normal
      else ret Normal
  end.

(** [xhr.onerror]. *)
Definition onerror : M unit :=
  e <- this_ ;;
  match _xhr e with
  | None => ret tt
  | Some this =>
      if status this =? 0 then
        (if _attempts e =? 0
         then _emitError (status this) (Some (responseText this))
         else ret tt) ;;
        if RETRY_ON_NETWORK_ERROR e && below_ceiling e
        then
          _setReadyState CONNECTING ;;
          _retry
        else close true
      else ret tt
  end.

(** The header [Last-Event-ID] is set when [lastEventId] is truthy. *)
Definition lastEventId_header (e : EventSource) : option jsstring :=
  match lastEventId e with
  | Some ((_ :: _) as s) => Some s
  | Some [] | None => None
  end.

(** The request [_poll] has just sent: opened, nothing received, its
    [cache] empty. *)
Definition sent_Xhr : Xhr :=
  {| xhr_readyState := 1; status := 0; responseText := []; cache := [] |}.

(** [_poll()]: a new request is sent and kept in [_xhr]; an exception on
    the way is caught. *)
Definition _poll : M unit :=
  e <- this_ ;;
  if readyState_is (readyState e) CLOSED then ret tt
  else
    fun w =>
      if request_throws (host w) then
        (_emitError 0 None ;; close true) w
      else
        (tell (XhrSend (lastEventId_header e)) ;;
         update (set_xhr (Some sent_Xhr))) w.

(** [open()]. *)
Definition open : M unit :=
  e <- this_ ;;
  if match _xhr e with
     | None => true
     | Some x => (xhr_readyState x =? 4) || (xhr_readyState x =? 0)
     end
     && match _pollTimer e with None => true | Some _ => false end
  then
    _setReadyState CONNECTING ;;
    _poll
  else ret tt.

(** ** The host drives the client *)

(** What can happen to an instance: a call of its interface, an event of
    the request [_xhr] holds (the host has set the fields of the request
    before it calls the handler), or a timer that comes due. *)
Inductive Input :=
| Call_open
| Call_close (error : bool)
| Call_destroy
| Xhr_readystatechange (readyState status : Z) (responseText : jsstring)
| Xhr_error (status : Z) (responseText : jsstring)
| Timer_fires (handle : nat).

Definition xhr_becomes (rs st : Z) (text : jsstring) : M unit :=
  update (fun e =>
            match _xhr e with
            | Some x => set_xhr (Some {| xhr_readyState := rs; status := st;
                                         responseText := text;
                                         cache := cache x |}) e
            | None => e
            end).

Definition timer_pending (handle : nat) (h : Host) : bool :=
  existsb (fun t => Nat.eqb (fst t) handle) (timers h).

Definition step (i : Input) : M completion :=
  match i with
  | Call_open => open ;; ret Normal
  | Call_close error => close error ;; ret Normal
  | Call_destroy => destroy ;; ret Normal
  | Xhr_readystatechange rs st text =>
      xhr_becomes rs st text ;; onreadystatechange
  | Xhr_error st text =>
      xhr_becomes 4 st text ;; onerror ;; ret Normal
  | Timer_fires handle =>
      fun w =>
        if timer_pending handle (host w) then
          (update_host (drop_timer (Some handle)) ;;
           _poll ;; ret Normal) w
        else (Normal, w, [])
  end.

(** A handler that throws does not stop the host: the inputs that follow
    are still delivered. *)
Fixpoint run (inputs : list Input) : M unit :=
  match inputs with
  | [] => ret tt
  | i :: rest => step i ;; run rest
  end.

(** A transport-level failure as the request reports it: readyState 4
    with status 0, then the error event. *)
Definition network_failure : list Input :=
  [Xhr_readystatechange 4 0 []; Xhr_error 0 []].

(** A fresh host and a fresh instance. *)
Definition new_Host (ds : list Q) (g : Globals) : Host :=
  {| timers := []; next_handle := 1%nat; draws := ds; globals := g;
     request_throws := false |}.

Definition new_World (o : Options) (ds : list Q) (g : Globals) : World :=
  {| self := new_EventSource o; host := new_Host ds g |}.

Definition default_Options (u : jsstring) : Options :=
  {| o_url := u; o_path := None; reconnectInterval := None;
     maxInterval := None; minInterval := None; maxAttempts := None;
     retryOnNetworkError := None; retryOnServerError := None;
     serverErrorCodes := None |}.

(** No binding for [retry] or [interval]: a host that declares neither. *)
Definition no_globals : Globals := {| retry := None; interval := None |}.

(** A host in which both identifiers are bound. *)
Definition declared_globals : Globals :=
  {| retry := Some NaN; interval := Some NaN |}.

(** *** Reading a run *)

Definition result_of {A : Type} (r : A * World * list Effect) : A := fst (fst r).
Definition world_of {A : Type} (r : A * World * list Effect) : World := snd (fst r).
Definition log_of {A : Type} (r : A * World * list Effect) : list Effect := snd r.

(** The delays of the timers a log sets. *)
Fixpoint scheduled (log : list Effect) : list Z :=
  match log with
  | SetTimeout _ d :: rest => d :: scheduled rest
  | _ :: rest => scheduled rest
  | [] => []
  end.

(** The requests a log sends. *)
Fixpoint requests (log : list Effect) : nat :=
  match log with
  | XhrSend _ :: rest => S (requests rest)
  | _ :: rest => requests rest
  | [] => O
  end.

(** The payloads a log publishes under [name]. *)
Fixpoint published (name : jsstring) (log : list Effect) : list Payload :=
  match log with
  | Emit n p :: rest =>
      if JS.eqb n name then p :: published name rest else published name rest
  | _ :: rest => published name rest
  | [] => []
  end.

(** The messages of the stream a log publishes: what [_emitMessage]
    emitted, under whatever name. *)
Fixpoint frames (log : list Effect) : list (jsstring * Payload) :=
  match log with
  | Emit n (PMessage t d i o) :: rest => (n, PMessage t d i o) :: frames rest
  | _ :: rest => frames rest
  | [] => []
  end.

(** The decoder on a text that arrives in two chunks, and on the same
    text in one call. *)
Definition decode_chunked (chunk1 chunk2 : jsstring) : M (completion * jsstring) :=
  r1 <- decode chunk1 [] ;;
  decode (chunk1 ++ chunk2) (snd r1).

Definition decode_whole (chunk1 chunk2 : jsstring) : M (completion * jsstring) :=
  decode (chunk1 ++ chunk2) [].

(** *** Worlds to state the properties with *)

Definition with_lastEventId (v : option jsstring) (w : World) : World :=
  {| self := set_lastEventId v (self w); host := host w |}.

Definition with_globals (g : Globals) (w : World) : World :=
  {| self := self w; host := set_globals g (host w) |}.

(** What the branch of [retry] does with the number [n] it read: the
    first assignment throws when [retry] has no binding; the second one
    is reached when [n] is a number, and throws when [interval] has
    none. *)
Definition retry_outcome (n : number) (l : Locals) (w : World)
  : (completion * Locals) * World * list Effect :=
  let g := globals (host w) in
  match retry g with
  | None => ((ThrowReferenceError, l), w, [])
  | Some _ =>
      if isNaN n then
        ((Normal, l), with_globals {| retry := Some n; interval := interval g |} w, [])
      else
        match interval g with
        | None =>
            ((ThrowReferenceError, l),
             with_globals {| retry := Some n; interval := None |} w, [])
        | Some _ =>
            ((Normal, l),
             with_globals {| retry := Some n; interval := Some n |} w, [])
        end
  end.

(** A client that was just built, on a host that binds neither [retry]
    nor [interval]. *)
Definition example_World : World :=
  new_World (default_Options (js "http://example.org/stream")) [] no_globals.

Definition with_self (f : EventSource -> EventSource) (w : World) : World :=
  {| self := f (self w); host := host w |}.

(** The world after [_setReadyState(state)], and what it publishes. *)
Definition in_state (state : ReadyState) (w : World) : World :=
  if readyState_is (readyState (self w)) state then w
  else with_self (set_readyState (Some state)) w.

Definition state_log (state : ReadyState) (w : World) : list Effect :=
  if readyState_is (readyState (self w)) state then []
  else [Emit types.ON_STATE (PState state (readyState (self w)))].

(** The world [close] leaves when the client was not closed yet. *)
Definition closed (w : World) : World :=
  {| self :=
       set_attempts 0
         (set_xhr (option_map aborted (_xhr (self w)))
            (set_pollTimer None (set_readyState (Some CLOSED) (self w))));
     host := drop_timer (_pollTimer (self w)) (host w) |}.

(** What [close] asks of the host then. *)
Definition close_log (error : bool) (w : World) : list Effect :=
  [Emit types.ON_STATE (PState CLOSED (readyState (self w)));
   ClearInterval (_pollTimer (self w))]
  ++ match _xhr (self w) with Some _ => [XhrAbort] | None => [] end
  ++ [Emit types.ON_CLOSE (PClose error)].

(** The two reasons [open()] has not to act: the request [_xhr] holds is
    on its way (its readyState is neither 4 nor 0), or [_pollTimer] holds
    a handle. *)
Definition request_active (e : EventSource) : bool :=
  match _xhr e with
  | Some x => negb ((xhr_readyState x =? 4) || (xhr_readyState x =? 0))
  | None => false
  end.

Definition timer_set (e : EventSource) : bool :=
  match _pollTimer e with Some _ => true | None => false end.

(** The delay [_retry()] waits, and the world it leaves. *)
Definition retry_delay (w : World) : Z :=
  backoffInterval (next_draw (host w)) (_attempts (self w) + 1)
    (MIN_INTERVAL (self w)) (MAX_INTERVAL (self w)).

Definition retried (w : World) : World :=
  {| self := set_pollTimer (Some (next_handle (host w)))
               (set_attempts (_attempts (self w) + 1) (self w));
     host := add_timer (retry_delay w) (pop_draw (host w)) |}.

(** What the decoder cannot touch: the world without [lastEventId] and
    without the bindings of the global environment. *)
Definition outside_decoder (w : World) : EventSource * Host :=
  (set_lastEventId None (self w), set_globals no_globals (host w)).

(** The options of the README's example that matter here:
    [retryOnNetworkError: false], the rest left to the defaults. *)
Definition no_network_retry_Options (u : jsstring) : Options :=
  {| o_url := u; o_path := None; reconnectInterval := None;
     maxInterval := None; minInterval := None; maxAttempts := None;
     retryOnNetworkError := Some false; retryOnServerError := None;
     serverErrorCodes := None |}.

(** Any options, with [retryOnNetworkError: true] and [maxAttempts: 3]. *)
Definition three_attempts_Options (o : Options) : Options :=
  {| o_url := o_url o; o_path := o_path o;
     reconnectInterval := reconnectInterval o;
     maxInterval := maxInterval o; minInterval := minInterval o;
     maxAttempts := Some 3;
     retryOnNetworkError := Some true;
     retryOnServerError := retryOnServerError o;
     serverErrorCodes := serverErrorCodes o |}.

(** [open()], then three times a failure of the transport and the timer
    of the retry it led to. *)
Definition three_failed_attempts : list Input :=
  Call_open :: network_failure ++ [Timer_fires 1] ++ network_failure
    ++ [Timer_fires 2] ++ network_failure ++ [Timer_fires 3].

(** A client whose request is on its way, and the same once the
    transport has failed. *)
Definition connecting_World : World :=
  world_of (run [Call_open] example_World).

Definition failed_World : World :=
  world_of (run [Call_open; Xhr_readystatechange 4 0 []] example_World).

(** *** The moves of a host that keeps to the protocol of the request *)

(** The calls of the interface; the events of the request [_xhr] holds
    while it is on its way: text received (readyState 3), completion with
    a status other than 0 (readyState 4), failure of the transport
    (readyState 4 with status 0, then the error event); and a timer that
    comes due. A move starts when the one before it has ended: a call
    that a listener makes while an event is published to it is not a
    move. *)
Inductive Move :=
| Calls_open
| Calls_close (error : bool)
| Calls_destroy
| Receives (status : Z) (text : jsstring)
| Completes (status : Z) (text : jsstring)
| Fails
| Timer_due (handle : nat).

Definition inputs_of (m : Move) : list Input :=
  match m with
  | Calls_open => [Call_open]
  | Calls_close error => [Call_close error]
  | Calls_destroy => [Call_destroy]
  | Receives st text => [Xhr_readystatechange 3 st text]
  | Completes st text => [Xhr_readystatechange 4 st text]
  | Fails => network_failure
  | Timer_due handle => [Timer_fires handle]
  end.

(** The handler of a completion ends without an exception. *)
Definition completes_normally (st : Z) (text : jsstring) (w : World) : bool :=
  match result_of (step (Xhr_readystatechange 4 st text) w) with
  | Normal => true
  | ThrowReferenceError => false
  end.

(** The events of the request need a request on its way; the moves that
    are followed are those whose completion handler does not throw. *)
Definition possible (m : Move) (w : World) : bool :=
  match m with
  | Receives _ _ | Fails => request_active (self w)
  | Completes st text =>
      request_active (self w) && negb (st =? 0) && completes_normally st text w
  | Calls_open | Calls_close _ | Calls_destroy | Timer_due _ => true
  end.

Definition move (w : World) (m : Move) : World :=
  if possible m w then world_of (run (inputs_of m) w) else w.

Definition play (ms : list Move) (w : World) : World := fold_left move ms w.

Definition live (e : EventSource) : bool :=
  readyState_is (readyState e) CONNECTING || readyState_is (readyState e) OPEN.

Definition busy (e : EventSource) : bool := request_active e || timer_set e.

(** The invariant: a client that is CONNECTING or OPEN has a request on
    its way or holds a timer. *)
Definition steady (w : World) : Prop :=
  live (self w) = true -> busy (self w) = true.

(** A client that has received a frame on an open response. *)
Definition streaming_World : World :=
  play [Calls_open; Receives 200 (js "data: x" ++ [LF; LF])] example_World.

(** *** Further definitions for the properties *)

(** The Fibonacci numbers 1, 1, 2, 3, 5, ... as a pair that advances the
    way [prev] and [current] do in [backoffInterval]. *)
Fixpoint fib_pair (n : nat) : Z * Z :=
  match n with
  | O => (1, 1)
  | S n' => let '(a, b) := fib_pair n' in (b, a + b)
  end.

Definition fib (n : nat) : Z := fst (fib_pair n).

(** *** Texts for the decoder *)

(** A string with no line feed. *)
Definition no_lf (s : jsstring) : bool :=
  forallb (fun c => negb (c =? LF)%N) s.

(** A string that [reTrim] leaves as it is and that fits on a line. *)
Definition plain (s : jsstring) : bool :=
  no_lf s && JS.eqb (trim s) s.

(** An effect that publishes a message of the stream of [w]. *)
Definition is_frame_of (w : World) (e : Effect) : Prop :=
  exists name d id,
    e = Emit name (PMessage (js "message") d id (url (self w) ++ path (self w))).

(** What [_emitMessage] publishes for the data [d]. *)
Definition payload_of (d : jsstring) : JSON.value :=
  match d with
  | [] => JSON.JString []
  | _ :: _ => match JSON.parse d with
              | Some v => v
              | None => JSON.JString d
              end
  end.

(** The text of one frame as a server writes it: an optional [id] line,
    an optional [event] line, the [data] lines, and the blank line. *)
Definition frame_lines (id name : option jsstring) (ds : list jsstring)
  : list jsstring :=
  match id with Some i => [js "id: " ++ i] | None => [] end
  ++ match name with Some n => [js "event: " ++ n] | None => [] end
  ++ List.map (fun d => js "data: " ++ d) ds.

Definition frame_text (id name : option jsstring) (ds : list jsstring)
  : jsstring :=
  join_lf (frame_lines id name ds ++ [[]; []]).

(** *** Closed forms and invariants of the state machine *)

(** What never changes after the constructor. *)
Definition settings (e : EventSource)
  : Z * Z * Z * Z * (bool * bool * list Z) * (jsstring * jsstring) :=
  (RECONNECT_INTERVAL e, MAX_INTERVAL e, MIN_INTERVAL e, MAX_ATTEMPTS e,
   (RETRY_ON_NETWORK_ERROR e, RETRY_ON_SERVER_ERROR e, SERVER_ERROR_CODES e),
   (url e, path e)).

(** The world once the host has set the fields of the request. *)
Definition received (rs st : Z) (text : jsstring) (w : World) : World :=
  world_of (xhr_becomes rs st text w).

(** The first answer with status 200 opens a client that is CONNECTING. *)
Definition opens (st : Z) (w : World) : bool :=
  readyState_is (readyState (self w)) CONNECTING && (st =? 200).

Definition opened (st : Z) (w : World) : World :=
  if opens st w then with_self (set_attempts 0) (in_state OPEN w) else w.

Definition open_log (st : Z) (w : World) : list Effect :=
  if opens st w
  then [Emit types.ON_STATE (PState OPEN (readyState (self w)));
        Emit types.ON_OPEN (POpen (url (self w)))]
  else [].

(** The world [_pollAgain(interval)] leaves after a draw. *)
Definition polled_again (interval : Z) (w : World) : World :=
  {| self := set_pollTimer (Some (next_handle (host w))) (self w);
     host := add_timer interval (pop_draw (host w)) |}.

(** The delay after a close by the peer. *)
Definition reconnect_delay (w : World) : Z :=
  randomInterval (next_draw (host w)) (RECONNECT_INTERVAL (self w)) 100.

(** The test of the handlers before they retry after a server error. *)
Definition retries_server_error (st : Z) (e : EventSource) : bool :=
  RETRY_ON_SERVER_ERROR e && includes (SERVER_ERROR_CODES e) st
  && below_ceiling e.

(** What [_emitError] hands to the listeners as [data]. *)
Definition error_data (st : Z) (message : option jsstring) : JSON.value :=
  if negb (st =? 0) then
    match message with
    | Some m => match JSON.parse m with
                | Some v => v
                | None => JSON.JObject []
                end
    | None => JSON.JObject []
    end
  else JSON.JObject [].

(** The inputs that run the response handler. *)
Definition from_the_response (i : Input) : bool :=
  match i with
  | Xhr_readystatechange _ _ _ => true
  | _ => false
  end.

(** The retry counter and its ceiling. *)
Definition counter (e : EventSource) : Z * Z := (_attempts e, MAX_ATTEMPTS e).

(** At most one timer is pending, [_pollTimer] holds its handle, and no
    request is on its way while it is pending. *)
Definition one_timer (w : World) : Prop :=
  match timers (host w) with
  | [] => True
  | [t] => _pollTimer (self w) = Some (fst t)
           /\ request_active (self w) = false
  | _ :: _ :: _ => False
  end.

(** The retry counter is within its bounds. *)
Definition attempts_bounded (e : EventSource) : Prop :=
  0 <= _attempts e /\ (0 <= MAX_ATTEMPTS e -> _attempts e <= MAX_ATTEMPTS e).

(** *** Streams of frames *)

(** A frame as a server writes it: the value of its [id] line and of its
    [event] line, when it has them, and the values of its [data] lines. *)
Record Frame := {
  f_id : option jsstring;
  f_event : option jsstring;
  f_data : list jsstring
}.

(** The values fit on a line and are trimmed, there is data, and a name
    is not empty. *)
Definition well_formed (f : Frame) : bool :=
  match f_data f with [] => false | _ :: _ => true end
  && forallb plain (f_data f)
  && match f_id f with Some i => plain i | None => true end
  && match f_event f with
     | Some n => plain n && match n with [] => false | _ :: _ => true end
     | None => true
     end.

(** The text of a stream of frames, each closed by its blank line. *)
Definition stream_text (fs : list Frame) : jsstring :=
  List.concat (List.map (fun f => frame_text (f_id f) (f_event f) (f_data f)) fs).

(** The id a client holds after the frames [fs], [last] being the one it
    held before. *)
Definition id_after (fs : list Frame) (last : option jsstring)
  : option jsstring :=
  fold_left (fun l f => match f_id f with Some i => Some i | None => l end)
    fs last.

(** The events of the frames [fs] on a stream of address [origin]. *)
Fixpoint events_of (fs : list Frame) (last : option jsstring)
         (origin : jsstring) : list Effect :=
  match fs with
  | [] => []
  | f :: fs' =>
      let id := match f_id f with Some i => Some i | None => last end in
      Emit match f_event f with Some n => n | None => js "message" end
        (PMessage (js "message") (payload_of (join_lf (f_data f))) id origin)
      :: events_of fs' id origin
  end.

(** A client that is CLOSED has no request on its way and holds no
    timer. *)
Definition idle_when_closed (w : World) : Prop :=
  readyState_is (readyState (self w)) CLOSED = true -> busy (self w) = false.

(** *** Reading a world field by field *)

(** Two clients that differ in [lastEventId] at most. *)
Definition same_but_lastEventId (e e' : EventSource) : Prop :=
  RECONNECT_INTERVAL e' = RECONNECT_INTERVAL e
  /\ MAX_INTERVAL e' = MAX_INTERVAL e
  /\ MIN_INTERVAL e' = MIN_INTERVAL e
  /\ MAX_ATTEMPTS e' = MAX_ATTEMPTS e
  /\ RETRY_ON_NETWORK_ERROR e' = RETRY_ON_NETWORK_ERROR e
  /\ RETRY_ON_SERVER_ERROR e' = RETRY_ON_SERVER_ERROR e
  /\ SERVER_ERROR_CODES e' = SERVER_ERROR_CODES e
  /\ url e' = url e
  /\ path e' = path e
  /\ readyState e' = readyState e
  /\ _pollTimer e' = _pollTimer e
  /\ _xhr e' = _xhr e
  /\ _attempts e' = _attempts e.

(** Two hosts that differ in the bindings of the global environment at
    most. *)
Definition same_but_globals (h h' : Host) : Prop :=
  timers h' = timers h
  /\ next_handle h' = next_handle h
  /\ draws h' = draws h
  /\ request_throws h' = request_throws h.

(** A client that holds the id 7, written out field by field, on a host
    that binds [retry] and [interval]. *)
Definition holding_World : World :=
  {| self :=
       {| RECONNECT_INTERVAL := 1000; MAX_INTERVAL := 15000;
          MIN_INTERVAL := 1000; MAX_ATTEMPTS := -1;
          RETRY_ON_NETWORK_ERROR := true; RETRY_ON_SERVER_ERROR := false;
          SERVER_ERROR_CODES := [502; 503; 504];
          url := js "http://example.org/stream"; path := [];
          readyState := Some OPEN; lastEventId := Some (js "7");
          _pollTimer := None;
          _xhr := Some {| xhr_readyState := 3; status := 200;
                          responseText := []; cache := [] |};
          _attempts := 0 |};
     host :=
       {| timers := []; next_handle := 1%nat; draws := [];
          globals := {| retry := Some NaN; interval := Some NaN |};
          request_throws := false |} |}.

(** A client that has received, at readyState 3, one frame with the id
    41. *)
Definition after_a_frame_World : World :=
  world_of
    (run [Call_open;
          Xhr_readystatechange 3 200
            (stream_text [{| f_id := Some (js "41"); f_event := None;
                             f_data := [js "a"] |}])]
       example_World).

(** *** Binary64 arithmetic

    The numbers of the source are binary64, and [randomInterval] above
    computes in exact arithmetic; what follows is the same function with
    the rounding of each operation. *)

(** [round(q)] to the nearest integer, a tie going to the even one. *)
Definition round_half_even (q : Q) : Z :=
  let f := Qfloor q in
  match (q - inject_Z f ?= 1 # 2)%Q with
  | Lt => f
  | Gt => f + 1
  | Eq => if Z.even f then f else f + 1
  end.

(** [2^k] for an integer [k]. *)
Definition pow2 (k : Z) : Q :=
  if 0 <=? k then inject_Z (2 ^ k) else 1 # Z.to_pos (2 ^ (- k)).

(** The [j] with [2^j <= x < 2^(j+1)], for [0 < x]. *)
Definition ilog2 (x : Q) : Z :=
  let j := Z.log2 (Qnum x) - Z.log2 (Zpos (Qden x)) in
  if Qle_bool (pow2 j) x then j else j - 1.

(** The exponent [e] of the binary64 numbers around [x]: they are the
    [m * 2^e] with 53 bits for [m]; -1074 is the exponent of the
    subnormal numbers. *)
Definition exponent64 (x : Q) : Z := Z.max (ilog2 x - 52) (-1074).

(** The binary64 number [m * 2^e] nearest to [x], for [0 < x]; a tie goes
    to the even [m]. *)
Definition round64_pos (x : Q) : Q :=
  let e := exponent64 x in
  if e <=? 0
  then round_half_even (x * inject_Z (2 ^ (- e))) # Z.to_pos (2 ^ (- e))
  else inject_Z (round_half_even (x / inject_Z (2 ^ e)) * 2 ^ e).

(** What an operation of the source keeps of its exact result [x]: the
    binary64 number nearest to it, ties to even. Results are finite
    here: past the largest binary64 number the source has [Infinity],
    which this function does not have. *)
Definition round64 (x : Q) : Q :=
  match (x ?= 0)%Q with
  | Eq => 0%Q
  | Gt => round64_pos x
  | Lt => (- round64_pos (- x))%Q
  end.

(** [randomInterval(max, min)] with every operation of
    [Math.floor(r * (max + 1 - min) + min)] rounded as the source rounds
    it; the floor of a finite number is exact. *)
Definition randomInterval64 (r : Q) (max min : Z) : Z :=
  Qfloor
    (round64
       (round64 (r * round64 (round64 (inject_Z max + 1) - inject_Z min))
        + inject_Z min)).

(** *** Listeners that call the client back *)

(** [xhr.onerror] when the listeners of [error] do [heard] while the
    event is published to them: [emit] calls them before it returns, and
    the handler reads the client again after it. *)
Definition onerror_heard (heard : M unit) : M unit :=
  e <- this_ ;;
  match _xhr e with
  | None => ret tt
  | Some this =>
      if status this =? 0 then
        (if _attempts e =? 0
         then _emitError (status this) (Some (responseText this)) ;; heard
         else ret tt) ;;
        e' <- this_ ;;
        if RETRY_ON_NETWORK_ERROR e' && below_ceiling e'
        then
          _setReadyState CONNECTING ;;
          _retry
        else close true
      else ret tt
  end.

(** [xhr.onreadystatechange] when the listeners of [timeout] do [heard]
    while the event is published to them. *)
Definition onreadystatechange_heard (heard : M unit) : M completion :=
  e <- this_ ;;
  match _xhr e with
  | None => ret Normal
  | Some this =>
      if (xhr_readyState this =? 3)
         || ((xhr_readyState this =? 4) && (status this =? 200))
      then
        (if readyState_is (readyState e) CONNECTING && (status this =? 200)
         then
           _setReadyState OPEN ;;
           emit types.ON_OPEN (POpen (url e)) ;;
           update (set_attempts 0)
         else ret tt) ;;
        r <- decode (responseText this) (cache this) ;;
        update (set_xhr (Some (set_cache (snd r) this))) ;;
        match fst r with
        | ThrowReferenceError => ret ThrowReferenceError
        | Normal =>
            if xhr_readyState this =? 4 then
              emit types.ON_TIMEOUT PTimeout ;;
              heard ;;
              e' <- this_ ;;
              r <- Math_random ;;
              let interval := randomInterval r (RECONNECT_INTERVAL e') 100 in
              _pollAgain interval ;;
              ret Normal
            else ret Normal
        end
      else if xhr_readyState this =? 4 then
        if negb (status this =? 0) then
          _emitError (status this) (Some (responseText this)) ;;
          e' <- this_ ;;
          if RETRY_ON_SERVER_ERROR e'
             && includes (SERVER_ERROR_CODES e') (status this)
             && below_ceiling e'
          then
            _setReadyState CONNECTING ;;
            _retry ;;
            ret Normal
          else
            close true ;;
            ret Normal
        else ret Normal
      else ret Normal
  end.

(** The inputs that are left to a client whose request has ended: the
    calls of its interface and the timers. *)
Definition outside_a_request (i : Input) : bool :=
  match i with
  | Call_open | Call_close _ | Call_destroy | Timer_fires _ => true
  | Xhr_readystatechange _ _ _ | Xhr_error _ _ => false
  end.

(** A client that is CLOSED and still holds a timer handle. *)
Definition wedged (w : World) : Prop :=
  readyState (self w) = Some CLOSED /\ timer_set (self w) = true.

(** * Properties *)

(** ** The retry delay *)

Section Backoff.

Variables delay maxDelay : Z.

Lemma backoff_loop_lower (n : nat) :
  forall prev current, 0 < prev -> 0 < current ->
    current <= backoff_loop n prev current delay maxDelay.
Proof.
  induction n as [|n IH]; intros prev current Hp Hc; simpl.
  - lia.
  - destruct (delay + (prev + current) * 100 >? maxDelay).
    + lia.
    + specialize (IH current (prev + current)). lia.
Qed.

Lemma backoff_loop_step (n : nat) :
  forall prev current, 0 < prev -> 0 < current ->
    backoff_loop n prev current delay maxDelay
    <= backoff_loop (S n) prev current delay maxDelay.
Proof.
  induction n as [|n IH]; intros prev current Hp Hc.
  - simpl. destruct (delay + (prev + current) * 100 >? maxDelay); lia.
  - change (backoff_loop (S (S n)) prev current delay maxDelay)
      with (if delay + (prev + current) * 100 >? maxDelay then prev + current
            else backoff_loop (S n) current (prev + current) delay maxDelay).
    change (backoff_loop (S n) prev current delay maxDelay)
      with (if delay + (prev + current) * 100 >? maxDelay then prev + current
            else backoff_loop n current (prev + current) delay maxDelay).
    destruct (delay + (prev + current) * 100 >? maxDelay).
    + lia.
    + apply IH; lia.
Qed.

Lemma backoff_loop_mono (n m : nat) :
  (n <= m)%nat ->
  forall prev current, 0 < prev -> 0 < current ->
    backoff_loop n prev current delay maxDelay
    <= backoff_loop m prev current delay maxDelay.
Proof.
  induction 1 as [|m Hle IH]; intros prev current Hp Hc.
  - lia.
  - etransitivity; [apply IH; assumption|].
    apply backoff_loop_step; assumption.
Qed.

(** Once an iteration has found the ceiling over [maxDelay], one more
    turn of the loop changes nothing. *)
Lemma backoff_loop_stable_step (n : nat) :
  forall prev current,
    delay + backoff_loop (S n) prev current delay maxDelay * 100 > maxDelay ->
    backoff_loop (S (S n)) prev current delay maxDelay
    = backoff_loop (S n) prev current delay maxDelay.
Proof.
  induction n as [|n IH]; intros prev current H.
  - simpl in *.
    destruct (Z.gtb_spec (delay + (prev + current) * 100) maxDelay);
      [reflexivity | lia].
  - change (backoff_loop (S (S (S n))) prev current delay maxDelay)
      with (if delay + (prev + current) * 100 >? maxDelay then prev + current
            else backoff_loop (S (S n)) current (prev + current) delay maxDelay).
    change (backoff_loop (S (S n)) prev current delay maxDelay)
      with (if delay + (prev + current) * 100 >? maxDelay then prev + current
            else backoff_loop (S n) current (prev + current) delay maxDelay) in *.
    destruct (delay + (prev + current) * 100 >? maxDelay); [reflexivity|].
    apply IH; assumption.
Qed.

Lemma backoff_loop_stable (n k : nat) :
  forall prev current,
    delay + backoff_loop (S n) prev current delay maxDelay * 100 > maxDelay ->
    backoff_loop (S n + k) prev current delay maxDelay
    = backoff_loop (S n) prev current delay maxDelay.
Proof.
  induction k as [|k IH]; intros prev current H.
  - rewrite Nat.add_0_r. reflexivity.
  - replace (S n + S k)%nat with (S (S (n + k))) by lia.
    specialize (IH prev current H). simpl plus in IH.
    rewrite backoff_loop_stable_step; rewrite IH; [reflexivity | assumption].
Qed.

Lemma backoff_current_positive (attempt : Z) :
  1 <= backoff_current attempt delay maxDelay.
Proof.
  unfold backoff_current. destruct (attempt >? 1); [|lia].
  pose proof (backoff_loop_lower (Z.to_nat (attempt - 2)) 1 2). lia.
Qed.

Lemma backoff_current_mono (a b : Z) :
  a <= b ->
  backoff_current a delay maxDelay <= backoff_current b delay maxDelay.
Proof.
  intros Hab. unfold backoff_current.
  destruct (Z.gtb_spec a 1); destruct (Z.gtb_spec b 1).
  - apply backoff_loop_mono; lia.
  - lia.
  - pose proof (backoff_loop_lower (Z.to_nat (b - 2)) 1 2). lia.
  - lia.
Qed.

Lemma backoff_current_stable (a b : Z) :
  3 <= a -> a <= b ->
  delay + backoff_current a delay maxDelay * 100 > maxDelay ->
  backoff_current b delay maxDelay = backoff_current a delay maxDelay.
Proof.
  intros Ha Hab. unfold backoff_current.
  destruct (Z.gtb_spec a 1); [|lia].
  destruct (Z.gtb_spec b 1); [|lia].
  replace (Z.to_nat (a - 2)) with (S (Z.to_nat (a - 3))) by lia.
  replace (Z.to_nat (b - 2)) with (S (Z.to_nat (a - 3)) + Z.to_nat (b - a))%nat by lia.
  apply backoff_loop_stable.
Qed.

End Backoff.

(** [randomInterval(max)] lies between 0 and [max]. *)
Lemma randomInterval_range (r : Q) (max : Z) :
  (0 <= r)%Q -> (r < 1)%Q -> 0 <= max ->
  0 <= randomInterval r max 0 <= max.
Proof.
  intros H0 H1 Hmax. unfold randomInterval.
  set (x := (r * inject_Z (max + 1 - 0) + inject_Z 0)%Q).
  assert (Hx0 : (inject_Z 0 <= x)%Q).
  { unfold x. setoid_replace (inject_Z 0) with 0%Q by reflexivity.
    rewrite Qplus_0_r. apply Qmult_le_0_compat; [assumption|].
    change 0%Q with (inject_Z 0). rewrite <- Zle_Qle. lia. }
  assert (Hx1 : (x < inject_Z (max + 1))%Q).
  { unfold x. setoid_replace (inject_Z 0) with 0%Q by reflexivity.
    rewrite Qplus_0_r. rewrite Z.sub_0_r.
    setoid_replace (inject_Z (max + 1)) with (1 * inject_Z (max + 1))%Q at 2
      by (rewrite Qmult_1_l; reflexivity).
    apply Qmult_lt_compat_r; [|assumption].
    change 0%Q with (inject_Z 0). rewrite <- Zlt_Qlt. lia. }
  pose proof (Qfloor_resp_le _ _ Hx0) as Hlo. rewrite Qfloor_Z in Hlo.
  assert (Hhi : Qfloor x < max + 1).
  { rewrite Zlt_Qlt. eapply Qle_lt_trans; [apply Qfloor_le | exact Hx1]. }
  lia.
Qed.

(** For an attempt that does not enter the loop the draw is scaled to
    0..100. *)
Lemma backoff_current_first (attempt delay maxDelay : Z) :
  attempt <= 1 -> backoff_current attempt delay maxDelay = 1.
Proof.
  intros H. unfold backoff_current.
  destruct (Z.gtb_spec attempt 1); [lia | reflexivity].
Qed.

(** C5, as the source has it. For every attempt [a], bounds [min] and
    [max] and draw [r] of the random source in [0, 1): the delay is at
    least [min] and at most the jitter ceiling [min + current * 100]; the
    ceiling is non-decreasing in the attempt; from the first attempt
    [a >= 3] whose ceiling is over [max] the ceiling stays the same for
    every later attempt (the test against [max] is made inside the loop,
    which attempts 1 and 2 do not enter); and for an attempt [a <= 1] the
    ceiling is [min + 100] and the delay lies between [min] and
    [min + 100]. Which value of that range a draw gives is not stated:
    the source multiplies the draw in binary64. *)
Theorem backoffInterval_bounds_and_growth :
  forall (r : Q) (a b min max : Z),
    (0 <= r)%Q -> (r < 1)%Q ->
    min <= backoffInterval r a min max <= backoff_ceiling a min max
    /\ (a <= b -> backoff_ceiling a min max <= backoff_ceiling b min max)
    /\ (3 <= a -> a <= b -> backoff_ceiling a min max > max ->
        backoff_ceiling b min max = backoff_ceiling a min max)
    /\ (a <= 1 ->
        backoff_ceiling a min max = min + 100
        /\ min <= backoffInterval r a min max <= min + 100).
Proof.
  intros r a b min max Hr0 Hr1.
  pose proof (backoff_current_positive min max a) as Hpos.
  assert (Hrange : 0 <= randomInterval r (backoff_current a min max * 100) 0
                   <= backoff_current a min max * 100)
    by (apply randomInterval_range; [assumption | assumption | lia]).
  unfold backoffInterval, backoff_ceiling.
  split; [lia|]. split; [|split].
  - intros Hab. pose proof (backoff_current_mono min max a b Hab). lia.
  - intros Ha Hab Hover.
    rewrite (backoff_current_stable min max a b Ha Hab); [reflexivity | lia].
  - intros Ha. rewrite (backoff_current_first a min max Ha) in *.
    split; [reflexivity | lia].
Qed.

(** The theorem at draw 1/2, attempts 3 and 5 with bounds 1000 and 1100,
    and at attempt 1. *)
Lemma backoffInterval_bounds_and_growth_witness :
  1000 <= backoffInterval (1 # 2) 3 1000 1100 <= backoff_ceiling 3 1000 1100
  /\ backoff_ceiling 5 1000 1100 = backoff_ceiling 3 1000 1100
  /\ 1000 <= backoffInterval (1 # 2) 1 1000 1100 <= 1000 + 100.
Proof.
  assert (H0 : (0 <= 1 # 2)%Q) by (unfold Qle; simpl; lia).
  assert (H1 : (1 # 2 < 1)%Q) by (unfold Qlt; simpl; lia).
  split; [|split].
  - exact (proj1 (backoffInterval_bounds_and_growth (1 # 2) 3 5 1000 1100 H0 H1)).
  - apply (proj1 (proj2 (proj2
             (backoffInterval_bounds_and_growth (1 # 2) 3 5 1000 1100 H0 H1)))).
    + lia.
    + lia.
    + vm_compute. reflexivity.
  - refine (proj2 (proj2 (proj2 (proj2
              (backoffInterval_bounds_and_growth (1 # 2) 1 1 1000 1100 H0 H1)))
              _)).
    lia.
Defined.

(** C5 as stated fails: with [min = 1000 <= max = 1100] the ceiling of
    attempt 2 is already over [max], and yet attempt 3 has a larger one. *)
Lemma backoff_ceiling_grows_past_max :
  1000 <= 1100
  /\ backoff_ceiling 2 1000 1100 = 1200
  /\ 1200 > 1100
  /\ backoff_ceiling 3 1000 1100 = 1300.
Proof.
  split; [lia|]. split; [reflexivity|]. split; [lia | reflexivity].
Qed.

(** ** The decoder *)

Section StringFacts.

Lemma split_lf_not_nil (s : jsstring) : split_lf s <> [].
Proof.
  destruct s as [|c s]; simpl; [discriminate|].
  destruct (c =? LF)%N; [discriminate|].
  destruct (split_lf s); discriminate.
Qed.

(** A line feed between two texts separates their lines. *)
Lemma split_lf_app_lf (a b : jsstring) :
  split_lf (a ++ LF :: b) = split_lf a ++ split_lf b.
Proof.
  induction a as [|c a IH]; simpl.
  - reflexivity.
  - destruct (c =? LF)%N.
    + rewrite IH. reflexivity.
    + rewrite IH. pose proof (split_lf_not_nil a) as Hne.
      destruct (split_lf a) as [|p ps]; [contradiction|]. reflexivity.
Qed.

Lemma substr_app_length (a b : jsstring) :
  substr (a ++ b) (List.length a) = b.
Proof.
  unfold substr. rewrite skipn_app, skipn_all, Nat.sub_diag. reflexivity.
Qed.

Lemma starts_with_inv (p line : jsstring) :
  starts_with p line = true -> line = p ++ skipn (List.length p) line.
Proof.
  revert line. induction p as [|x p IH]; intros line H.
  - reflexivity.
  - destruct line as [|y line]; [discriminate|].
    simpl in H. apply andb_prop in H. destruct H as [Hxy Hrest].
    apply N.eqb_eq in Hxy. subst y. simpl. f_equal. apply IH, Hrest.
Qed.

End StringFacts.

(** What a [bind] computes, by projections. *)
Lemma bind_run {A B : Type} (m : M A) (f : A -> M B) (w : World) :
  bind m f w
  = (result_of (f (result_of (m w)) (world_of (m w))),
     world_of (f (result_of (m w)) (world_of (m w))),
     log_of (m w) ++ log_of (f (result_of (m w)) (world_of (m w)))).
Proof.
  unfold bind, result_of, world_of, log_of.
  destruct (m w) as [[a w1] l1]. simpl.
  destruct (f a w1) as [[b w2] l2]. reflexivity.
Qed.

(** The loop over two runs of lines is the loop over the first, then,
    unless it threw, over the second. *)
Lemma for_parts_app (ps qs : list jsstring) :
  forall (l : Locals) (w : World),
    for_parts (ps ++ qs) l w
    = (r <- for_parts ps l ;;
       match r with
       | (Normal, l') => for_parts qs l'
       | (ThrowReferenceError, l') => ret (ThrowReferenceError, l')
       end) w.
Proof.
  induction ps as [|p ps IH]; intros l w.
  - simpl. unfold bind, ret. simpl.
    destruct (for_parts qs l w) as [[a w'] lg]. reflexivity.
  - simpl. rewrite !bind_run.
    destruct (line_body p l w) as [[[c l'] w1] lg1].
    unfold result_of, world_of, log_of; simpl.
    destruct c.
    + rewrite IH. rewrite !bind_run.
      unfold result_of, world_of, log_of; simpl.
      destruct (for_parts ps l' w1) as [[[c2 l2] w2] lg2]. simpl.
      rewrite app_assoc. reflexivity.
    + unfold ret. simpl. rewrite !app_nil_r. reflexivity.
Qed.

(** C6. The body [data: hello], blank line, read in one call from an
    empty [cache], publishes one event, named [message], whose data is the
    string [hello]; the body [event: ping], [data: {"n":1}], blank line,
    publishes one event, named [ping], whose data is the object [{n: 1}]
    that [JSON.parse] built. In both the published object keeps the member
    [type: 'message'] that [MessageEvent] gave it, and carries the
    instance's [lastEventId] and address. The same events are what a
    client that has just opened publishes when the body arrives. *)
Theorem decode_publishes_the_frames_of_the_scenarios :
  forall (w : World) (o : Options) (ds : list Q) (g : Globals),
    let hello := js "data: hello" ++ [LF; LF] in
    let ping :=
      js "event: ping" ++ [LF] ++ js "data: {" ++ [DQUOTE] ++ js "n"
         ++ [DQUOTE] ++ js ":1}" ++ [LF; LF] in
    log_of (decode hello [] w)
    = [Emit (js "message")
         (PMessage (js "message") (JSON.JString (js "hello"))
            (lastEventId (self w)) (url (self w) ++ path (self w)))]
    /\ log_of (decode ping [] w)
       = [Emit (js "ping")
            (PMessage (js "message")
               (JSON.JObject [(js "n", JSON.JNumber 1)])
               (lastEventId (self w)) (url (self w) ++ path (self w)))]
    /\ frames (log_of (run [Call_open; Xhr_readystatechange 3 200 hello]
                         (new_World o ds g)))
       = [(js "message",
           PMessage (js "message") (JSON.JString (js "hello")) None
             (o_url o ++ match o_path o with Some p => p | None => [] end))]
    /\ frames (log_of (run [Call_open; Xhr_readystatechange 3 200 ping]
                         (new_World o ds g)))
       = [(js "ping",
           PMessage (js "message") (JSON.JObject [(js "n", JSON.JNumber 1)])
             None
             (o_url o ++ match o_path o with Some p => p | None => [] end))].
Proof.
  intros w o ds g hello ping. repeat split; vm_compute; reflexivity.
Qed.

(** *** Lines are classified by their first characters *)

Lemma line_body_event (part rest : jsstring) (l : Locals) (w : World) :
  trim part = js "event" ++ rest ->
  line_body part l w
  = ((Normal, {| data := data l; eventType := Some (drop_colon_ws rest) |}), w, []).
Proof. intros H. unfold line_body. rewrite H. reflexivity. Qed.

Lemma line_body_data (part rest : jsstring) (l : Locals) (w : World) :
  trim part = js "data" ++ rest ->
  line_body part l w
  = ((Normal, {| data := data l ++ [drop_colon_ws rest];
                 eventType := eventType l |}), w, []).
Proof. intros H. unfold line_body. rewrite H. reflexivity. Qed.

Lemma classify_id (c : N) (r : jsstring) :
  classify (js "id" ++ c :: r) = if (c =? COLON)%N then F_id_colon else F_id.
Proof.
  unfold classify, COLON.
  destruct (N.eqb_spec c 58) as [->|Hc]; [reflexivity|].
  assert (E : starts_with (js "id:") (js "id" ++ c :: r) = false).
  { change (starts_with (js "id:") (js "id" ++ c :: r)) with ((58 =? c)%N && true).
    rewrite andb_true_r. apply N.eqb_neq. congruence. }
  rewrite E. reflexivity.
Qed.

Lemma line_body_id (part rest : jsstring) (l : Locals) (w : World) :
  trim part = js "id" ++ rest ->
  line_body part l w
  = ((Normal, l),
     with_lastEventId
       (match rest with
        | c :: r => if (c =? COLON)%N then Some (drop_ws r) else None
        | [] => None
        end) w,
     []).
Proof.
  intros H. unfold line_body. rewrite H.
  destruct rest as [|c r]; [reflexivity|].
  rewrite classify_id.
  destruct (c =? COLON)%N eqn:E; [|reflexivity].
  apply N.eqb_eq in E. subst c. reflexivity.
Qed.

Lemma line_body_retry (part rest : jsstring) (l : Locals) (w : World) :
  trim part = js "retry" ++ rest ->
  line_body part l w = retry_outcome (parseInt (drop_colon_ws rest)) l w.
Proof.
  intros H. unfold line_body. rewrite H.
  change (classify (js "retry" ++ rest)) with F_retry.
  change (replace_field (js "retry") (js "retry" ++ rest))
    with (drop_colon_ws rest).
  generalize (parseInt (drop_colon_ws rest)) as n. intros n.
  unfold retry_outcome, bind, assign_retry, assign_interval, with_globals.
  destruct w as [e h]. destruct h as [ts nh ds g rt]. destruct g as [gr gi].
  simpl. destruct gr as [old|]; [|reflexivity].
  destruct n as [|z]; simpl; [reflexivity|].
  destruct gi as [old'|]; reflexivity.
Qed.

(** C10. A trimmed line is classified by the characters it starts with,
    whatever follows them, and is then never passed over as unknown: a
    line that starts with [data] adds to [data] what remains once
    [data:?\s*] is taken off its head (so [database: x] adds [base: x]);
    a line that starts with [event] sets [eventType] the same way; a line
    that starts with [retry] has what remains read by [parseInt] and
    assigned to [retry], and to [interval] when it is a number, an
    unbound identifier ending the line with a ReferenceError; a line that
    starts with [id] sets [lastEventId] when the next character is a
    colon, and resets it to [null] otherwise. For [retry] and [id] the
    outcome is also read field by field: the binding of [retry], the
    binding of [interval] and [lastEventId] hold the new value after the
    line, and nothing else of the client and of the host has changed. *)
Theorem line_body_goes_by_the_prefix :
  forall (part : jsstring) (l : Locals) (w : World),
    let line := trim part in
    (starts_with (js "data") line = true ->
     line_body part l w
     = ((Normal, {| data := data l ++ [drop_colon_ws (skipn 4 line)];
                    eventType := eventType l |}), w, []))
    /\ (starts_with (js "event") line = true ->
        line_body part l w
        = ((Normal, {| data := data l;
                       eventType := Some (drop_colon_ws (skipn 5 line)) |}),
           w, []))
    /\ (starts_with (js "retry") line = true ->
        line_body part l w
        = retry_outcome (parseInt (drop_colon_ws (skipn 5 line))) l w
        /\ snd (result_of (line_body part l w)) = l
        /\ log_of (line_body part l w) = []
        /\ self (world_of (line_body part l w)) = self w
        /\ same_but_globals (host w) (host (world_of (line_body part l w)))
        /\ match retry (globals (host w)) with
           | None =>
               fst (result_of (line_body part l w)) = ThrowReferenceError
               /\ globals (host (world_of (line_body part l w)))
                  = globals (host w)
           | Some _ =>
               retry (globals (host (world_of (line_body part l w))))
               = Some (parseInt (drop_colon_ws (skipn 5 line)))
               /\ if isNaN (parseInt (drop_colon_ws (skipn 5 line)))
                  then
                    fst (result_of (line_body part l w)) = Normal
                    /\ interval (globals (host (world_of (line_body part l w))))
                       = interval (globals (host w))
                  else
                    match interval (globals (host w)) with
                    | None =>
                        fst (result_of (line_body part l w))
                        = ThrowReferenceError
                        /\ interval
                             (globals (host (world_of (line_body part l w))))
                           = None
                    | Some _ =>
                        fst (result_of (line_body part l w)) = Normal
                        /\ interval
                             (globals (host (world_of (line_body part l w))))
                           = Some (parseInt (drop_colon_ws (skipn 5 line)))
                    end
           end)
    /\ (starts_with (js "id") line = true ->
        line_body part l w
        = ((Normal, l),
           with_lastEventId
             (if starts_with (js "id:") line
              then Some (drop_ws (skipn 3 line)) else None) w,
           [])
        /\ lastEventId (self (world_of (line_body part l w)))
           = (if starts_with (js "id:") line
              then Some (drop_ws (skipn 3 line)) else None)
        /\ same_but_lastEventId (self w) (self (world_of (line_body part l w)))
        /\ host (world_of (line_body part l w)) = host w)
    /\ line_body (js "database: x") l w
       = ((Normal, {| data := data l ++ [js "base: x"];
                      eventType := eventType l |}), w, []).
Proof.
  intros part l w line.
  assert (Hid : starts_with (js "id") line = true ->
                line_body part l w
                = ((Normal, l),
                   with_lastEventId
                     (if starts_with (js "id:") line
                      then Some (drop_ws (skipn 3 line)) else None) w,
                   [])).
  { intros H. apply starts_with_inv in H.
    rewrite (line_body_id part _ l w H). f_equal. f_equal.
    subst line. revert H. generalize (trim part) as t. intros t H.
    remember (skipn (List.length (js "id")) t) as rest eqn:E. clear E.
    subst t. destruct rest as [|c r]; [reflexivity|].
    change (starts_with (js "id:") (js "id" ++ c :: r))
      with ((58 =? c)%N && true).
    rewrite andb_true_r, N.eqb_sym. reflexivity. }
  split; [|split; [|split; [|split]]].
  - intros H. apply starts_with_inv in H. apply line_body_data, H.
  - intros H. apply starts_with_inv in H. apply line_body_event, H.
  - intros H. apply starts_with_inv in H.
    rewrite (line_body_retry part _ l w H).
    change (List.length (js "retry")) with 5%nat. clear H.
    generalize (parseInt (drop_colon_ws (skipn 5 line))) as n. intros n.
    split; [reflexivity|].
    unfold retry_outcome, same_but_globals.
    destruct (retry (globals (host w))) as [old|].
    + destruct (isNaN n).
      * repeat split.
      * destruct (interval (globals (host w))) as [old'|]; repeat split.
    + repeat split.
  - intros H. rewrite (Hid H). unfold same_but_lastEventId. repeat split.
  - reflexivity.
Qed.

(** The theorem on the lines [eventual] and [idle] of a fresh client, and
    on the lines [idle], [id: 8] and [retry: 5] of a client that holds
    the id 7, on a host that binds [retry] and [interval]. *)
Lemma line_body_goes_by_the_prefix_witness :
  line_body (js "  eventual") no_locals example_World
  = ((Normal, {| data := []; eventType := Some (js "ual") |}), example_World, [])
  /\ line_body (js "idle") no_locals example_World
     = ((Normal, no_locals), with_lastEventId None example_World, [])
  /\ lastEventId (self holding_World) = Some (js "7")
  /\ lastEventId (self (world_of (line_body (js "idle") no_locals
                                    holding_World)))
     = None
  /\ lastEventId (self (world_of (line_body (js "id: 8") no_locals
                                    holding_World)))
     = Some (js "8")
  /\ retry (globals (host (world_of (line_body (js "retry: 5") no_locals
                                       holding_World))))
     = Some (Num 5)
  /\ interval (globals (host (world_of (line_body (js "retry: 5") no_locals
                                          holding_World))))
     = Some (Num 5).
Proof.
  split; [|split; [|split; [|split; [|split; [|split]]]]].
  - exact (proj1 (proj2 (line_body_goes_by_the_prefix
                           (js "  eventual") no_locals example_World))
             eq_refl).
  - exact (proj1 (proj1 (proj2 (proj2 (proj2 (line_body_goes_by_the_prefix
                           (js "idle") no_locals example_World))))
             eq_refl)).
  - reflexivity.
  - exact (proj1 (proj2 (proj1 (proj2 (proj2 (proj2
             (line_body_goes_by_the_prefix
                (js "idle") no_locals holding_World))))
             eq_refl))).
  - exact (proj1 (proj2 (proj1 (proj2 (proj2 (proj2
             (line_body_goes_by_the_prefix
                (js "id: 8") no_locals holding_World))))
             eq_refl))).
  - exact (proj1 (proj2 (proj2 (proj2 (proj2 (proj2
             (proj1 (proj2 (proj2 (line_body_goes_by_the_prefix
                (js "retry: 5") no_locals holding_World)))
                eq_refl))))))).
  - exact (proj2 (proj2 (proj2 (proj2 (proj2 (proj2 (proj2
             (proj1 (proj2 (proj2 (line_body_goes_by_the_prefix
                (js "retry: 5") no_locals holding_World)))
                eq_refl)))))))).
Defined.

(** *** A text that arrives in chunks *)

(** [cache] is the text of the call that ended. *)
Lemma decode_cache (text cache : jsstring) (w : World) :
  snd (result_of (decode text cache w)) = text.
Proof.
  unfold decode. rewrite bind_run. reflexivity.
Qed.

(** C1, as the source has it. Every call moves [cache] to the end of the
    text it was given, an unfinished last line included: that line is
    read at once and never again. When the first chunk ends with a line
    feed and the lines before it leave the loop with no exception, no
    data line and no event name pending, the two calls do exactly what
    the single call on the whole text does: same events in the same
    order, same [lastEventId], same [cache]. *)
Theorem decode_chunked_at_a_frame_boundary :
  forall (body chunk2 : jsstring) (w : World),
    result_of (for_parts (split_lf body) no_locals w) = (Normal, no_locals) ->
    decode_chunked (body ++ [LF]) chunk2 w
    = decode_whole (body ++ [LF]) chunk2 w
    /\ snd (result_of (decode (body ++ [LF]) [] w)) = body ++ [LF]
    /\ snd (result_of (decode_chunked (body ++ [LF]) chunk2 w))
       = (body ++ [LF]) ++ chunk2.
Proof.
  intros body chunk2 w H.
  split; [|split].
  - unfold decode_chunked, decode_whole, decode.
    change (substr ((body ++ [LF]) ++ chunk2) (List.length (@nil N)))
      with ((body ++ [LF]) ++ chunk2).
    change (substr (body ++ [LF]) (List.length (@nil N))) with (body ++ [LF]).
    rewrite <- !app_assoc. simpl app.
    rewrite !split_lf_app_lf.
    change (split_lf []) with [@nil N].
    rewrite !bind_run. unfold result_of, world_of, log_of. simpl.
    rewrite !for_parts_app. rewrite !bind_run.
    unfold result_of, world_of, log_of in *.
    destruct (for_parts (split_lf body) no_locals w) as [[[c l1] w1] lg1].
    simpl in H. injection H as -> ->. simpl.
    replace (substr (body ++ LF :: chunk2) (List.length (body ++ [LF])))
      with chunk2
      by (rewrite <- (substr_app_length (body ++ [LF]) chunk2) at 1;
          rewrite <- app_assoc; reflexivity).
    rewrite !app_nil_r. reflexivity.
  - apply decode_cache.
  - unfold decode_chunked. rewrite bind_run. unfold result_of at 1. simpl.
    apply decode_cache.
Qed.

(** The theorem on two frames that arrive one per chunk. *)
Lemma decode_chunked_at_a_frame_boundary_witness :
  decode_chunked ((js "data: a" ++ [LF]) ++ [LF]) (js "data: b" ++ [LF; LF])
    example_World
  = decode_whole ((js "data: a" ++ [LF]) ++ [LF]) (js "data: b" ++ [LF; LF])
      example_World.
Proof.
  exact (proj1 (decode_chunked_at_a_frame_boundary
                  (js "data: a" ++ [LF]) (js "data: b" ++ [LF; LF])
                  example_World eq_refl)).
Defined.

(** C1 as stated fails: when the text [data: hello], blank line, arrives
    cut after [data: hel], the single call publishes the frame and the two
    calls publish nothing; the first of them has moved [cache] past the
    unfinished line. *)
Lemma decode_chunked_loses_a_cut_line :
  frames (log_of (decode_whole (js "data: hel") (js "lo" ++ [LF; LF])
                    example_World))
  = [(js "message",
      PMessage (js "message") (JSON.JString (js "hello")) None
        (js "http://example.org/stream"))]
  /\ frames (log_of (decode_chunked (js "data: hel") (js "lo" ++ [LF; LF])
                       example_World))
     = []
  /\ snd (result_of (decode (js "data: hel") [] example_World))
     = js "data: hel".
Proof.
  repeat split; vm_compute; reflexivity.
Qed.

(** A cut at the end of a line, inside a frame, is not harmless either:
    the blank part that follows the last line feed of the first chunk
    closes the frame early, and the two data lines are published as two
    frames. *)
Lemma decode_chunked_cuts_a_frame_in_two :
  List.map fst
    (frames (log_of (decode_whole (js "data: a" ++ [LF])
                       (js "data: b" ++ [LF; LF]) example_World)))
  = [js "message"]
  /\ List.map fst
       (frames (log_of (decode_chunked (js "data: a" ++ [LF])
                          (js "data: b" ++ [LF; LF]) example_World)))
     = [js "message"; js "message"].
Proof.
  split; vm_compute; reflexivity.
Qed.

(** ** The connection state machine *)

(** *** What the methods compute *)

Ltac destruct_world w :=
  let e := fresh "e" in
  let h := fresh "h" in
  destruct w as [e h];
  destruct e as [ri mx mn ma rn rs codes u p st lei pt xh att];
  simpl in *.

Lemma _setReadyState_run (state : ReadyState) (w : World) :
  _setReadyState state w = (tt, in_state state w, state_log state w).
Proof.
  unfold _setReadyState, in_state, state_log, bind, this_.
  destruct (readyState_is (readyState (self w)) state); reflexivity.
Qed.

Lemma close_run (error : bool) (w : World) :
  close error w
  = if readyState_is (readyState (self w)) CLOSED then (tt, w, [])
    else (tt, closed w, close_log error w).
Proof.
  unfold close, bind, this_.
  destruct (readyState_is (readyState (self w)) CLOSED) eqn:E; [reflexivity|].
  rewrite _setReadyState_run. unfold in_state, state_log. rewrite E.
  unfold closed, close_log. destruct_world w.
  destruct xh; reflexivity.
Qed.

Lemma _retry_run (w : World) :
  _retry w = (tt, retried w, [SetTimeout (next_handle (host w)) (retry_delay w)]).
Proof. destruct_world w. reflexivity. Qed.

Lemma remove_timer_not_pending (handle : nat) (h : Host) :
  timer_pending handle (drop_timer (Some handle) h) = false.
Proof.
  unfold timer_pending, drop_timer. simpl.
  induction (timers h) as [|t ts IH]; simpl; [reflexivity|].
  destruct (Nat.eqb (fst t) handle) eqn:E; simpl; [exact IH|].
  rewrite E. exact IH.
Qed.

Lemma readyState_is_false (r : option ReadyState) (s : ReadyState) :
  r <> Some s -> readyState_is r s = false.
Proof.
  destruct r as [[| |]|]; destruct s; simpl; intros H;
    try reflexivity; exfalso; apply H; reflexivity.
Qed.

Lemma readyState_is_true (r : option ReadyState) (s : ReadyState) :
  readyState_is r s = true <-> r = Some s.
Proof.
  destruct r as [[| |]|]; destruct s; simpl; split; intros H;
    try reflexivity; try discriminate.
Qed.

(** The readystatechange an aborted or failed request fires, readyState 4
    with status 0, finds a handler that does nothing. *)
Lemma onreadystatechange_status_0 (w : World) (x : Xhr) :
  _xhr (self w) = Some x -> xhr_readyState x = 4 -> status x = 0 ->
  onreadystatechange w = (Normal, w, []).
Proof.
  intros Hx Hrs Hst. unfold onreadystatechange, bind, this_.
  rewrite Hx, Hrs, Hst. reflexivity.
Qed.

(** C7. [close(error)] on a client that is not CLOSED: the state becomes
    CLOSED, the timer [_pollTimer] held is cleared and is no longer
    pending, [_pollTimer] is [null], the request [_xhr] holds, if any, is
    aborted, [_attempts] is 0, and one "close" event is published, with
    the flag [error]. On a client that is CLOSED nothing changes and
    nothing is published. *)
Theorem close_quiesces_the_client :
  forall (w : World) (error : bool),
    (readyState (self w) <> Some CLOSED ->
     close error w = (tt, closed w, close_log error w)
     /\ readyState (self (closed w)) = Some CLOSED
     /\ _attempts (self (closed w)) = 0
     /\ _pollTimer (self (closed w)) = None
     /\ (forall handle, _pollTimer (self w) = Some handle ->
         timer_pending handle (host (closed w)) = false)
     /\ (forall x, _xhr (self w) = Some x ->
         In XhrAbort (close_log error w)
         /\ _xhr (self (closed w)) = Some (aborted x))
     /\ published types.ON_CLOSE (close_log error w) = [PClose error])
    /\ (readyState (self w) = Some CLOSED -> close error w = (tt, w, [])).
Proof.
  intros w error. split.
  - intros H. rewrite close_run, (readyState_is_false _ _ H).
    split; [reflexivity|]. split; [reflexivity|]. split; [reflexivity|].
    split; [reflexivity|]. split; [|split].
    + intros handle Hh. unfold closed. simpl. rewrite Hh.
      apply remove_timer_not_pending.
    + intros x Hx. unfold close_log, closed. simpl. rewrite Hx. simpl.
      split; [right; right; left; reflexivity | reflexivity].
    + unfold close_log. destruct (_xhr (self w)); reflexivity.
  - intros H. rewrite close_run. rewrite H. reflexivity.
Qed.


(** The theorem on a client whose request is on its way, and on the same
    client once closed. *)
Lemma close_quiesces_the_client_witness :
  close false connecting_World
  = (tt, closed connecting_World, close_log false connecting_World)
  /\ close true (closed connecting_World) = (tt, closed connecting_World, []).
Proof.
  split.
  - apply (proj1 (close_quiesces_the_client connecting_World false)).
    vm_compute. discriminate.
  - apply (proj2 (close_quiesces_the_client (closed connecting_World) true)).
    vm_compute. reflexivity.
Defined.

Lemma in_state_readyState (state : ReadyState) (w : World) :
  readyState (self (in_state state w)) = Some state.
Proof.
  unfold in_state.
  destruct (readyState_is (readyState (self w)) state) eqn:E.
  - apply readyState_is_true, E.
  - reflexivity.
Qed.

Lemma in_state_host (state : ReadyState) (w : World) :
  host (in_state state w) = host w.
Proof.
  unfold in_state. destruct (readyState_is (readyState (self w)) state); reflexivity.
Qed.

Lemma _poll_run (w : World) :
  request_throws (host w) = false ->
  _poll w
  = if readyState_is (readyState (self w)) CLOSED then (tt, w, [])
    else (tt, with_self (set_xhr (Some sent_Xhr)) w,
          [XhrSend (lastEventId_header (self w))]).
Proof.
  intros H. unfold _poll, bind, this_.
  destruct (readyState_is (readyState (self w)) CLOSED); [reflexivity|].
  rewrite H. reflexivity.
Qed.

Lemma open_idle (w : World) :
  request_active (self w) || timer_set (self w) = false ->
  open w = (_setReadyState CONNECTING ;; _poll) w.
Proof.
  intros H. apply orb_false_elim in H. destruct H as [Ha Ht].
  unfold request_active, timer_set in *.
  unfold open. unfold bind at 1. unfold this_.
  destruct (_xhr (self w)) as [x|]; destruct (_pollTimer (self w));
    simpl in *; try discriminate.
  - apply negb_false_iff in Ha. rewrite Ha. simpl.
    destruct ((_setReadyState CONNECTING;; _poll) w) as [[a w'] lg]. reflexivity.
  - destruct ((_setReadyState CONNECTING;; _poll) w) as [[a w'] lg]. reflexivity.
Qed.

Lemma open_busy (w : World) :
  request_active (self w) || timer_set (self w) = true ->
  open w = (tt, w, []).
Proof.
  intros H. unfold open, bind, this_. unfold request_active, timer_set in H.
  destruct (_xhr (self w)) as [x|]; destruct (_pollTimer (self w)); simpl in *;
    try discriminate; try reflexivity.
  - rewrite andb_false_r. reflexivity.
  - rewrite orb_false_r in H. apply negb_true_iff in H. rewrite H. reflexivity.
Qed.

Lemma open_run (w : World) :
  request_throws (host w) = false ->
  open w
  = if request_active (self w) || timer_set (self w) then (tt, w, [])
    else (tt, with_self (set_xhr (Some sent_Xhr)) (in_state CONNECTING w),
          state_log CONNECTING w ++ [XhrSend (lastEventId_header (self w))]).
Proof.
  intros H.
  destruct (request_active (self w) || timer_set (self w)) eqn:E.
  - apply open_busy, E.
  - rewrite (open_idle w E). rewrite bind_run, _setReadyState_run.
    unfold result_of, world_of, log_of. simpl.
    rewrite _poll_run by (rewrite in_state_host; exact H).
    rewrite in_state_readyState. simpl.
    unfold in_state. destruct (readyState_is (readyState (self w)) CONNECTING);
      reflexivity.
Qed.

Lemma bind_this {B : Type} (f : EventSource -> M B) (w : World) :
  bind this_ f w = f (self w) w.
Proof.
  unfold bind, this_. destruct (f (self w) w) as [[b w'] lg]. reflexivity.
Qed.

Lemma onerror_run (w : World) (x : Xhr) :
  _xhr (self w) = Some x -> status x = 0 ->
  onerror w
  = ((if _attempts (self w) =? 0
      then _emitError 0 (Some (responseText x)) else ret tt) ;;
     if RETRY_ON_NETWORK_ERROR (self w) && below_ceiling (self w)
     then _setReadyState CONNECTING ;; _retry
     else close true) w.
Proof.
  intros Hx Hs. unfold onerror. rewrite bind_this, Hx, Hs. reflexivity.
Qed.

Lemma published_app (name : jsstring) (l1 l2 : list Effect) :
  published name (l1 ++ l2) = published name l1 ++ published name l2.
Proof.
  induction l1 as [|e l1 IH]; simpl; [reflexivity|].
  destruct e; try exact IH.
  destruct (JS.eqb name0 name); simpl; rewrite IH; reflexivity.
Qed.

Lemma close_log_no_error (error : bool) (w : World) :
  published types.ON_ERROR (close_log error w) = [].
Proof. unfold close_log. destruct (_xhr (self w)); reflexivity. Qed.

Lemma state_log_no_error (state : ReadyState) (w : World) :
  published types.ON_ERROR (state_log state w) = [].
Proof.
  unfold state_log. destruct (readyState_is (readyState (self w)) state); reflexivity.
Qed.

(** C9. When the request fails with status 0, [xhr.onerror] publishes an
    "error" event if and only if [_attempts] is 0, and then exactly one,
    with status 0. *)
Theorem onerror_publishes_error_on_the_first_attempt_only :
  forall (w : World) (x : Xhr),
    _xhr (self w) = Some x -> status x = 0 ->
    published types.ON_ERROR (log_of (onerror w))
    = (if _attempts (self w) =? 0
       then [PError 0 (Some (responseText x)) (JSON.JObject [])]
       else [])
    /\ (published types.ON_ERROR (log_of (onerror w)) <> []
        <-> _attempts (self w) = 0).
Proof.
  intros w x Hx Hs.
  assert (H : published types.ON_ERROR (log_of (onerror w))
              = (if _attempts (self w) =? 0
                 then [PError 0 (Some (responseText x)) (JSON.JObject [])]
                 else [])).
  { rewrite (onerror_run w x Hx Hs). rewrite bind_run.
    unfold log_of at 1. simpl. rewrite published_app.
    assert (Hrest : forall w',
               published types.ON_ERROR
                 (log_of ((if RETRY_ON_NETWORK_ERROR (self w) && below_ceiling (self w)
                           then _setReadyState CONNECTING ;; _retry
                           else close true) w')) = []).
    { intros w'.
      destruct (RETRY_ON_NETWORK_ERROR (self w) && below_ceiling (self w)).
      - rewrite bind_run, _setReadyState_run, _retry_run.
        unfold log_of, world_of. simpl. rewrite published_app, state_log_no_error.
        reflexivity.
      - rewrite close_run.
        destruct (readyState_is (readyState (self w')) CLOSED); [reflexivity|].
        apply close_log_no_error. }
    rewrite Hrest, app_nil_r.
    destruct (_attempts (self w) =? 0); reflexivity. }
  split; [exact H|]. rewrite H.
  destruct (Z.eqb_spec (_attempts (self w)) 0); split; intros; try congruence; try lia.
Qed.


(** The theorem on the first failure of a client that has just opened. *)
Lemma onerror_publishes_error_on_the_first_attempt_only_witness :
  published types.ON_ERROR (log_of (onerror failed_World))
  = [PError 0 (Some []) (JSON.JObject [])].
Proof.
  exact (proj1 (onerror_publishes_error_on_the_first_attempt_only
                  failed_World
                  {| xhr_readyState := 4; status := 0; responseText := [];
                     cache := [] |}
                  eq_refl eq_refl)).
Defined.

(** *** Retrying after a failure of the transport *)

Lemma or_bool_true (x : option bool) : or_bool x true = true.
Proof. destruct x as [[|]|]; reflexivity. Qed.

(** C2, on the source. The constructor reads the option as
    [retryOnNetworkError || true]: with [retryOnNetworkError: false] the
    field is [true] all the same, and the first failure of the transport
    schedules a retry, counts an attempt and leaves the client
    CONNECTING; nothing is closed. *)
Theorem retryOnNetworkError_false_still_retries :
  forall (u : jsstring) (ds : list Q) (g : Globals),
    let r := run (Call_open :: network_failure)
               (new_World (no_network_retry_Options u) ds g) in
    (forall o : Options, RETRY_ON_NETWORK_ERROR (new_EventSource o) = true)
    /\ retryOnNetworkError (no_network_retry_Options u) = Some false
    /\ scheduled (log_of r) = [backoffInterval (next_draw (new_Host ds g)) 1 1000 15000]
    /\ _attempts (self (world_of r)) = 1
    /\ readyState (self (world_of r)) = Some CONNECTING
    /\ published types.ON_CLOSE (log_of r) = [].
Proof.
  intros u ds g r. subst r.
  split; [intros o; apply or_bool_true|]. repeat split; reflexivity.
Qed.

(** C4. With [retryOnNetworkError: true] and [maxAttempts: 3], whatever
    the other options, the draws and the host: three failures of the
    transport schedule three retries, each followed by a new request, and
    bring [_attempts] to 3; the fourth failure schedules nothing, sends
    nothing, and closes the client with the error flag set. *)
Theorem three_retries_then_closed :
  forall (o : Options) (ds : list Q) (g : Globals),
    let before := run three_failed_attempts
                    (new_World (three_attempts_Options o) ds g) in
    let last := run network_failure (world_of before) in
    List.length (scheduled (log_of before)) = 3%nat
    /\ requests (log_of before) = 4%nat
    /\ _attempts (self (world_of before)) = 3
    /\ readyState (self (world_of before)) = Some CONNECTING
    /\ published types.ON_CLOSE (log_of before) = []
    /\ scheduled (log_of last) = []
    /\ requests (log_of last) = 0%nat
    /\ readyState (self (world_of last)) = Some CLOSED
    /\ published types.ON_CLOSE (log_of last) = [PClose true].
Proof.
  intros o ds g before last. subst before last. repeat split; reflexivity.
Qed.

(** *** The field [retry] and the reconnection after the server closed *)

Lemma line_body_frame (part : jsstring) (l : Locals) (w : World) :
  outside_decoder (world_of (line_body part l w)) = outside_decoder w
  /\ scheduled (log_of (line_body part l w)) = []
  /\ requests (log_of (line_body part l w)) = 0%nat.
Proof.
  unfold line_body.
  destruct w as [e h]. destruct h as [ts nh ds [gr gi] rt].
  destruct (classify (trim part)); try (repeat split; fail).
  - generalize (parseInt (replace_field (js "retry") (trim part))) as n.
    intros n. destruct gr as [r0|]; [|repeat split].
    destruct n as [|z]; [repeat split|].
    destruct gi as [i0|]; repeat split.
  - destruct (data l); repeat split.
Qed.

Lemma scheduled_app (l1 l2 : list Effect) :
  scheduled (l1 ++ l2) = scheduled l1 ++ scheduled l2.
Proof.
  induction l1 as [|e l1 IH]; simpl; [reflexivity|].
  destruct e; simpl; rewrite ?IH; reflexivity.
Qed.

Lemma requests_app (l1 l2 : list Effect) :
  requests (l1 ++ l2) = (requests l1 + requests l2)%nat.
Proof.
  induction l1 as [|e l1 IH]; simpl; [reflexivity|].
  destruct e; simpl; rewrite ?IH; reflexivity.
Qed.

Lemma for_parts_frame (parts : list jsstring) :
  forall (l : Locals) (w : World),
    outside_decoder (world_of (for_parts parts l w)) = outside_decoder w
    /\ scheduled (log_of (for_parts parts l w)) = []
    /\ requests (log_of (for_parts parts l w)) = 0%nat.
Proof.
  induction parts as [|part rest IH]; intros l w.
  - repeat split.
  - simpl for_parts. rewrite bind_run.
    destruct (line_body_frame part l w) as (Hw & Hs & Hr).
    destruct (line_body part l w) as [[[c l'] w1] lg1].
    unfold result_of, world_of, log_of in *. simpl in *.
    rewrite scheduled_app, requests_app, Hs, Hr.
    destruct c.
    + destruct (IH l' w1) as (Hw' & Hs' & Hr').
      unfold world_of, log_of in *.
      rewrite Hw', Hw, Hs', Hr'. repeat split.
    + simpl. rewrite Hw. repeat split.
Qed.

Lemma decode_frame (text cache : jsstring) (w : World) :
  outside_decoder (world_of (decode text cache w)) = outside_decoder w
  /\ scheduled (log_of (decode text cache w)) = []
  /\ requests (log_of (decode text cache w)) = 0%nat.
Proof.
  unfold decode. rewrite bind_run.
  destruct (for_parts_frame (split_lf (substr text (List.length cache)))
              no_locals w) as (Hw & Hs & Hr).
  unfold result_of, world_of, log_of in *. simpl.
  rewrite app_nil_r. repeat split; assumption.
Qed.

(** The settings and the host's draws, read off what the decoder cannot
    touch. *)
Lemma outside_decoder_settings (w w' : World) :
  outside_decoder w' = outside_decoder w ->
  RECONNECT_INTERVAL (self w') = RECONNECT_INTERVAL (self w)
  /\ MIN_INTERVAL (self w') = MIN_INTERVAL (self w)
  /\ MAX_INTERVAL (self w') = MAX_INTERVAL (self w)
  /\ next_draw (host w') = next_draw (host w)
  /\ next_handle (host w') = next_handle (host w).
Proof.
  unfold outside_decoder. intros H.
  pose proof (f_equal fst H) as He. pose proof (f_equal snd H) as Hh.
  simpl in He, Hh. repeat split.
  - exact (f_equal RECONNECT_INTERVAL He).
  - exact (f_equal MIN_INTERVAL He).
  - exact (f_equal MAX_INTERVAL He).
  - exact (f_equal next_draw Hh).
  - exact (f_equal next_handle Hh).
Qed.

(** Whatever the stream held, the reconnection after the server closed
    the response waits [randomInterval(RECONNECT_INTERVAL, 100)], the
    setting of the constructor, or is not scheduled at all when the
    decoder threw; [RECONNECT_INTERVAL], [MIN_INTERVAL] and
    [MAX_INTERVAL] are what they were. *)
Lemma peer_close_delay_comes_from_the_settings :
  forall (w : World) (x : Xhr),
    _xhr (self w) = Some x -> xhr_readyState x = 4 -> status x = 200 ->
    let r := onreadystatechange w in
    scheduled (log_of r)
    = match result_of r with
      | Normal => [randomInterval (next_draw (host w)) (RECONNECT_INTERVAL (self w)) 100]
      | ThrowReferenceError => []
      end
    /\ RECONNECT_INTERVAL (self (world_of r)) = RECONNECT_INTERVAL (self w)
    /\ MIN_INTERVAL (self (world_of r)) = MIN_INTERVAL (self w)
    /\ MAX_INTERVAL (self (world_of r)) = MAX_INTERVAL (self w).
Proof.
  intros w x Hx Hrs Hst r. subst r.
  unfold onreadystatechange. rewrite bind_this, Hx, Hrs, Hst. simpl.
  rewrite bind_run. 
  set (opening := (if readyState_is (readyState (self w)) CONNECTING && true
         then _setReadyState OPEN;; emit types.ON_OPEN (POpen (url (self w)));;
              update (set_attempts 0)
         else ret tt) w).
  assert (Hopen :
            outside_decoder (world_of opening)
            = outside_decoder
                (with_self (set_attempts (_attempts (self (world_of opening))))
                   (with_self
                      (set_readyState (readyState (self (world_of opening))))
                      w))
                  /\ scheduled (log_of opening) = []).
  { subst opening.
    destruct (readyState_is (readyState (self w)) CONNECTING && true).
    - rewrite bind_run, _setReadyState_run. unfold in_state, state_log.
      destruct (readyState_is (readyState (self w)) OPEN); split; reflexivity.
    - split; reflexivity. }
  destruct Hopen as [Hw0 Hs0].
  destruct (outside_decoder_settings _ _ Hw0) as (H1 & H2 & H3 & H4 & H5).
  simpl in H1, H2, H3, H4, H5.
  cbv beta. rewrite bind_run.
  destruct (decode_frame (responseText x) (cache x) (world_of opening))
    as (Hw1 & Hs1 & Hr1).
  destruct (outside_decoder_settings _ _ Hw1) as (K1 & K2 & K3 & K4 & K5).
  destruct (decode (responseText x) (cache x) (world_of opening))
    as [[[c newcache] w1] lg1].
  unfold result_of, world_of, log_of in *. simpl in *.
  rewrite !scheduled_app, Hs0, Hs1. simpl.
  destruct c; simpl.
  - rewrite K1, K4, H1, H4, K2, K3, H2, H3. repeat split.
  - rewrite K1, H1, K2, K3, H2, H3. repeat split.
Qed.

(** C3, on the source. A client with the default settings reads the line
    [retry: 5000] while the response is open, then the server closes the
    response. On a host that binds [retry] and [interval] the line is
    read and both identifiers hold 5000, but the reconnection waits
    [randomInterval(1000, 100)], at most 1000 whatever the draw. On a host
    that binds neither, the handler that reads the line throws a
    ReferenceError; the reconnection still waits
    [randomInterval(1000, 100)], and when the line arrives with the end of
    the response the exception leaves no reconnection and no "timeout"
    event at all. *)
Theorem retry_field_never_reaches_the_reconnect_delay :
  forall (u : jsstring) (ds : list Q),
    let text := js "retry: 5000" ++ [LF] in
    let streamed :=
      [Call_open; Xhr_readystatechange 3 200 text;
       Xhr_readystatechange 4 200 text] in
    let at_once := [Call_open; Xhr_readystatechange 4 200 text] in
    let declared := new_World (default_Options u) ds declared_globals in
    let undeclared := new_World (default_Options u) ds no_globals in
    scheduled (log_of (run streamed declared))
    = [randomInterval (next_draw (host declared)) 1000 100]
    /\ globals (host (world_of (run streamed declared)))
        = {| retry := Some (Num 5000); interval := Some (Num 5000) |}
    /\ RECONNECT_INTERVAL (self (world_of (run streamed declared))) = 1000
    /\ result_of (step (Xhr_readystatechange 3 200 text)
                     (world_of (run [Call_open] undeclared)))
        = ThrowReferenceError
    /\ scheduled (log_of (run streamed undeclared))
        = [randomInterval (next_draw (host undeclared)) 1000 100]
    /\ scheduled (log_of (run at_once undeclared)) = []
    /\ published types.ON_TIMEOUT (log_of (run at_once undeclared)) = []
    /\ randomInterval (999 # 1000) 1000 100 = 1000.
Proof.
  intros u ds text streamed at_once declared undeclared.
  subst text streamed at_once declared undeclared.
  repeat split; reflexivity.
Qed.

(** *** A client that is CONNECTING or OPEN is busy *)

(** The world and the result of a [bind]. *)
Lemma world_bind {A B : Type} (m : M A) (f : A -> M B) (w : World) :
  world_of (bind m f w) = world_of (f (result_of (m w)) (world_of (m w))).
Proof. rewrite bind_run. reflexivity. Qed.

Lemma result_bind {A B : Type} (m : M A) (f : A -> M B) (w : World) :
  result_of (bind m f w) = result_of (f (result_of (m w)) (world_of (m w))).
Proof. rewrite bind_run. reflexivity. Qed.

(** The worlds the methods end in are steady. *)
Lemma steady_closed (w : World) : steady (closed w).
Proof. intros F. discriminate F. Qed.

Lemma steady_retried (w : World) : steady (retried w).
Proof. intros _. unfold busy. apply orb_true_r. Qed.

Lemma steady_sent (w : World) : steady (with_self (set_xhr (Some sent_Xhr)) w).
Proof. intros _. reflexivity. Qed.

(** [close] leaves a steady client, whatever it found. *)
Lemma steady_close (error : bool) (w : World) :
  steady (world_of (close error w)).
Proof.
  rewrite close_run.
  destruct (readyState_is (readyState (self w)) CLOSED) eqn:E.
  - apply readyState_is_true in E.
    change (world_of (tt, w, @nil Effect)) with w.
    unfold steady, live. rewrite E. discriminate.
  - apply steady_closed.
Qed.

Lemma _poll_world (w : World) :
  world_of (_poll w)
  = if readyState_is (readyState (self w)) CLOSED then w
    else if request_throws (host w) then world_of (close true w)
    else with_self (set_xhr (Some sent_Xhr)) w.
Proof.
  unfold _poll. rewrite bind_this.
  destruct (readyState_is (readyState (self w)) CLOSED); [reflexivity|].
  destruct (request_throws (host w)); [|reflexivity].
  rewrite world_bind. reflexivity.
Qed.

Lemma steady_poll (w : World) : steady w -> steady (world_of (_poll w)).
Proof.
  intros H. rewrite _poll_world.
  destruct (readyState_is (readyState (self w)) CLOSED); [exact H|].
  destruct (request_throws (host w)).
  - apply steady_close.
  - apply steady_sent.
Qed.

Lemma steady_open (w : World) : steady w -> steady (world_of (open w)).
Proof.
  intros H. destruct (request_active (self w) || timer_set (self w)) eqn:E.
  - rewrite (open_busy w E). exact H.
  - rewrite (open_idle w E), world_bind, _setReadyState_run.
    change (world_of (tt, in_state CONNECTING w, state_log CONNECTING w))
      with (in_state CONNECTING w).
    rewrite _poll_world, in_state_readyState. simpl.
    destruct (request_throws (host (in_state CONNECTING w))).
    + apply steady_close.
    + apply steady_sent.
Qed.

Lemma steady_retry_path (w : World) :
  steady (world_of ((_setReadyState CONNECTING ;; _retry) w)).
Proof.
  rewrite world_bind, _setReadyState_run, _retry_run. apply steady_retried.
Qed.

Lemma steady_onerror_status_0 (w : World) (x : Xhr) :
  _xhr (self w) = Some x -> status x = 0 ->
  steady (world_of (onerror w)).
Proof.
  intros Hx Hs. rewrite (onerror_run w x Hx Hs), world_bind.
  assert (E : world_of ((if _attempts (self w) =? 0
                         then _emitError 0 (Some (responseText x))
                         else ret tt) w) = w)
    by (destruct (_attempts (self w) =? 0); reflexivity).
  rewrite E.
  destruct (RETRY_ON_NETWORK_ERROR (self w) && below_ceiling (self w)).
  - apply steady_retry_path.
  - apply steady_close.
Qed.

(** The handler on text received, or on a completion that it handles
    without an exception. *)
Lemma steady_onreadystatechange (w : World) (x : Xhr) :
  _xhr (self w) = Some x ->
  xhr_readyState x = 3
  \/ (xhr_readyState x = 4 /\ status x <> 0
      /\ result_of (onreadystatechange w) = Normal) ->
  steady (world_of (onreadystatechange w)).
Proof.
  intros Hx Hcase. unfold onreadystatechange in *. rewrite bind_this, Hx in *.
  destruct ((xhr_readyState x =? 3)
            || (xhr_readyState x =? 4) && (status x =? 200)) eqn:E.
  - rewrite world_bind in *. rewrite result_bind in Hcase.
    set (w0 := world_of ((if readyState_is (readyState (self w)) CONNECTING
                             && (status x =? 200)
                          then _setReadyState OPEN;;
                               emit types.ON_OPEN (POpen (url (self w)));;
                               update (set_attempts 0)
                          else ret tt) w)) in *.
    clearbody w0. cbv beta in *. rewrite world_bind. rewrite result_bind in Hcase.
    destruct (decode (responseText x) (cache x) w0) as [[[c newcache] w1] lg1].
    destruct w1 as [e1 h1]. destruct c.
    + destruct (xhr_readyState x =? 4) eqn:E4.
      * intros _. unfold busy. apply orb_true_r.
      * intros _. unfold busy, request_active. simpl. rewrite E4.
        destruct Hcase as [H3 | [H4 _]].
        -- rewrite H3. reflexivity.
        -- rewrite H4 in E4. discriminate.
    + destruct Hcase as [H3 | (H4 & _ & Hn)].
      * intros _. unfold busy, request_active. simpl. rewrite H3. reflexivity.
      * discriminate Hn.
  - destruct (xhr_readyState x =? 4) eqn:E4.
    + destruct (Z.eqb_spec (status x) 0) as [E0|E0].
      * destruct Hcase as [H3 | (_ & Hne & _)]; [|contradiction].
        rewrite H3 in E4. discriminate.
      * simpl. rewrite world_bind.
        change (world_of (_emitError (status x) (Some (responseText x)) w)) with w.
        cbv beta. rewrite bind_this.
        destruct (RETRY_ON_SERVER_ERROR (self w)
                  && includes (SERVER_ERROR_CODES (self w)) (status x)
                  && below_ceiling (self w)).
        -- rewrite world_bind, _setReadyState_run.
           change (world_of (tt, in_state CONNECTING w, state_log CONNECTING w))
             with (in_state CONNECTING w).
           rewrite world_bind, _retry_run.
           apply steady_retried.
        -- rewrite world_bind. apply steady_close.
    + destruct Hcase as [H3 | (H4 & _)].
      * rewrite H3 in E. discriminate.
      * rewrite H4 in E4. discriminate.
Qed.

Lemma world_run_one (i : Input) (w : World) :
  world_of (run [i] w) = world_of (step i w).
Proof. simpl run. rewrite world_bind. reflexivity. Qed.

Lemma request_active_xhr (e : EventSource) :
  request_active e = true -> exists x, _xhr e = Some x.
Proof.
  unfold request_active. destruct (_xhr e) as [x|]; [|discriminate].
  intros _. exists x. reflexivity.
Qed.

Lemma steady_xhr_event (rs st : Z) (text : jsstring) (w : World) :
  request_active (self w) = true ->
  rs = 3
  \/ (rs = 4 /\ st <> 0
      /\ result_of (step (Xhr_readystatechange rs st text) w) = Normal) ->
  steady (world_of (step (Xhr_readystatechange rs st text) w)).
Proof.
  intros Ha Hcase. destruct (request_active_xhr _ Ha) as [x Hx].
  simpl step in *. rewrite world_bind. rewrite result_bind in Hcase.
  apply (steady_onreadystatechange _
           {| xhr_readyState := rs; status := st; responseText := text;
              cache := cache x |}).
  - unfold xhr_becomes, update, world_of. simpl. rewrite Hx. reflexivity.
  - exact Hcase.
Qed.

Lemma steady_network_failure (w : World) :
  request_active (self w) = true ->
  steady (world_of (run network_failure w)).
Proof.
  intros Ha. destruct (request_active_xhr _ Ha) as [x Hx].
  set (x' := {| xhr_readyState := 4; status := 0; responseText := [];
                cache := cache x |}).
  set (w' := with_self (set_xhr (Some x')) w).
  assert (H1 : step (Xhr_readystatechange 4 0 []) w = (Normal, w', [])).
  { simpl step. rewrite bind_run.
    assert (Hb : xhr_becomes 4 0 [] w = (tt, w', [])).
    { unfold xhr_becomes, update. rewrite Hx. reflexivity. }
    rewrite Hb. cbv beta.
    change (world_of (tt, w', @nil Effect)) with w'.
    rewrite (onreadystatechange_status_0 w' x') by reflexivity.
    reflexivity. }
  change (run network_failure w)
    with (bind (step (Xhr_readystatechange 4 0 []))
            (fun _ => bind (step (Xhr_error 0 [])) (fun _ => ret tt)) w).
  rewrite world_bind, H1.
  change (world_of (Normal, w', @nil Effect)) with w'.
  cbv beta. rewrite world_bind.
  change (world_of (ret tt (world_of (step (Xhr_error 0 []) w'))))
    with (world_of (step (Xhr_error 0 []) w')).
  simpl step. rewrite !world_bind.
  assert (Hb : world_of (xhr_becomes 4 0 [] w') = w') by reflexivity.
  rewrite Hb.
  change (world_of (ret Normal (world_of (onerror w'))))
    with (world_of (onerror w')).
  apply (steady_onerror_status_0 w' x'); reflexivity.
Qed.

Lemma steady_timer (handle : nat) (w : World) :
  steady w -> steady (world_of (step (Timer_fires handle) w)).
Proof.
  intros H. simpl step.
  destruct (timer_pending handle (host w)); [|exact H].
  rewrite !world_bind.
  change (world_of
            (ret Normal
               (world_of
                  (_poll (world_of (update_host (drop_timer (Some handle)) w))))))
    with (world_of (_poll (world_of (update_host (drop_timer (Some handle)) w)))).
  apply steady_poll. exact H.
Qed.

(** Every move of the host keeps the client steady. *)
Lemma steady_move (m : Move) (w : World) : steady w -> steady (move w m).
Proof.
  intros H. unfold move. destruct (possible m w) eqn:P; [|exact H].
  destruct m as [|error| |st text|st text| |handle]; simpl inputs_of.
  - rewrite world_run_one. simpl step. rewrite world_bind.
    apply steady_open, H.
  - rewrite world_run_one. simpl step. rewrite world_bind.
    apply steady_close.
  - rewrite world_run_one. simpl step. rewrite world_bind.
    unfold destroy. rewrite world_bind. apply steady_close.
  - rewrite world_run_one. simpl in P.
    apply steady_xhr_event; [exact P | left; reflexivity].
  - rewrite world_run_one. unfold possible in P.
    apply andb_prop in P. destruct P as [P Pn].
    apply andb_prop in P. destruct P as [Pa Ps].
    apply negb_true_iff, Z.eqb_neq in Ps.
    apply steady_xhr_event; [exact Pa|]. right.
    split; [reflexivity|]. split; [exact Ps|].
    unfold completes_normally in Pn.
    destruct (result_of (step (Xhr_readystatechange 4 st text) w));
      [reflexivity | discriminate].
  - apply steady_network_failure. exact P.
  - rewrite world_run_one. apply steady_timer, H.
Qed.

Lemma steady_play (ms : list Move) :
  forall w : World, steady w -> steady (play ms w).
Proof.
  unfold play. induction ms as [|m ms IH]; intros w H; simpl.
  - exact H.
  - apply IH, steady_move, H.
Qed.

(** C8. When the request [_xhr] holds is on its way, or [_pollTimer]
    holds the handle of a timer, [open()] sends no request, publishes
    nothing and leaves the client as it was. And [open()] twice is
    [open()] once, on a host where sending a request does not throw: the
    second call always finds the request of the first, or what stopped the
    first. Last, under any moves of a host that keeps to the protocol of
    the request, up to a completion whose handler throws, a client that
    is CONNECTING or OPEN always has a request on its way or holds a
    timer: there [open()] does nothing. *)
Theorem open_does_nothing_when_busy :
  forall (w : World),
    (request_active (self w) || timer_set (self w) = true ->
     open w = (tt, w, []))
    /\ (request_throws (host w) = false -> (open ;; open) w = open w)
    /\ (forall (ms : list Move) (o : Options) (ds : list Q) (g : Globals),
        w = play ms (new_World o ds g) ->
        readyState (self w) = Some CONNECTING
        \/ readyState (self w) = Some OPEN ->
        open w = (tt, w, [])).
Proof.
  intros w. split; [apply open_busy|]. split; cycle 1.
  { intros ms o ds g Hw Hlive.
    assert (Hsteady : steady w).
    { subst w. apply steady_play. intros F. discriminate F. }
    apply open_busy. apply Hsteady. unfold live.
    destruct Hlive as [E|E]; rewrite E; reflexivity. }
  intros Hok. rewrite bind_run. cbv beta. rewrite (open_run w Hok).
  destruct (request_active (self w) || timer_set (self w)) eqn:E.
  - unfold result_of, world_of, log_of. simpl. rewrite (open_busy w E). reflexivity.
  - change (world_of (tt, with_self (set_xhr (Some sent_Xhr)) (in_state CONNECTING w),
                       state_log CONNECTING w ++ [XhrSend (lastEventId_header (self w))]))
      with (with_self (set_xhr (Some sent_Xhr)) (in_state CONNECTING w)).
    rewrite open_busy by reflexivity.
    unfold result_of, world_of, log_of. simpl. rewrite app_nil_r. reflexivity.
Qed.

(** The theorem on a client whose request is on its way, on a client
    that was never opened, and on a client that is receiving frames. *)
Lemma open_does_nothing_when_busy_witness :
  open connecting_World = (tt, connecting_World, [])
  /\ (open ;; open) example_World = open example_World
  /\ open streaming_World = (tt, streaming_World, []).
Proof.
  split; [|split].
  - apply (proj1 (open_does_nothing_when_busy connecting_World)).
    vm_compute. reflexivity.
  - apply (proj1 (proj2 (open_does_nothing_when_busy example_World))).
    vm_compute. reflexivity.
  - apply (proj2 (proj2 (open_does_nothing_when_busy streaming_World))
             [Calls_open; Receives 200 (js "data: x" ++ [LF; LF])]
             (default_Options (js "http://example.org/stream")) []
             no_globals).
    + reflexivity.
    + right. vm_compute. reflexivity.
Defined.

(** * Further properties *)

(** ** The intervals *)

(** *** Binary64 *)

Lemma round_half_even_floor (q : Q) :
  Qfloor q <= round_half_even q <= Qfloor q + 1.
Proof.
  unfold round_half_even.
  destruct (q - inject_Z (Qfloor q) ?= 1 # 2)%Q; [|lia|lia].
  destruct (Z.even (Qfloor q)); lia.
Qed.

(** An integer below [q] is below its rounding, and an integer above [q]
    is above it. *)
Lemma round_half_even_lower (q : Q) (a : Z) :
  (inject_Z a <= q)%Q -> a <= round_half_even q.
Proof.
  intros H. pose proof (round_half_even_floor q) as [Hf _].
  apply Qfloor_resp_le in H. rewrite Qfloor_Z in H. lia.
Qed.

Lemma round_half_even_upper (q : Q) (b : Z) :
  (q <= inject_Z b)%Q -> round_half_even q <= b.
Proof.
  intros H. unfold round_half_even.
  assert (Hf : Qfloor q <= b)
    by (apply Qfloor_resp_le in H; rewrite Qfloor_Z in H; exact H).
  destruct (Z.eq_dec (Qfloor q) b) as [E|E].
  - (* q is the integer b *)
    assert (Hq : (q == inject_Z b)%Q).
    { apply Qle_antisym; [exact H|]. rewrite <- E. apply Qfloor_le. }
    assert (Hd : (q - inject_Z (Qfloor q) == 0)%Q).
    { rewrite E, Hq. ring. }
    assert (Hc : (q - inject_Z (Qfloor q) ?= 1 # 2)%Q = Lt).
    { apply Qlt_alt. rewrite Hd. reflexivity. }
    rewrite Hc. lia.
  - destruct (q - inject_Z (Qfloor q) ?= 1 # 2)%Q; [|lia|lia].
    destruct (Z.even (Qfloor q)); lia.
Qed.

Lemma pow_pos_Z (s : Z) : 0 <= s -> 0 < 2 ^ s.
Proof. intros H. apply Z.pow_pos_nonneg; lia. Qed.

Lemma ilog2_small (x : Q) :
  (0 < x)%Q -> (x < inject_Z (2 ^ 53))%Q -> ilog2 x <= 52.
Proof.
  intros H0 H1. unfold ilog2.
  set (n := Qnum x). set (d := Zpos (Qden x)).
  assert (Hn : 0 < n) by (unfold Qlt in H0; simpl in H0; subst n; lia).
  assert (Hd : 0 < d) by (subst d; lia).
  destruct (Z.log2_spec n Hn) as [Hn1 Hn2].
  destruct (Z.log2_spec d Hd) as [Hd1 Hd2].
  pose proof (Z.log2_nonneg n) as Ln. pose proof (Z.log2_nonneg d) as Ld.
  assert (Hx : n < 2 ^ 53 * d).
  { unfold Qlt in H1. cbn [Qnum Qden inject_Z] in H1. subst n d. lia. }
  set (j := Z.log2 n - Z.log2 d).
  destruct (Qle_bool (pow2 j) x) eqn:E.
  - apply Qle_bool_iff in E.
    destruct (Z_le_gt_dec j 52) as [Hj|Hj]; [exact Hj|exfalso].
    unfold pow2 in E. destruct (Z.leb_spec 0 j); [|lia].
    assert (Hp : 2 ^ 53 <= 2 ^ j) by (apply Z.pow_le_mono_r; lia).
    assert (Hq : (inject_Z (2 ^ 53) <= inject_Z (2 ^ j))%Q)
      by (rewrite <- Zle_Qle; exact Hp).
    apply (Qlt_irrefl x).
    eapply Qlt_le_trans; [exact H1|]. eapply Qle_trans; [exact Hq | exact E].
  - destruct (Z_le_gt_dec j 53) as [Hj|Hj]; [lia|exfalso].
    assert (Hp : 2 ^ (54 + Z.log2 d) <= 2 ^ Z.log2 n)
      by (apply Z.pow_le_mono_r; subst j; lia).
    replace (54 + Z.log2 d) with (53 + Z.succ (Z.log2 d)) in Hp by lia.
    rewrite Z.pow_add_r in Hp by lia.
    assert (H53 : 0 < 2 ^ 53) by (apply pow_pos_Z; lia).
    nia.
Qed.

Lemma exponent64_small (x : Q) :
  (0 < x)%Q -> (x < inject_Z (2 ^ 53))%Q -> exponent64 x <= 0.
Proof.
  intros H0 H1. unfold exponent64.
  pose proof (ilog2_small x H0 H1). lia.
Qed.

(** Below [2^53] the binary64 numbers include the integers: rounding does
    not cross one. *)
Lemma round64_pos_lower (x : Q) (a : Z) :
  (0 < x)%Q -> (x < inject_Z (2 ^ 53))%Q ->
  (inject_Z a <= x)%Q -> (inject_Z a <= round64_pos x)%Q.
Proof.
  intros H0 H1 Ha. unfold round64_pos.
  pose proof (exponent64_small x H0 H1) as He.
  destruct (Z.leb_spec (exponent64 x) 0); [|lia].
  set (s := - exponent64 x). assert (Hs : 0 <= s) by (subst s; lia).
  pose proof (pow_pos_Z s Hs) as HP. set (P := 2 ^ s) in *.
  assert (Hm : a * P <= round_half_even (x * inject_Z P)).
  { apply round_half_even_lower. rewrite inject_Z_mult.
    apply Qmult_le_compat_r; [exact Ha|].
    change 0%Q with (inject_Z 0). rewrite <- Zle_Qle. lia. }
  unfold Qle. cbn [Qnum Qden inject_Z]. rewrite Z2Pos.id by exact HP. lia.
Qed.

Lemma round64_pos_upper (x : Q) (b : Z) :
  (0 < x)%Q -> (x < inject_Z (2 ^ 53))%Q ->
  (x <= inject_Z b)%Q -> (round64_pos x <= inject_Z b)%Q.
Proof.
  intros H0 H1 Hb. unfold round64_pos.
  pose proof (exponent64_small x H0 H1) as He.
  destruct (Z.leb_spec (exponent64 x) 0); [|lia].
  set (s := - exponent64 x). assert (Hs : 0 <= s) by (subst s; lia).
  pose proof (pow_pos_Z s Hs) as HP. set (P := 2 ^ s) in *.
  assert (Hm : round_half_even (x * inject_Z P) <= b * P).
  { apply round_half_even_upper. rewrite inject_Z_mult.
    apply Qmult_le_compat_r; [exact Hb|].
    change 0%Q with (inject_Z 0). rewrite <- Zle_Qle. lia. }
  unfold Qle. cbn [Qnum Qden inject_Z]. rewrite Z2Pos.id by exact HP. lia.
Qed.

Lemma round64_pos_nonneg (x : Q) :
  (0 < x)%Q -> (x < inject_Z (2 ^ 53))%Q -> (0 <= round64_pos x)%Q.
Proof.
  intros H0 H1. change 0%Q with (inject_Z 0).
  apply round64_pos_lower; [assumption | assumption |].
  change (inject_Z 0) with 0%Q. apply Qlt_le_weak, H0.
Qed.

Lemma round64_lower (x : Q) (a : Z) :
  (- inject_Z (2 ^ 53) < x)%Q -> (x < inject_Z (2 ^ 53))%Q ->
  (inject_Z a <= x)%Q -> (inject_Z a <= round64 x)%Q.
Proof.
  intros Hlo Hhi Ha. unfold round64.
  destruct (x ?= 0)%Q eqn:E.
  - apply Qeq_alt in E. rewrite E in Ha. exact Ha.
  - apply Qlt_alt in E.
    assert (H0 : (0 < - x)%Q) by (apply (Qopp_lt_compat x 0) in E; exact E).
    assert (H1 : (- x < inject_Z (2 ^ 53))%Q).
    { apply Qopp_lt_compat in Hlo. rewrite Qopp_involutive in Hlo. exact Hlo. }
    assert (Hb : (- x <= inject_Z (- a))%Q).
    { rewrite inject_Z_opp. apply Qopp_le_compat, Ha. }
    pose proof (round64_pos_upper (- x) (- a) H0 H1 Hb) as H.
    apply Qopp_le_compat in H. rewrite inject_Z_opp, Qopp_involutive in H.
    exact H.
  - apply Qgt_alt in E. apply round64_pos_lower; assumption.
Qed.

Lemma round64_upper (x : Q) (b : Z) :
  (- inject_Z (2 ^ 53) < x)%Q -> (x < inject_Z (2 ^ 53))%Q ->
  (x <= inject_Z b)%Q -> (round64 x <= inject_Z b)%Q.
Proof.
  intros Hlo Hhi Hb. unfold round64.
  destruct (x ?= 0)%Q eqn:E.
  - apply Qeq_alt in E. rewrite E in Hb. exact Hb.
  - apply Qlt_alt in E.
    assert (H0 : (0 < - x)%Q) by (apply (Qopp_lt_compat x 0) in E; exact E).
    assert (H1 : (- x < inject_Z (2 ^ 53))%Q).
    { apply Qopp_lt_compat in Hlo. rewrite Qopp_involutive in Hlo. exact Hlo. }
    assert (Ha : (inject_Z (- b) <= - x)%Q).
    { rewrite inject_Z_opp. apply Qopp_le_compat, Hb. }
    pose proof (round64_pos_lower (- x) (- b) H0 H1 Ha) as H.
    apply Qopp_le_compat in H. rewrite inject_Z_opp, Qopp_involutive in H.
    exact H.
  - apply Qgt_alt in E. apply round64_pos_upper; assumption.
Qed.

(** Between two integers below [2^53] in size, so is the rounding. *)
Lemma round64_between (x : Q) (a b : Z) :
  - 2 ^ 53 < a -> b < 2 ^ 53 ->
  (inject_Z a <= x)%Q -> (x <= inject_Z b)%Q ->
  (inject_Z a <= round64 x)%Q /\ (round64 x <= inject_Z b)%Q.
Proof.
  intros Ha Hb Hax Hxb.
  assert (Hlo : (- inject_Z (2 ^ 53) < x)%Q).
  { eapply Qlt_le_trans; [|exact Hax].
    rewrite <- inject_Z_opp, <- Zlt_Qlt. exact Ha. }
  assert (Hhi : (x < inject_Z (2 ^ 53))%Q).
  { eapply Qle_lt_trans; [exact Hxb|]. rewrite <- Zlt_Qlt. exact Hb. }
  split; [apply round64_lower | apply round64_upper]; assumption.
Qed.

(** An integer below [2^53] in size is a binary64 number. *)
Lemma round64_integer (x : Q) (z : Z) :
  - 2 ^ 53 < z < 2 ^ 53 -> (x == inject_Z z)%Q -> (round64 x == inject_Z z)%Q.
Proof.
  intros Hz E.
  destruct (round64_between x z z) as [H1 H2]; try lia;
    try (rewrite E; apply Qle_refl).
  apply Qle_antisym; assumption.
Qed.

(** X1. In binary64, for a draw in [0, 1) and integers [min <= max] of
    size at most [2^51], [randomInterval(max, min)] is at least [min] and
    at most [max + 1]; and [max + 1] is reached: at the largest draw
    below 1, [randomInterval(150, 100)] is 151, the sum [r * 51 + 100]
    being rounded up to 151. *)
Theorem randomInterval64_stays_within_max_plus_1 :
  (forall (r : Q) (max min : Z),
      (0 <= r)%Q -> (r < 1)%Q ->
      min <= max -> - 2 ^ 51 <= min -> max <= 2 ^ 51 ->
      min <= randomInterval64 r max min <= max + 1)
  /\ randomInterval64 ((2 ^ 53 - 1) # Z.to_pos (2 ^ 53)) 150 100 = 151.
Proof.
  split; [|vm_compute; reflexivity].
  intros r max min Hr0 Hr1 Hmm Hmin Hmax. unfold randomInterval64.
  assert (H51 : 2 ^ 53 = 4 * 2 ^ 51) by reflexivity.
  assert (P51 : 0 < 2 ^ 51) by reflexivity.
  (* max + 1 *)
  assert (E1 : (round64 (inject_Z max + 1) == inject_Z (max + 1))%Q).
  { apply round64_integer; [lia|]. rewrite inject_Z_plus. reflexivity. }
  (* max + 1 - min *)
  assert (E2 : (round64 (round64 (inject_Z max + 1) - inject_Z min)
                == inject_Z (max + 1 - min))%Q).
  { apply round64_integer; [lia|].
    rewrite E1. replace (max + 1 - min) with ((max + 1) + - min) by lia.
    rewrite !inject_Z_plus, inject_Z_opp. ring. }
  set (k := round64 (round64 (inject_Z max + 1) - inject_Z min)) in *.
  (* r * (max + 1 - min) *)
  assert (Hk : (0 < inject_Z (max + 1 - min))%Q)
    by (change 0%Q with (inject_Z 0); rewrite <- Zlt_Qlt; lia).
  assert (Hp0 : (inject_Z 0 <= r * k)%Q).
  { change (inject_Z 0) with 0%Q. rewrite E2.
    apply Qmult_le_0_compat; [exact Hr0 | apply Qlt_le_weak, Hk]. }
  assert (Hp1 : (r * k <= inject_Z (max + 1 - min))%Q).
  { rewrite E2. rewrite <- (Qmult_1_l (inject_Z (max + 1 - min))) at 2.
    apply Qmult_le_compat_r; [apply Qlt_le_weak, Hr1 | apply Qlt_le_weak, Hk]. }
  destruct (round64_between (r * k) 0 (max + 1 - min)) as [Q0 Q1];
    try lia; try assumption.
  set (p := round64 (r * k)) in *.
  (* ... + min *)
  assert (Hs0 : (inject_Z min <= p + inject_Z min)%Q).
  { rewrite <- (Qplus_0_l (inject_Z min)) at 1.
    apply Qplus_le_compat; [exact Q0 | apply Qle_refl]. }
  assert (Hs1 : (p + inject_Z min <= inject_Z (max + 1))%Q).
  { replace (max + 1) with ((max + 1 - min) + min) by lia.
    rewrite inject_Z_plus.
    apply Qplus_le_compat; [exact Q1 | apply Qle_refl]. }
  destruct (round64_between (p + inject_Z min) min (max + 1)) as [S0 S1];
    try lia; try assumption.
  apply Qfloor_resp_le in S0. apply Qfloor_resp_le in S1.
  rewrite Qfloor_Z in S0, S1. lia.
Qed.

(** X1 at the draw 1/2 and the arguments of a reconnection, 150 and 100. *)
Lemma randomInterval64_stays_within_max_plus_1_witness :
  100 <= randomInterval64 (1 # 2) 150 100 <= 150 + 1.
Proof.
  apply (proj1 randomInterval64_stays_within_max_plus_1 (1 # 2) 150 100).
  - discriminate.
  - reflexivity.
  - lia.
  - vm_compute. discriminate.
  - vm_compute. discriminate.
Defined.

(** The loop never returns more than the bound allows twice over. *)
Lemma backoff_loop_capped (delay maxDelay : Z) (n : nat) :
  forall prev current,
    0 < prev <= current ->
    2 * (current * 100) <= Z.max 400 (2 * (maxDelay - delay)) ->
    backoff_loop n prev current delay maxDelay * 100
    <= Z.max 400 (2 * (maxDelay - delay)).
Proof.
  induction n as [|n IH]; intros prev current Hp Hc; cbn [backoff_loop].
  - lia.
  - destruct (Z.gtb_spec (delay + (prev + current) * 100) maxDelay).
    + lia.
    + apply IH; lia.
Qed.

(** X2. However many attempts were made, [backoffInterval] stays between
    [delay] and [delay] plus the larger of 400 and twice
    [maxDelay - delay]: the loop leaves at the first ceiling over
    [maxDelay], which is at most twice the one before. *)
Theorem backoffInterval_is_bounded_whatever_the_attempt :
  forall (r : Q) (attempt delay maxDelay : Z),
    (0 <= r)%Q -> (r < 1)%Q ->
    delay <= backoffInterval r attempt delay maxDelay
          <= delay + Z.max 400 (2 * (maxDelay - delay)).
Proof.
  intros r attempt delay maxDelay H0 H1.
  pose proof (backoff_current_positive delay maxDelay attempt) as Hpos.
  assert (Hcap : backoff_current attempt delay maxDelay * 100
                 <= Z.max 400 (2 * (maxDelay - delay))).
  { unfold backoff_current. destruct (attempt >? 1); [|lia].
    apply backoff_loop_capped; lia. }
  assert (Hrange : 0 <= randomInterval r (backoff_current attempt delay maxDelay * 100) 0
                   <= backoff_current attempt delay maxDelay * 100)
    by (apply randomInterval_range; [assumption | assumption | lia]).
  unfold backoffInterval. lia.
Qed.

(** The theorem on the millionth attempt with the default bounds. *)
Lemma backoffInterval_is_bounded_whatever_the_attempt_witness :
  1000 <= backoffInterval (1 # 2) 1000000 1000 15000 <= 1000 + 28000.
Proof.
  assert (H0 : (0 <= 1 # 2)%Q) by (unfold Qle; simpl; lia).
  assert (H1 : (1 # 2 < 1)%Q) by (unfold Qlt; simpl; lia).
  exact (backoffInterval_is_bounded_whatever_the_attempt
           (1 # 2) 1000000 1000 15000 H0 H1).
Defined.

(** The Fibonacci numbers grow as [prev] and [current] do. *)
Lemma fib_pair_snd (n : nat) : snd (fib_pair n) = fib (S n).
Proof. unfold fib. simpl. destruct (fib_pair n). reflexivity. Qed.







(** ** The decoder *)

(** *** Strings *)

Lemma eqb_eq (a b : jsstring) : JS.eqb a b = true <-> a = b.
Proof.
  revert b. induction a as [|x a IH]; intros [|y b]; simpl; split; intros H;
    try reflexivity; try discriminate.
  - apply andb_prop in H. destruct H as [Hx Ha].
    apply N.eqb_eq in Hx. apply IH in Ha. subst. reflexivity.
  - injection H as -> ->. rewrite N.eqb_refl. simpl. apply IH. reflexivity.
Qed.

Lemma split_lf_no_lf (s : jsstring) : no_lf s = true -> split_lf s = [s].
Proof.
  induction s as [|c s IH]; simpl; intros H; [reflexivity|].
  apply andb_prop in H. destruct H as [Hc Hs].
  apply negb_true_iff in Hc. rewrite Hc, (IH Hs). reflexivity.
Qed.

(** [split] undoes [join] on lines that hold no line feed. *)
Lemma split_lf_join_lf (ls : list jsstring) :
  ls <> [] -> forallb no_lf ls = true -> split_lf (join_lf ls) = ls.
Proof.
  induction ls as [|l ls IH]; intros Hne H; [contradiction|].
  simpl in H. apply andb_prop in H. destruct H as [Hl Hls].
  destruct ls as [|l' ls'].
  - simpl. apply split_lf_no_lf, Hl.
  - change (join_lf (l :: l' :: ls')) with (l ++ LF :: join_lf (l' :: ls')).
    rewrite split_lf_app_lf, (split_lf_no_lf l Hl), IH;
      [reflexivity | discriminate | exact Hls].
Qed.

Lemma drop_ws_all (s : jsstring) : forallb is_ws s = true -> drop_ws s = [].
Proof.
  induction s as [|c s IH]; simpl; intros H; [reflexivity|].
  apply andb_prop in H. destruct H as [Hc Hs]. rewrite Hc. apply IH, Hs.
Qed.

Lemma drop_ws_app_ws (pre s : jsstring) :
  forallb is_ws pre = true -> drop_ws (pre ++ s) = drop_ws s.
Proof.
  induction pre as [|c pre IH]; simpl; intros H; [reflexivity|].
  apply andb_prop in H. destruct H as [Hc Hs]. rewrite Hc. apply IH, Hs.
Qed.

Lemma drop_ws_app (s t : jsstring) :
  drop_ws s <> [] -> drop_ws (s ++ t) = drop_ws s ++ t.
Proof.
  induction s as [|c s IH]; simpl; intros H; [contradiction|].
  destruct (is_ws c); [apply IH, H | reflexivity].
Qed.

Lemma drop_ws_app_nil (s t : jsstring) :
  drop_ws s = [] -> drop_ws (s ++ t) = drop_ws t.
Proof.
  induction s as [|c s IH]; simpl; intros H; [reflexivity|].
  destruct (is_ws c); [apply IH, H | discriminate].
Qed.

Lemma forallb_rev {A : Type} (f : A -> bool) (l : list A) :
  forallb f (rev l) = forallb f l.
Proof.
  induction l as [|a l IH]; simpl; [reflexivity|].
  rewrite forallb_app, IH. simpl. rewrite andb_true_r. apply andb_comm.
Qed.

(** White space around a line does not count. *)
Lemma trim_outer_ws (pre s post : jsstring) :
  forallb is_ws pre = true -> forallb is_ws post = true ->
  trim (pre ++ s ++ post) = trim s.
Proof.
  intros Hpre Hpost. unfold trim. rewrite (drop_ws_app_ws pre _ Hpre).
  destruct (drop_ws s) as [|c r] eqn:E.
  - rewrite (drop_ws_app_nil s post E), (drop_ws_all post Hpost). reflexivity.
  - rewrite drop_ws_app by (rewrite E; discriminate). rewrite E.
    rewrite rev_app_distr.
    rewrite drop_ws_app_ws by (rewrite forallb_rev; exact Hpost).
    reflexivity.
Qed.

Lemma drop_ws_length (s : jsstring) :
  (List.length (drop_ws s) <= List.length s)%nat.
Proof.
  induction s as [|c s IH]; simpl; [lia|].
  destruct (is_ws c); simpl; lia.
Qed.

Lemma drop_ws_same_length (s : jsstring) :
  List.length (drop_ws s) = List.length s -> drop_ws s = s.
Proof.
  destruct s as [|c s]; simpl; [reflexivity|].
  destruct (is_ws c); [|reflexivity].
  intros H. pose proof (drop_ws_length s). lia.
Qed.

(** A string that [trim] leaves alone starts and ends with no white
    space. *)
Lemma trim_fixed (s : jsstring) :
  trim s = s -> drop_ws s = s /\ drop_ws (rev s) = rev s.
Proof.
  unfold trim. intros H.
  assert (Hlen : List.length (drop_ws (rev (drop_ws s))) = List.length s)
    by (rewrite <- (length_rev (drop_ws (rev (drop_ws s)))), H; reflexivity).
  pose proof (drop_ws_length (rev (drop_ws s))) as H1.
  pose proof (drop_ws_length s) as H2.
  rewrite length_rev in H1.
  assert (Hs : drop_ws s = s) by (apply drop_ws_same_length; lia).
  split; [exact Hs|].
  apply drop_ws_same_length. rewrite Hs in Hlen. rewrite Hlen, length_rev.
  reflexivity.
Qed.

Lemma drop_ws_fixed_app (s t : jsstring) :
  s <> [] -> drop_ws s = s -> drop_ws (s ++ t) = s ++ t.
Proof.
  intros Hne H. rewrite drop_ws_app by (rewrite H; exact Hne).
  rewrite H. reflexivity.
Qed.

(** A field name, a colon, a space and a value that [trim] leaves alone:
    the line is trimmed to itself, or to the name and the colon when the
    value is empty. *)
Lemma trim_field_line (name v : jsstring) :
  name <> [] -> drop_ws name = name -> trim v = v ->
  trim (name ++ COLON :: 32%N :: v)
  = name ++ COLON :: match v with [] => [] | _ :: _ => 32%N :: v end.
Proof.
  intros Hne Hname Hv. destruct (trim_fixed v Hv) as [Hv1 Hv2].
  unfold trim. rewrite (drop_ws_fixed_app name _ Hne Hname).
  destruct v as [|c v].
  - unfold COLON. rewrite rev_app_distr. simpl.
    rewrite rev_involutive. reflexivity.
  - set (w := c :: v) in *.
    replace (name ++ COLON :: 32%N :: w) with ((name ++ [COLON; 32%N]) ++ w)
      by (rewrite <- app_assoc; reflexivity).
    rewrite rev_app_distr.
    rewrite (drop_ws_fixed_app (rev w)); [| |exact Hv2].
    + rewrite <- rev_app_distr, rev_involutive, <- app_assoc. reflexivity.
    + subst w. simpl. destruct (rev v); discriminate.
Qed.

(** *** The decoder, further *)

(** X4. White space around a line does not count: the loop body trims
    the line first ([reTrim], tabs, carriage returns and no-break spaces
    included), so a line between two runs of white space is handled as
    the line alone, whatever the locals and the state. *)
Theorem line_body_ignores_outer_white_space :
  forall (pre part post : jsstring) (l : Locals) (w : World),
    forallb is_ws pre = true -> forallb is_ws post = true ->
    line_body (pre ++ part ++ post) l w = line_body part l w.
Proof.
  intros pre part post l w Hpre Hpost. unfold line_body.
  rewrite (trim_outer_ws pre part post Hpre Hpost). reflexivity.
Qed.

(** X4 at a [data] line behind a tab and a no-break space and before a
    carriage return and a space. *)
Lemma line_body_ignores_outer_white_space_witness :
  line_body ([9; 160] ++ js "data: x" ++ [13; 32])%N no_locals example_World
  = line_body (js "data: x") no_locals example_World.
Proof.
  exact (line_body_ignores_outer_white_space
           [9; 160]%N (js "data: x") [13; 32]%N no_locals example_World
           eq_refl eq_refl).
Defined.

(** The first line of a call publishes nothing: there is no data yet. *)
Lemma line_body_first_is_silent (part : jsstring) (w : World) :
  log_of (line_body part no_locals w) = [].
Proof.
  unfold line_body. destruct (classify (trim part)); try reflexivity.
  generalize (parseInt (replace_field (js "retry") (trim part))) as n. intros n.
  unfold bind, assign_retry, assign_interval.
  destruct (retry (globals (host w))); [|reflexivity].
  destruct n; simpl; [reflexivity|].
  destruct (interval (globals (host w))); reflexivity.
Qed.

(** X5. When the text after the cursor holds no line feed, a decoder
    call publishes nothing, and the cursor moves to the end of the text
    all the same. *)
Theorem decode_without_a_line_feed_publishes_nothing :
  forall (text cache : jsstring) (w : World),
    no_lf (substr text (List.length cache)) = true ->
    log_of (decode text cache w) = []
    /\ snd (result_of (decode text cache w)) = text.
Proof.
  intros text cache w H. split; [|apply decode_cache].
  unfold decode. rewrite (split_lf_no_lf _ H). rewrite bind_run.
  unfold log_of at 1. simpl snd. rewrite app_nil_r.
  simpl for_parts. rewrite bind_run. unfold log_of at 1. simpl snd.
  rewrite line_body_first_is_silent.
  destruct (line_body (substr text (List.length cache)) no_locals w)
    as [[[c l'] w1] lg1].
  unfold result_of. simpl. destruct c; reflexivity.
Qed.

(** X5 at a [data] line whose line feed has not arrived. *)
Lemma decode_without_a_line_feed_publishes_nothing_witness :
  log_of (decode (js "data: hello") [] example_World) = []
  /\ snd (result_of (decode (js "data: hello") [] example_World))
     = js "data: hello".
Proof.
  exact (decode_without_a_line_feed_publishes_nothing
           (js "data: hello") [] example_World eq_refl).
Defined.

Lemma is_frame_of_same_address (w w' : World) (e : Effect) :
  outside_decoder w' = outside_decoder w -> is_frame_of w' e -> is_frame_of w e.
Proof.
  intros H [name [d [id He]]]. exists name, d, id. rewrite He.
  pose proof (f_equal fst H) as Hs. simpl in Hs.
  pose proof (f_equal url Hs) as Hu. pose proof (f_equal path Hs) as Hp.
  simpl in Hu, Hp. rewrite Hu, Hp. reflexivity.
Qed.

Lemma line_body_publishes_frames (part : jsstring) (l : Locals) (w : World) :
  Forall (is_frame_of w) (log_of (line_body part l w)).
Proof.
  unfold line_body. destruct (classify (trim part));
    try (apply Forall_nil).
  - generalize (parseInt (replace_field (js "retry") (trim part))) as n.
    intros n. unfold bind, assign_retry, assign_interval.
    destruct (retry (globals (host w))); [|apply Forall_nil].
    destruct n; simpl; [apply Forall_nil|].
    destruct (interval (globals (host w))); apply Forall_nil.
  - destruct (data l); [apply Forall_nil|].
    apply Forall_cons; [|apply Forall_nil].
    eexists _, _, _. reflexivity.
Qed.

Lemma for_parts_publishes_frames (parts : list jsstring) :
  forall (l : Locals) (w : World),
    Forall (is_frame_of w) (log_of (for_parts parts l w)).
Proof.
  induction parts as [|part rest IH]; intros l w.
  - apply Forall_nil.
  - simpl for_parts. rewrite bind_run. unfold log_of at 1. simpl snd.
    apply Forall_app. split; [apply line_body_publishes_frames|].
    destruct (line_body_frame part l w) as (Hw & _ & _).
    destruct (line_body part l w) as [[[c l'] w1] lg1].
    unfold result_of, world_of in *. simpl in *.
    destruct c; [|apply Forall_nil].
    eapply Forall_impl; [|apply IH].
    intros e. apply is_frame_of_same_address, Hw.
Qed.

(** X6. A decoder call publishes messages of this stream only (member
    [type] equal to [message], origin [url + path]); of the client it
    changes [lastEventId] at most, and of the host the bindings of
    [retry] and [interval]: no timer, no request, no state change. *)
Theorem decode_only_publishes_frames :
  forall (text cache : jsstring) (w : World),
    outside_decoder (world_of (decode text cache w)) = outside_decoder w
    /\ Forall (is_frame_of w) (log_of (decode text cache w)).
Proof.
  intros text cache w. split; [apply decode_frame|].
  unfold decode. rewrite bind_run. unfold log_of at 1. simpl snd.
  rewrite app_nil_r. apply for_parts_publishes_frames.
Qed.

(** On a host that does not bind [retry], no line binds it. *)
Lemma line_body_keeps_retry_unbound (part : jsstring) (l : Locals) (w : World) :
  retry (globals (host w)) = None ->
  retry (globals (host (world_of (line_body part l w)))) = None.
Proof.
  intros H. unfold line_body. destruct (classify (trim part)); try exact H.
  - unfold bind, assign_retry. rewrite H. exact H.
  - destruct (data l); exact H.
Qed.

Lemma for_parts_keeps_retry_unbound (parts : list jsstring) :
  forall (l : Locals) (w : World),
    retry (globals (host w)) = None ->
    retry (globals (host (world_of (for_parts parts l w)))) = None.
Proof.
  induction parts as [|part rest IH]; intros l w H; [exact H|].
  simpl for_parts. rewrite bind_run.
  pose proof (line_body_keeps_retry_unbound part l w H) as H1.
  destruct (line_body part l w) as [[[c l'] w1] lg1].
  unfold result_of, world_of in *. simpl in *.
  destruct c; [apply IH, H1 | exact H1].
Qed.

(** The line that throws, and what follows it. *)
Lemma for_parts_throws_at_retry (part : jsstring) (qs : list jsstring)
      (l : Locals) (w : World) :
  retry (globals (host w)) = None ->
  starts_with (js "retry") (trim part) = true ->
  for_parts (part :: qs) l w = ((ThrowReferenceError, l), w, []).
Proof.
  intros H Hs. simpl for_parts. rewrite bind_run.
  apply starts_with_inv in Hs.
  rewrite (line_body_retry part _ l w Hs). unfold retry_outcome. rewrite H.
  reflexivity.
Qed.

Lemma for_parts_cut_at_retry (ps : list jsstring) (part : jsstring)
      (qs : list jsstring) (l : Locals) (w : World) :
  retry (globals (host w)) = None ->
  starts_with (js "retry") (trim part) = true ->
  for_parts (ps ++ part :: qs) l w = for_parts (ps ++ [part]) l w
  /\ fst (result_of (for_parts (ps ++ part :: qs) l w)) = ThrowReferenceError.
Proof.
  intros H Hs. rewrite !for_parts_app. rewrite !bind_run.
  pose proof (for_parts_keeps_retry_unbound ps l w H) as H1.
  destruct (for_parts ps l w) as [[[c l'] w1] lg1].
  unfold result_of, world_of, log_of in *. cbn [fst snd] in *.
  destruct c; [|split; reflexivity].
  rewrite !(for_parts_throws_at_retry part _ l' w1 H1 Hs). split; reflexivity.
Qed.

(** X7. On a host where [retry] is bound nowhere, a line that starts
    with [retry] ends the decoder call with a ReferenceError: the call
    leaves the state and the events of the text cut after that line, the
    lines behind it are never read, and the cursor is at the end of the
    text, so no later call reads them either. *)
Theorem unbound_retry_line_loses_the_rest_of_the_text :
  forall (ps : list jsstring) (line : jsstring) (qs : list jsstring) (w : World),
    forallb no_lf (ps ++ line :: qs) = true ->
    retry (globals (host w)) = None ->
    starts_with (js "retry") (trim line) = true ->
    fst (result_of (decode (join_lf (ps ++ line :: qs)) [] w))
    = ThrowReferenceError
    /\ snd (result_of (decode (join_lf (ps ++ line :: qs)) [] w))
       = join_lf (ps ++ line :: qs)
    /\ world_of (decode (join_lf (ps ++ line :: qs)) [] w)
       = world_of (decode (join_lf (ps ++ [line])) [] w)
    /\ log_of (decode (join_lf (ps ++ line :: qs)) [] w)
       = log_of (decode (join_lf (ps ++ [line])) [] w).
Proof.
  intros ps line qs w Hlf H Hs. unfold decode.
  change (substr ?t (List.length (@nil N))) with t.
  assert (Hlf' : forallb no_lf (ps ++ [line]) = true).
  { rewrite forallb_app in *. apply andb_prop in Hlf. destruct Hlf as [Hp Hq].
    simpl in *. apply andb_prop in Hq. destruct Hq as [Hl _].
    rewrite Hp, Hl. reflexivity. }
  rewrite !split_lf_join_lf;
    [| destruct ps; discriminate | exact Hlf' | destruct ps; discriminate
     | exact Hlf].
  destruct (for_parts_cut_at_retry ps line qs no_locals w H Hs) as [E T].
  rewrite !bind_run. rewrite E in *.
  unfold result_of, world_of, log_of in *. simpl.
  repeat split. exact T.
Qed.

(** X7 at a [retry] line between two frames: the second is lost. *)
Lemma unbound_retry_line_loses_the_rest_of_the_text_witness :
  fst (result_of (decode (join_lf ([js "data: a"; []] ++ js "retry: 5"
                                     :: [js "data: x"; []; []]))
                    [] example_World))
  = ThrowReferenceError
  /\ log_of (decode (join_lf ([js "data: a"; []] ++ js "retry: 5"
                                :: [js "data: x"; []; []]))
               [] example_World)
     = log_of (decode (join_lf ([js "data: a"; []] ++ [js "retry: 5"]))
                 [] example_World).
Proof.
  pose proof (unbound_retry_line_loses_the_rest_of_the_text
                [js "data: a"; []] (js "retry: 5") [js "data: x"; []; []]
                example_World eq_refl eq_refl eq_refl) as H.
  split; [exact (proj1 H) | exact (proj2 (proj2 (proj2 H)))].
Defined.

(** *** A frame is read back as it was written *)

Lemma plain_inv (s : jsstring) :
  plain s = true -> no_lf s = true /\ trim s = s.
Proof.
  unfold plain. intros H. apply andb_prop in H. destruct H as [H1 H2].
  split; [exact H1 | apply eqb_eq, H2].
Qed.

Lemma drop_ws_space (v : jsstring) :
  trim v = v ->
  drop_ws match v with [] => [] | _ :: _ => 32%N :: v end = v.
Proof.
  intros H. destruct (trim_fixed v H) as [H1 _].
  destruct v as [|c v]; [reflexivity|]. exact H1.
Qed.

Lemma line_body_id_plain (i : jsstring) (l : Locals) (w : World) :
  plain i = true ->
  line_body (js "id: " ++ i) l w
  = ((Normal, l), with_lastEventId (Some i) w, []).
Proof.
  intros H. destruct (plain_inv i H) as [_ Ht].
  rewrite (line_body_id _ (COLON :: match i with [] => [] | _ :: _ => 32%N :: i end)).
  - rewrite N.eqb_refl.
    replace (drop_ws _) with i by (symmetry; exact (drop_ws_space i Ht)).
    reflexivity.
  - change (js "id: " ++ i) with (js "id" ++ COLON :: 32%N :: i).
    apply trim_field_line; [discriminate | reflexivity | exact Ht].
Qed.

Lemma line_body_event_plain (n : jsstring) (l : Locals) (w : World) :
  plain n = true ->
  line_body (js "event: " ++ n) l w
  = ((Normal, {| data := data l; eventType := Some n |}), w, []).
Proof.
  intros H. destruct (plain_inv n H) as [_ Ht].
  rewrite (line_body_event _ (COLON :: match n with [] => [] | _ :: _ => 32%N :: n end)).
  - cbn [drop_colon_ws]. rewrite N.eqb_refl.
    replace (drop_ws _) with n by (symmetry; exact (drop_ws_space n Ht)).
    reflexivity.
  - change (js "event: " ++ n) with (js "event" ++ COLON :: 32%N :: n).
    apply trim_field_line; [discriminate | reflexivity | exact Ht].
Qed.

Lemma line_body_data_plain (d : jsstring) (l : Locals) (w : World) :
  plain d = true ->
  line_body (js "data: " ++ d) l w
  = ((Normal, {| data := data l ++ [d]; eventType := eventType l |}), w, []).
Proof.
  intros H. destruct (plain_inv d H) as [_ Ht].
  rewrite (line_body_data _ (COLON :: match d with [] => [] | _ :: _ => 32%N :: d end)).
  - cbn [drop_colon_ws]. rewrite N.eqb_refl.
    replace (drop_ws _) with d by (symmetry; exact (drop_ws_space d Ht)).
    reflexivity.
  - change (js "data: " ++ d) with (js "data" ++ COLON :: 32%N :: d).
    apply trim_field_line; [discriminate | reflexivity | exact Ht].
Qed.

(** A line that ends normally and publishes nothing hands the loop on. *)
Lemma for_parts_cons_silent (part : jsstring) (rest : list jsstring)
      (l l' : Locals) (w w' : World) :
  line_body part l w = ((Normal, l'), w', []) ->
  for_parts (part :: rest) l w = for_parts rest l' w'.
Proof.
  intros H. simpl for_parts. unfold bind. rewrite H.
  destruct (for_parts rest l' w') as [[a w2] lg]. reflexivity.
Qed.

Lemma for_parts_data_lines (ds : list jsstring) :
  forall (rest : list jsstring) (l : Locals) (w : World),
    forallb plain ds = true ->
    for_parts (List.map (fun d => js "data: " ++ d) ds ++ rest) l w
    = for_parts rest {| data := data l ++ ds; eventType := eventType l |} w.
Proof.
  induction ds as [|d ds IH]; intros rest l w H.
  - simpl. rewrite app_nil_r. destruct l; reflexivity.
  - simpl in H. apply andb_prop in H. destruct H as [Hd Hds].
    simpl List.map. simpl app.
    rewrite (for_parts_cons_silent _ _ _ _ _ _ (line_body_data_plain d l w Hd)).
    rewrite (IH rest _ w Hds). simpl. rewrite <- app_assoc. reflexivity.
Qed.

Lemma no_lf_app (a b : jsstring) :
  no_lf (a ++ b) = no_lf a && no_lf b.
Proof. unfold no_lf. apply forallb_app. Qed.

Lemma frame_lines_no_lf (id name : option jsstring) (ds : list jsstring) :
  match id with Some i => plain i = true | None => True end ->
  match name with Some n => plain n = true /\ n <> [] | None => True end ->
  forallb plain ds = true ->
  forallb no_lf (frame_lines id name ds ++ [[]; []]) = true.
Proof.
  intros Hid Hname Hds. unfold frame_lines. rewrite !forallb_app.
  match goal with
  | |- context [forallb no_lf ?m] =>
      lazymatch m with
      | List.map _ ds => assert (H3 : forallb no_lf m = true)
      end
  end.
  { clear Hid Hname. induction ds as [|d ds IH]; [reflexivity|].
    cbn [forallb] in Hds. apply andb_prop in Hds. destruct Hds as [Hd Hds].
    cbn [List.map forallb].
    rewrite no_lf_app, (proj1 (plain_inv d Hd)), (IH Hds). reflexivity. }
  unfold jsstring in *. rewrite H3.
  destruct id as [i|]; destruct name as [n|]; cbn [forallb];
    rewrite ?no_lf_app;
    try rewrite (proj1 (plain_inv _ Hid));
    try rewrite (proj1 (plain_inv _ (proj1 Hname))); reflexivity.
Qed.

(** X8. A frame written as an optional [id] line, an optional [event]
    line with a name that is not empty, one or more [data] lines and a
    blank line, the values being trimmed and free of line feeds, is read
    back by one decoder call: one event, named by the [event] line or
    [message], whose data is the [data] values joined by line feeds (or
    what [JSON.parse] makes of them), with the id of the [id] line, which
    becomes [lastEventId], or else the id the client held. *)
Theorem decode_reads_back_a_frame :
  forall (id name : option jsstring) (ds : list jsstring) (w : World),
    ds <> [] ->
    forallb plain ds = true ->
    match id with Some i => plain i = true | None => True end ->
    match name with Some n => plain n = true /\ n <> [] | None => True end ->
    decode (frame_text id name ds) [] w
    = ((Normal, frame_text id name ds),
       match id with Some i => with_lastEventId (Some i) w | None => w end,
       [Emit match name with Some n => n | None => js "message" end
          (PMessage (js "message") (payload_of (join_lf ds))
             match id with Some i => Some i | None => lastEventId (self w) end
             (url (self w) ++ path (self w)))]).
Proof.
  intros id name ds w Hne Hds Hid Hname.
  assert (Hloop :
    forall (l : Locals) (w' : World),
      data l = [] ->
      for_parts (List.map (fun d => js "data: " ++ d) ds ++ [[]; []]) l w'
      = ((Normal, no_locals), w',
         [Emit match eventType l with
               | Some ((_ :: _) as t) => t
               | _ => js "message"
               end
            (PMessage (js "message") (payload_of (join_lf ds))
               (lastEventId (self w')) (url (self w') ++ path (self w')))])).
  { intros l w' Hl. rewrite (for_parts_data_lines ds _ l w' Hds). rewrite Hl.
    simpl app. destruct ds as [|d ds']; [contradiction|].
    simpl for_parts. unfold line_body. simpl classify. cbv iota.
    cbn [data eventType]. unfold bind, this_, _emitMessage, emit, tell, ret,
      MessageEvent, payload_of. cbn [m_data m_type m_lastEventId m_origin].
    destruct (join_lf (d :: ds')) eqn:E; reflexivity. }
  assert (Hparts :
    for_parts (frame_lines id name ds ++ [[]; []]) no_locals w
    = ((Normal, no_locals),
       match id with Some i => with_lastEventId (Some i) w | None => w end,
       [Emit match name with Some n => n | None => js "message" end
          (PMessage (js "message") (payload_of (join_lf ds))
             match id with Some i => Some i | None => lastEventId (self w) end
             (url (self w) ++ path (self w)))])).
  { unfold frame_lines.
    destruct id as [i|]; destruct name as [n|]; cbn [app].
    - rewrite (for_parts_cons_silent _ _ _ _ _ _
                 (line_body_id_plain i no_locals w Hid)).
      rewrite (for_parts_cons_silent _ _ _ _ _ _
                 (line_body_event_plain n no_locals _ (proj1 Hname))).
      rewrite Hloop by reflexivity. destruct Hname as [_ Hn].
      destruct n; [contradiction|]. reflexivity.
    - rewrite (for_parts_cons_silent _ _ _ _ _ _
                 (line_body_id_plain i no_locals w Hid)).
      rewrite Hloop by reflexivity. reflexivity.
    - rewrite (for_parts_cons_silent _ _ _ _ _ _
                 (line_body_event_plain n no_locals _ (proj1 Hname))).
      rewrite Hloop by reflexivity. destruct Hname as [_ Hn].
      destruct n; [contradiction|]. reflexivity.
    - rewrite Hloop by reflexivity. reflexivity. }
  unfold decode, frame_text.
  change (substr ?t (List.length (@nil N))) with t.
  rewrite split_lf_join_lf;
    [| destruct (frame_lines id name ds); discriminate
     | apply frame_lines_no_lf; assumption].
  unfold bind. rewrite Hparts. reflexivity.
Qed.

(** X8 at a frame with an id, a name and two lines of data. *)
Lemma decode_reads_back_a_frame_witness :
  decode (frame_text (Some (js "42")) (Some (js "tick"))
            [js "first line"; js "second line"]) [] example_World
  = ((Normal,
      frame_text (Some (js "42")) (Some (js "tick"))
        [js "first line"; js "second line"]),
     with_lastEventId (Some (js "42")) example_World,
     [Emit (js "tick")
        (PMessage (js "message")
           (payload_of (join_lf [js "first line"; js "second line"]))
           (Some (js "42")) (js "http://example.org/stream"))]).
Proof.
  apply (decode_reads_back_a_frame (Some (js "42")) (Some (js "tick"))
           [js "first line"; js "second line"] example_World).
  - discriminate.
  - reflexivity.
  - reflexivity.
  - split; [reflexivity | discriminate].
Defined.

(** ** The state machine *)

(** ** Closed forms of the handlers *)

Lemma xhr_becomes_run (rs st : Z) (text : jsstring) (w : World) :
  xhr_becomes rs st text w = (tt, received rs st text w, []).
Proof. reflexivity. Qed.

Lemma received_xhr (rs st : Z) (text : jsstring) (w : World) (x : Xhr) :
  _xhr (self w) = Some x ->
  received rs st text w
  = with_self (set_xhr (Some {| xhr_readyState := rs; status := st;
                                responseText := text; cache := cache x |})) w.
Proof.
  intros H. unfold received, xhr_becomes, update, world_of, with_self.
  cbn [fst snd self host]. rewrite H. reflexivity.
Qed.

Lemma received_no_xhr (rs st : Z) (text : jsstring) (w : World) :
  _xhr (self w) = None -> received rs st text w = w.
Proof.
  intros H. unfold received, xhr_becomes, update, world_of.
  cbn [fst snd self host]. rewrite H. destruct w; reflexivity.
Qed.

Lemma close_world (error : bool) (w : World) :
  world_of (close error w)
  = if readyState_is (readyState (self w)) CLOSED then w else closed w.
Proof.
  rewrite close_run.
  destruct (readyState_is (readyState (self w)) CLOSED); reflexivity.
Qed.

Lemma close_log_run (error : bool) (w : World) :
  log_of (close error w)
  = if readyState_is (readyState (self w)) CLOSED then []
    else close_log error w.
Proof.
  rewrite close_run.
  destruct (readyState_is (readyState (self w)) CLOSED); reflexivity.
Qed.

Lemma retry_path_run (w : World) :
  (_setReadyState CONNECTING ;; _retry) w
  = (tt, retried (in_state CONNECTING w),
     state_log CONNECTING w
     ++ [SetTimeout (next_handle (host w)) (retry_delay (in_state CONNECTING w))]).
Proof.
  rewrite bind_run, _setReadyState_run.
  change (world_of (tt, in_state CONNECTING w, state_log CONNECTING w))
    with (in_state CONNECTING w).
  cbv beta. rewrite _retry_run, in_state_host. reflexivity.
Qed.

(** [xhr.onerror] on a failure of the transport. *)
Lemma onerror_closed_form (w : World) (x : Xhr) :
  _xhr (self w) = Some x -> status x = 0 ->
  onerror w
  = (tt,
     (if RETRY_ON_NETWORK_ERROR (self w) && below_ceiling (self w)
      then retried (in_state CONNECTING w)
      else world_of (close true w)),
     (if _attempts (self w) =? 0
      then [Emit types.ON_ERROR
              (PError 0 (Some (responseText x)) (JSON.JObject []))]
      else [])
     ++ (if RETRY_ON_NETWORK_ERROR (self w) && below_ceiling (self w)
         then state_log CONNECTING w
              ++ [SetTimeout (next_handle (host w))
                    (retry_delay (in_state CONNECTING w))]
         else log_of (close true w))).
Proof.
  intros Hx Hs. rewrite (onerror_run w x Hx Hs), bind_run.
  assert (E : (if _attempts (self w) =? 0
               then _emitError 0 (Some (responseText x)) else ret tt) w
              = (tt, w,
                 if _attempts (self w) =? 0
                 then [Emit types.ON_ERROR
                         (PError 0 (Some (responseText x)) (JSON.JObject []))]
                 else []))
    by (destruct (_attempts (self w) =? 0); reflexivity).
  rewrite E. unfold result_of, world_of, log_of. cbn [fst snd].
  destruct (RETRY_ON_NETWORK_ERROR (self w) && below_ceiling (self w)).
  - rewrite retry_path_run. reflexivity.
  - destruct (close true w) as [[[] w1] lg1]. reflexivity.
Qed.

Lemma onerror_other (w : World) :
  match _xhr (self w) with
  | Some x => status x <> 0
  | None => True
  end ->
  onerror w = (tt, w, []).
Proof.
  intros H. unfold onerror. rewrite bind_this.
  destruct (_xhr (self w)) as [x|]; [|reflexivity].
  destruct (Z.eqb_spec (status x) 0); [contradiction | reflexivity].
Qed.

(** The handler on a completion with a status that is neither 0 nor 200. *)
Lemma onreadystatechange_server_error (w : World) (x : Xhr) :
  _xhr (self w) = Some x -> xhr_readyState x = 4 ->
  status x <> 0 -> status x <> 200 ->
  onreadystatechange w
  = (Normal,
     (if retries_server_error (status x) (self w)
      then retried (in_state CONNECTING w)
      else world_of (close true w)),
     Emit types.ON_ERROR
       (PError (status x) (Some (responseText x))
          (error_data (status x) (Some (responseText x))))
     :: (if retries_server_error (status x) (self w)
         then state_log CONNECTING w
              ++ [SetTimeout (next_handle (host w))
                    (retry_delay (in_state CONNECTING w))]
         else log_of (close true w))).
Proof.
  intros Hx H4 H0 H200. unfold onreadystatechange. rewrite bind_this, Hx.
  assert (E3 : (xhr_readyState x =? 3) = false) by (rewrite H4; reflexivity).
  assert (E4 : (xhr_readyState x =? 4) = true) by (rewrite H4; reflexivity).
  apply Z.eqb_neq in H0. apply Z.eqb_neq in H200.
  rewrite E3, E4, H0, H200. cbn [orb andb negb].
  unfold retries_server_error, bind, this_, ret.
  change (_emitError (status x) (Some (responseText x)) w)
    with (tt, w, [Emit types.ON_ERROR
                    (PError (status x) (Some (responseText x))
                       (error_data (status x) (Some (responseText x))))]).
  cbv beta iota zeta.
  destruct (RETRY_ON_SERVER_ERROR (self w)
            && includes (SERVER_ERROR_CODES (self w)) (status x)
            && below_ceiling (self w)).
  - rewrite _setReadyState_run. cbv beta iota zeta.
    rewrite _retry_run, in_state_host. cbv beta iota zeta.
    rewrite app_nil_r. reflexivity.
  - destruct (close true w) as [[[] w1] lg1]. cbv beta iota zeta.
    rewrite app_nil_r. reflexivity.
Qed.

(** The handler on text received, and on a completion with status 200. *)
Lemma onreadystatechange_success (w : World) (x : Xhr) :
  _xhr (self w) = Some x ->
  (xhr_readyState x =? 3) || ((xhr_readyState x =? 4) && (status x =? 200))
  = true ->
  onreadystatechange w
  = let r := decode (responseText x) (cache x) (opened (status x) w) in
    let w3 := with_self (set_xhr (Some (set_cache (responseText x) x)))
                (world_of r) in
    match fst (result_of r) with
    | ThrowReferenceError =>
        (ThrowReferenceError, w3, open_log (status x) w ++ log_of r)
    | Normal =>
        if xhr_readyState x =? 4
        then (Normal, polled_again (reconnect_delay w3) w3,
              open_log (status x) w ++ log_of r
              ++ [Emit types.ON_TIMEOUT PTimeout;
                  SetTimeout (next_handle (host w3)) (reconnect_delay w3)])
        else (Normal, w3, open_log (status x) w ++ log_of r)
    end.
Proof.
  intros Hx Hc. unfold onreadystatechange. rewrite bind_this, Hx, Hc.
  assert (E : (if readyState_is (readyState (self w)) CONNECTING
                  && (status x =? 200)
               then _setReadyState OPEN ;;
                    emit types.ON_OPEN (POpen (url (self w))) ;;
                    update (set_attempts 0)
               else ret tt) w
              = (tt, opened (status x) w, open_log (status x) w)).
  { unfold opened, open_log, opens.
    destruct (readyState_is (readyState (self w)) CONNECTING) eqn:Ec;
      [|reflexivity].
    destruct (status x =? 200); [|reflexivity]. cbn [andb].
    change (_setReadyState OPEN ;; emit types.ON_OPEN (POpen (url (self w))) ;;
            update (set_attempts 0))
      with (bind (_setReadyState OPEN)
              (fun _ => bind (emit types.ON_OPEN (POpen (url (self w))))
                          (fun _ => update (set_attempts 0)))).
    rewrite bind_run, _setReadyState_run.
    apply readyState_is_true in Ec.
    unfold state_log, in_state. rewrite Ec. reflexivity. }
  unfold bind at 1. rewrite E. cbv zeta. unfold bind at 1.
  pose proof (decode_cache (responseText x) (cache x) (opened (status x) w))
    as Hcache.
  destruct (decode (responseText x) (cache x) (opened (status x) w))
    as [[[c newcache] w1] lg1].
  unfold result_of, world_of, log_of in *. cbn [fst snd] in *. subst newcache.
  destruct c.
  - destruct (xhr_readyState x =? 4); [reflexivity|].
    unfold bind, update, ret. cbv beta iota zeta. cbn [app].
    rewrite app_nil_r. reflexivity.
  - unfold bind, update, ret. cbv beta iota zeta. cbn [app].
    rewrite app_nil_r. reflexivity.
Qed.

(** The handler in every other case: before readyState 3, or on a
    completion with status 0. *)
Lemma onreadystatechange_idle (w : World) :
  match _xhr (self w) with
  | Some x =>
      (xhr_readyState x =? 3) || ((xhr_readyState x =? 4) && (status x =? 200))
      = false
      /\ ((xhr_readyState x =? 4) && negb (status x =? 0) = false)
  | None => True
  end ->
  onreadystatechange w = (Normal, w, []).
Proof.
  intros H. unfold onreadystatechange. rewrite bind_this.
  destruct (_xhr (self w)) as [x|]; [|reflexivity].
  destruct H as [H1 H2]. rewrite H1.
  destruct (xhr_readyState x =? 4); [|reflexivity].
  cbn [andb] in H2. rewrite H2. reflexivity.
Qed.

Lemma open_world (w : World) :
  world_of (open w)
  = if busy (self w) then w else world_of (_poll (in_state CONNECTING w)).
Proof.
  unfold busy. destruct (request_active (self w) || timer_set (self w)) eqn:E.
  - rewrite (open_busy w E). reflexivity.
  - rewrite (open_idle w E), world_bind, _setReadyState_run. reflexivity.
Qed.

Lemma destroy_world (w : World) :
  world_of (destroy w) = world_of (close false w).
Proof. unfold destroy. rewrite world_bind. reflexivity. Qed.

Lemma timer_world (handle : nat) (w : World) :
  world_of (step (Timer_fires handle) w)
  = if timer_pending handle (host w)
    then world_of (_poll {| self := self w;
                            host := drop_timer (Some handle) (host w) |})
    else w.
Proof.
  simpl step. destruct (timer_pending handle (host w)); [|reflexivity].
  rewrite !world_bind. reflexivity.
Qed.

Lemma step_error_world (st : Z) (text : jsstring) (w : World) :
  world_of (step (Xhr_error st text) w)
  = world_of (onerror (received 4 st text w)).
Proof. simpl step. rewrite !world_bind. reflexivity. Qed.

Lemma step_readystatechange_world (rs st : Z) (text : jsstring) (w : World) :
  world_of (step (Xhr_readystatechange rs st text) w)
  = world_of (onreadystatechange (received rs st text w)).
Proof. simpl step. rewrite !world_bind. reflexivity. Qed.

(** ** What the methods leave alone *)

Section Kept.

Variable T : Type.
Variable q : EventSource -> T.

Hypothesis q_readyState : forall v e, q (set_readyState v e) = q e.
Hypothesis q_pollTimer : forall v e, q (set_pollTimer v e) = q e.
Hypothesis q_xhr : forall v e, q (set_xhr v e) = q e.
Hypothesis q_attempts : forall v e, q (set_attempts v e) = q e.

Lemma kept_in_state (s : ReadyState) (w : World) :
  q (self (in_state s w)) = q (self w).
Proof.
  unfold in_state. destruct (readyState_is (readyState (self w)) s);
    [reflexivity|]. apply q_readyState.
Qed.

Lemma kept_closed (w : World) : q (self (closed w)) = q (self w).
Proof.
  unfold closed. cbn [self].
  rewrite q_attempts, q_xhr, q_pollTimer, q_readyState. reflexivity.
Qed.

Lemma kept_retried (w : World) : q (self (retried w)) = q (self w).
Proof.
  unfold retried. cbn [self]. rewrite q_pollTimer, q_attempts. reflexivity.
Qed.

Lemma kept_polled_again (d : Z) (w : World) :
  q (self (polled_again d w)) = q (self w).
Proof. unfold polled_again. cbn [self]. apply q_pollTimer. Qed.

Lemma kept_opened (st : Z) (w : World) :
  q (self (opened st w)) = q (self w).
Proof.
  unfold opened. destruct (opens st w); [|reflexivity].
  unfold with_self. cbn [self]. rewrite q_attempts. apply kept_in_state.
Qed.

Lemma kept_received (rs st : Z) (text : jsstring) (w : World) :
  q (self (received rs st text w)) = q (self w).
Proof.
  destruct (_xhr (self w)) as [x|] eqn:E.
  - rewrite (received_xhr rs st text w x E). apply q_xhr.
  - rewrite (received_no_xhr rs st text w E). reflexivity.
Qed.

Lemma kept_close (error : bool) (w : World) :
  q (self (world_of (close error w))) = q (self w).
Proof.
  rewrite close_world.
  destruct (readyState_is (readyState (self w)) CLOSED);
    [reflexivity | apply kept_closed].
Qed.

Lemma kept_poll (w : World) : q (self (world_of (_poll w))) = q (self w).
Proof.
  rewrite _poll_world.
  destruct (readyState_is (readyState (self w)) CLOSED); [reflexivity|].
  destruct (request_throws (host w)); [apply kept_close | apply q_xhr].
Qed.

Lemma kept_open (w : World) : q (self (world_of (open w))) = q (self w).
Proof.
  rewrite open_world. destruct (busy (self w)); [reflexivity|].
  rewrite kept_poll. apply kept_in_state.
Qed.

Lemma kept_retry_path (w : World) :
  q (self (retried (in_state CONNECTING w))) = q (self w).
Proof. rewrite kept_retried. apply kept_in_state. Qed.

Lemma kept_onerror (w : World) : q (self (world_of (onerror w))) = q (self w).
Proof.
  destruct (_xhr (self w)) as [x|] eqn:Hx.
  - destruct (Z.eq_dec (status x) 0) as [Hs|Hs].
    + rewrite (onerror_closed_form w x Hx Hs).
      unfold world_of. cbn [fst snd].
      destruct (RETRY_ON_NETWORK_ERROR (self w) && below_ceiling (self w));
        [apply kept_retry_path | apply kept_close].
    + rewrite onerror_other; [reflexivity|]. rewrite Hx. exact Hs.
  - rewrite onerror_other; [reflexivity|]. rewrite Hx. exact I.
Qed.

Lemma kept_timer (handle : nat) (w : World) :
  q (self (world_of (step (Timer_fires handle) w))) = q (self w).
Proof.
  rewrite timer_world. destruct (timer_pending handle (host w));
    [|reflexivity].
  rewrite kept_poll. reflexivity.
Qed.

(** The three ways of the response handler. *)
Lemma onreadystatechange_cases (w : World) :
  onreadystatechange w = (Normal, w, [])
  \/ (exists x, _xhr (self w) = Some x
        /\ (xhr_readyState x =? 3)
           || ((xhr_readyState x =? 4) && (status x =? 200)) = true)
  \/ (exists x, _xhr (self w) = Some x /\ xhr_readyState x = 4
        /\ status x <> 0 /\ status x <> 200).
Proof.
  destruct (_xhr (self w)) as [x|] eqn:Hx.
  - destruct ((xhr_readyState x =? 3)
              || ((xhr_readyState x =? 4) && (status x =? 200))) eqn:E.
    + right. left. exists x. split; [reflexivity | exact E].
    + destruct ((xhr_readyState x =? 4) && negb (status x =? 0)) eqn:E'.
      * right. right. exists x. apply andb_prop in E'. destruct E' as [E4 E0].
        apply Z.eqb_eq in E4. apply negb_true_iff, Z.eqb_neq in E0.
        repeat split; try assumption.
        intros H2. rewrite E4, H2 in E. discriminate E.
      * left. apply onreadystatechange_idle. rewrite Hx. split; assumption.
  - left. apply onreadystatechange_idle. rewrite Hx. exact I.
Qed.

Lemma kept_decode (text cache : jsstring) (w : World) :
  (forall v e, q (set_lastEventId v e) = q e) ->
  q (self (world_of (decode text cache w))) = q (self w).
Proof.
  intros q_last. destruct (decode_frame text cache w) as [H _].
  apply (f_equal fst) in H. cbn [fst outside_decoder] in H.
  rewrite <- (q_last None (self (world_of (decode text cache w)))), H.
  apply q_last.
Qed.

Lemma kept_onreadystatechange (w : World) :
  (forall v e, q (set_lastEventId v e) = q e) ->
  q (self (world_of (onreadystatechange w))) = q (self w).
Proof.
  intros q_last.
  destruct (onreadystatechange_cases w)
    as [E | [(x & Hx & Hc) | (x & Hx & H4 & H0 & H200)]].
  - rewrite E. reflexivity.
  - rewrite (onreadystatechange_success w x Hx Hc). cbv zeta.
    assert (H3 : q (self (with_self
                            (set_xhr (Some (set_cache (responseText x) x)))
                            (world_of (decode (responseText x) (cache x)
                                         (opened (status x) w)))))
                 = q (self w)).
    { unfold with_self. cbn [self]. rewrite q_xhr, (kept_decode _ _ _ q_last).
      apply kept_opened. }
    destruct (fst (result_of (decode (responseText x) (cache x)
                                (opened (status x) w)))).
    + destruct (xhr_readyState x =? 4).
      * unfold world_of at 1. cbn [fst snd]. rewrite kept_polled_again.
        exact H3.
      * exact H3.
    + exact H3.
  - rewrite (onreadystatechange_server_error w x Hx H4 H0 H200).
    unfold world_of at 1. cbn [fst snd].
    destruct (retries_server_error (status x) (self w));
      [apply kept_retry_path | apply kept_close].
Qed.

Lemma kept_step_outside_the_response (i : Input) (w : World) :
  from_the_response i = false ->
  q (self (world_of (step i w))) = q (self w).
Proof.
  intros H. destruct i as [|error| |rs st text|st text|handle].
  - simpl step. rewrite world_bind. apply kept_open.
  - simpl step. rewrite world_bind. apply kept_close.
  - simpl step. rewrite world_bind.
    change (world_of (ret Normal (world_of (destroy w))))
      with (world_of (destroy w)).
    rewrite destroy_world. apply kept_close.
  - discriminate H.
  - rewrite step_error_world, kept_onerror. apply kept_received.
  - apply kept_timer.
Qed.

Lemma kept_step (i : Input) (w : World) :
  (forall v e, q (set_lastEventId v e) = q e) ->
  q (self (world_of (step i w))) = q (self w).
Proof.
  intros q_last. destruct i as [|error| |rs st text|st text|handle];
    try (apply kept_step_outside_the_response; reflexivity).
  rewrite step_readystatechange_world, (kept_onreadystatechange _ q_last).
  apply kept_received.
Qed.

Lemma kept_run (inputs : list Input) :
  (forall v e, q (set_lastEventId v e) = q e) ->
  forall w : World, q (self (world_of (run inputs w))) = q (self w).
Proof.
  intros q_last. induction inputs as [|i rest IH]; intros w; [reflexivity|].
  simpl run. rewrite world_bind, IH. apply kept_step, q_last.
Qed.

End Kept.

(** X9. No input changes what the constructor has set: the three
    intervals, the ceiling of the attempts, the two retry flags, the
    status codes, the url and the path are the same after every run. *)
Theorem settings_never_change :
  forall (inputs : list Input) (w : World),
    settings (self (world_of (run inputs w))) = settings (self w).
Proof.
  intros inputs w. apply (kept_run _ settings); reflexivity.
Qed.

(** X10. [lastEventId] changes in the response handler only: a call of
    [open], [close] or [destroy], an error event of the request and a
    timer leave it as it was, so it outlives a close and a
    reconnection. *)
Theorem lastEventId_changes_in_the_response_handler_only :
  forall (i : Input) (w : World),
    from_the_response i = false ->
    lastEventId (self (world_of (step i w))) = lastEventId (self w).
Proof.
  intros i w H.
  apply (kept_step_outside_the_response _ lastEventId); try reflexivity.
  exact H.
Qed.

(** X10 at a call of [close] on a client that holds the id 7. *)
Lemma lastEventId_changes_in_the_response_handler_only_witness :
  lastEventId (self (world_of (step (Call_close false)
                                 (with_lastEventId (Some (js "7"))
                                    connecting_World))))
  = Some (js "7").
Proof.
  exact (lastEventId_changes_in_the_response_handler_only
           (Call_close false)
           (with_lastEventId (Some (js "7")) connecting_World) eq_refl).
Defined.

(** ** The retry counter *)

Lemma attempts_bounded_counter (e e' : EventSource) :
  counter e' = counter e -> attempts_bounded e -> attempts_bounded e'.
Proof.
  unfold counter, attempts_bounded. intros H. injection H as Ha Hm.
  rewrite Ha, Hm. exact (fun x => x).
Qed.

Lemma attempts_bounded_reset (e : EventSource) :
  attempts_bounded (set_attempts 0 e).
Proof. unfold attempts_bounded. cbn [_attempts MAX_ATTEMPTS set_attempts]. lia. Qed.

Lemma attempts_bounded_closed (w : World) : attempts_bounded (self (closed w)).
Proof. apply attempts_bounded_reset. Qed.

Lemma attempts_bounded_retried (w : World) :
  below_ceiling (self w) = true ->
  attempts_bounded (self w) -> attempts_bounded (self (retried w)).
Proof.
  unfold below_ceiling, attempts_bounded, retried.
  cbn [self _attempts MAX_ATTEMPTS set_attempts set_pollTimer].
  intros H [H0 H1]. apply orb_prop in H.
  destruct H as [H|H]; [apply Z.ltb_lt in H | apply Z.ltb_lt in H]; lia.
Qed.

Lemma counter_in_state (s : ReadyState) (w : World) :
  counter (self (in_state s w)) = counter (self w).
Proof. apply (kept_in_state _ counter). reflexivity. Qed.

Lemma attempts_bounded_retry_path (w : World) :
  below_ceiling (self w) = true ->
  attempts_bounded (self w) ->
  attempts_bounded (self (retried (in_state CONNECTING w))).
Proof.
  intros Hb H. pose proof (counter_in_state CONNECTING w) as Hc.
  apply attempts_bounded_retried.
  - unfold below_ceiling in *. unfold counter in Hc. injection Hc as Ha Hm.
    rewrite Ha, Hm. exact Hb.
  - apply (attempts_bounded_counter _ _ Hc), H.
Qed.

Lemma attempts_bounded_close (error : bool) (w : World) :
  attempts_bounded (self w) -> attempts_bounded (self (world_of (close error w))).
Proof.
  intros H. rewrite close_world.
  destruct (readyState_is (readyState (self w)) CLOSED);
    [exact H | apply attempts_bounded_closed].
Qed.

Lemma attempts_bounded_poll (w : World) :
  attempts_bounded (self w) -> attempts_bounded (self (world_of (_poll w))).
Proof.
  intros H. rewrite _poll_world.
  destruct (readyState_is (readyState (self w)) CLOSED); [exact H|].
  destruct (request_throws (host w));
    [apply attempts_bounded_close | ]; exact H.
Qed.

Lemma attempts_bounded_received (rs st : Z) (text : jsstring) (w : World) :
  attempts_bounded (self w) ->
  attempts_bounded (self (received rs st text w)).
Proof.
  apply attempts_bounded_counter.
  apply (kept_received _ counter). reflexivity.
Qed.

Lemma attempts_bounded_opened (st : Z) (w : World) :
  attempts_bounded (self w) -> attempts_bounded (self (opened st w)).
Proof.
  intros H. unfold opened. destruct (opens st w); [|exact H].
  apply attempts_bounded_reset.
Qed.

Lemma attempts_bounded_onerror (w : World) :
  attempts_bounded (self w) -> attempts_bounded (self (world_of (onerror w))).
Proof.
  intros H. destruct (_xhr (self w)) as [x|] eqn:Hx.
  - destruct (Z.eq_dec (status x) 0) as [Hs|Hs].
    + rewrite (onerror_closed_form w x Hx Hs).
      unfold world_of. cbn [fst snd].
      destruct (RETRY_ON_NETWORK_ERROR (self w) && below_ceiling (self w))
        eqn:E.
      * apply andb_prop in E. destruct E as [_ E].
        apply attempts_bounded_retry_path; assumption.
      * apply attempts_bounded_close, H.
    + rewrite onerror_other; [exact H|]. rewrite Hx. exact Hs.
  - rewrite onerror_other; [exact H|]. rewrite Hx. exact I.
Qed.

Lemma attempts_bounded_onreadystatechange (w : World) :
  attempts_bounded (self w) ->
  attempts_bounded (self (world_of (onreadystatechange w))).
Proof.
  intros H.
  destruct (onreadystatechange_cases w)
    as [E | [(x & Hx & Hc) | (x & Hx & H4 & H0 & H200)]].
  - rewrite E. exact H.
  - rewrite (onreadystatechange_success w x Hx Hc). cbv zeta.
    assert (H3 : attempts_bounded
                   (self (with_self
                            (set_xhr (Some (set_cache (responseText x) x)))
                            (world_of (decode (responseText x) (cache x)
                                         (opened (status x) w)))))).
    { apply (attempts_bounded_counter (self (opened (status x) w)));
        [|apply attempts_bounded_opened, H].
      unfold with_self. cbn [self].
      change (counter (set_xhr ?v ?e)) with (counter e).
      apply (kept_decode _ counter). reflexivity. }
    destruct (fst (result_of (decode (responseText x) (cache x)
                                (opened (status x) w)))).
    + destruct (xhr_readyState x =? 4); exact H3.
    + exact H3.
  - rewrite (onreadystatechange_server_error w x Hx H4 H0 H200).
    unfold world_of at 1. cbn [fst snd].
    destruct (retries_server_error (status x) (self w)) eqn:E.
    + unfold retries_server_error in E.
      apply andb_prop in E. destruct E as [_ E].
      apply attempts_bounded_retry_path; assumption.
    + apply attempts_bounded_close, H.
Qed.

Lemma attempts_bounded_step (i : Input) (w : World) :
  attempts_bounded (self w) -> attempts_bounded (self (world_of (step i w))).
Proof.
  intros H. destruct i as [|error| |rs st text|st text|handle].
  - simpl step. rewrite world_bind.
    change (world_of (ret Normal (world_of (open w)))) with (world_of (open w)).
    rewrite open_world. destruct (busy (self w)); [exact H|].
    apply attempts_bounded_poll.
    apply (attempts_bounded_counter _ _ (counter_in_state CONNECTING w)), H.
  - simpl step. rewrite world_bind. apply attempts_bounded_close, H.
  - simpl step. rewrite world_bind.
    change (world_of (ret Normal (world_of (destroy w))))
      with (world_of (destroy w)).
    rewrite destroy_world. apply attempts_bounded_close, H.
  - rewrite step_readystatechange_world.
    apply attempts_bounded_onreadystatechange, attempts_bounded_received, H.
  - rewrite step_error_world.
    apply attempts_bounded_onerror, attempts_bounded_received, H.
  - rewrite timer_world. destruct (timer_pending handle (host w)); [|exact H].
    apply attempts_bounded_poll. exact H.
Qed.

(** X11. The retry counter stays within its bounds: never negative,
    and never above [MAX_ATTEMPTS] when that is not negative, whatever
    the inputs, the handlers that throw included. *)
Theorem attempts_stay_within_maxAttempts :
  forall (inputs : list Input) (w : World),
    attempts_bounded (self w) ->
    attempts_bounded (self (world_of (run inputs w))).
Proof.
  induction inputs as [|i rest IH]; intros w H; [exact H|].
  simpl run. rewrite world_bind. apply IH, attempts_bounded_step, H.
Qed.

(** X11 at three failed attempts of a client with [maxAttempts: 3]. *)
Lemma attempts_stay_within_maxAttempts_witness :
  attempts_bounded
    (self (world_of (run three_failed_attempts
                       (new_World
                          (three_attempts_Options
                             (default_Options (js "http://example.org/stream")))
                          [] no_globals)))).
Proof.
  apply attempts_stay_within_maxAttempts.
  unfold attempts_bounded. simpl. lia.
Defined.

(** ** Timers *)

Lemma one_timer_none (w : World) : timers (host w) = [] -> one_timer w.
Proof. unfold one_timer. intros H. rewrite H. exact I. Qed.

Lemma one_timer_active (w : World) :
  one_timer w -> request_active (self w) = true -> timers (host w) = [].
Proof.
  unfold one_timer. destruct (timers (host w)) as [|t [|t' ts]];
    [reflexivity | | contradiction].
  intros [_ H] Ha. rewrite H in Ha. discriminate Ha.
Qed.

Lemma one_timer_idle (w : World) :
  one_timer w -> timer_set (self w) = false -> timers (host w) = [].
Proof.
  unfold one_timer, timer_set. destruct (timers (host w)) as [|t [|t' ts]];
    [reflexivity | | contradiction].
  intros [H _] Hs. rewrite H in Hs. discriminate Hs.
Qed.

Lemma one_timer_closed (w : World) :
  one_timer w -> timers (host (closed w)) = [].
Proof.
  unfold one_timer, closed. cbn [host drop_timer timers].
  destruct (timers (host w)) as [|t [|t' ts]]; [ | | contradiction].
  - intros _. destruct (_pollTimer (self w)); reflexivity.
  - intros [H _]. rewrite H. cbn [remove_timer filter].
    rewrite Nat.eqb_refl. reflexivity.
Qed.

Lemma one_timer_close (error : bool) (w : World) :
  one_timer w -> one_timer (world_of (close error w)).
Proof.
  intros H. rewrite close_world.
  destruct (readyState_is (readyState (self w)) CLOSED); [exact H|].
  apply one_timer_none, one_timer_closed, H.
Qed.

Lemma timers_close_none (error : bool) (w : World) :
  timers (host w) = [] -> timers (host (world_of (close error w))) = [].
Proof.
  intros H. rewrite close_world.
  destruct (readyState_is (readyState (self w)) CLOSED); [exact H|].
  apply one_timer_closed, one_timer_none, H.
Qed.

Lemma timers_poll_none (w : World) :
  timers (host w) = [] -> timers (host (world_of (_poll w))) = [].
Proof.
  intros H. rewrite _poll_world.
  destruct (readyState_is (readyState (self w)) CLOSED); [exact H|].
  destruct (request_throws (host w)); [apply timers_close_none, H | exact H].
Qed.

Lemma one_timer_retried (w : World) :
  timers (host w) = [] -> request_active (self w) = false ->
  one_timer (retried (in_state CONNECTING w)).
Proof.
  intros Ht Ha. unfold one_timer, retried.
  cbn [host self add_timer pop_draw timers]. rewrite in_state_host, Ht.
  cbn [app fst]. split; [reflexivity|].
  change (request_active (set_pollTimer ?v (set_attempts ?a ?e)))
    with (request_active e).
  rewrite (kept_in_state _ request_active); [exact Ha | reflexivity].
Qed.

Lemma one_timer_polled_again (d : Z) (w : World) :
  timers (host w) = [] -> request_active (self w) = false ->
  one_timer (polled_again d w).
Proof.
  intros Ht Ha. unfold one_timer, polled_again.
  cbn [host self add_timer pop_draw timers]. rewrite Ht.
  cbn [app fst]. split; [reflexivity | exact Ha].
Qed.

Lemma host_opened (st : Z) (w : World) : host (opened st w) = host w.
Proof.
  unfold opened. destruct (opens st w); [|reflexivity].
  unfold with_self. cbn [host]. apply in_state_host.
Qed.

Lemma timers_decode (text cache : jsstring) (w : World) :
  timers (host (world_of (decode text cache w))) = timers (host w).
Proof.
  destruct (decode_frame text cache w) as [H _].
  apply (f_equal snd) in H. cbn [snd outside_decoder] in H.
  apply (f_equal timers) in H. exact H.
Qed.

Lemma host_received (rs st : Z) (text : jsstring) (w : World) :
  host (received rs st text w) = host w.
Proof. reflexivity. Qed.

(** After an event of the request at readyState 4, no request is on its
    way. *)
Lemma received_4_not_active (st : Z) (text : jsstring) (w : World) :
  request_active (self (received 4 st text w)) = false.
Proof.
  destruct (_xhr (self w)) as [x|] eqn:E.
  - rewrite (received_xhr 4 st text w x E). reflexivity.
  - rewrite (received_no_xhr 4 st text w E).
    unfold request_active. rewrite E. reflexivity.
Qed.

Lemma one_timer_onerror (w : World) :
  timers (host w) = [] -> request_active (self w) = false ->
  one_timer (world_of (onerror w)).
Proof.
  intros Ht Ha. destruct (_xhr (self w)) as [x|] eqn:Hx.
  - destruct (Z.eq_dec (status x) 0) as [Hs|Hs].
    + rewrite (onerror_closed_form w x Hx Hs).
      unfold world_of at 1. cbn [fst snd].
      destruct (RETRY_ON_NETWORK_ERROR (self w) && below_ceiling (self w)).
      * apply one_timer_retried; assumption.
      * apply one_timer_none, timers_close_none, Ht.
    + rewrite onerror_other; [apply one_timer_none, Ht|]. rewrite Hx. exact Hs.
  - rewrite onerror_other; [apply one_timer_none, Ht|]. rewrite Hx. exact I.
Qed.

(** The response handler, when no timer is pending: none is pending
    after text was received, and after a completion that the handler
    ends without an exception the invariant holds. *)
Lemma one_timer_onreadystatechange (w : World) (x : Xhr) :
  _xhr (self w) = Some x ->
  timers (host w) = [] ->
  xhr_readyState x = 3
  \/ (xhr_readyState x = 4 /\ result_of (onreadystatechange w) = Normal) ->
  one_timer (world_of (onreadystatechange w)).
Proof.
  intros Hx Ht Hcase.
  destruct (onreadystatechange_cases w)
    as [E | [(x' & Hx' & Hc) | (x' & Hx' & H4 & H0 & H200)]].
  - rewrite E. apply one_timer_none, Ht.
  - rewrite Hx in Hx'. injection Hx' as <-.
    rewrite (onreadystatechange_success w x Hx Hc) in *. cbv zeta in *.
    set (r := decode (responseText x) (cache x) (opened (status x) w)) in *.
    set (w3 := with_self (set_xhr (Some (set_cache (responseText x) x)))
                 (world_of r)) in *.
    assert (H3 : timers (host w3) = []).
    { subst w3 r. unfold with_self. cbn [host].
      rewrite timers_decode, host_opened. exact Ht. }
    destruct (fst (result_of r)).
    + destruct (xhr_readyState x =? 4) eqn:E4.
      * unfold world_of at 1. cbn [fst snd].
        apply one_timer_polled_again; [exact H3|].
        subst w3. unfold with_self, request_active.
        cbn [self _xhr set_xhr set_cache xhr_readyState].
        rewrite E4. reflexivity.
      * apply one_timer_none, H3.
    + apply one_timer_none, H3.
  - rewrite Hx in Hx'. injection Hx' as <-.
    rewrite (onreadystatechange_server_error w x Hx H4 H0 H200).
    unfold world_of at 1. cbn [fst snd].
    destruct (retries_server_error (status x) (self w)).
    + apply one_timer_retried; [exact Ht|].
      unfold request_active. rewrite Hx, H4. reflexivity.
    + apply one_timer_none, timers_close_none, Ht.
Qed.

Lemma one_timer_xhr_event (rs st : Z) (text : jsstring) (w : World) :
  one_timer w -> request_active (self w) = true ->
  rs = 3
  \/ (rs = 4 /\ result_of (step (Xhr_readystatechange rs st text) w) = Normal) ->
  one_timer (world_of (step (Xhr_readystatechange rs st text) w)).
Proof.
  intros H Ha Hcase. destruct (request_active_xhr _ Ha) as [x Hx].
  pose proof (one_timer_active w H Ha) as Ht.
  rewrite step_readystatechange_world.
  apply (one_timer_onreadystatechange _
           {| xhr_readyState := rs; status := st; responseText := text;
              cache := cache x |}).
  - rewrite (received_xhr rs st text w x Hx). reflexivity.
  - exact Ht.
  - destruct Hcase as [H3 | [H4 Hn]]; [left; exact H3 | right].
    split; [exact H4|]. simpl step in Hn. rewrite result_bind in Hn.
    exact Hn.
Qed.

Lemma network_failure_world (w : World) :
  world_of (run network_failure w)
  = world_of (onerror (received 4 0 [] (received 4 0 [] w))).
Proof.
  change (run network_failure w)
    with (bind (step (Xhr_readystatechange 4 0 []))
            (fun _ => bind (step (Xhr_error 0 [])) (fun _ => ret tt)) w).
  rewrite world_bind, step_readystatechange_world.
  rewrite (onreadystatechange_idle (received 4 0 [] w)).
  - change (world_of (Normal, received 4 0 [] w, @nil Effect))
      with (received 4 0 [] w).
    rewrite world_bind, step_error_world. reflexivity.
  - destruct (_xhr (self w)) as [x|] eqn:E.
    + rewrite (received_xhr 4 0 [] w x E). cbn. split; reflexivity.
    + rewrite (received_no_xhr 4 0 [] w E), E. exact I.
Qed.

Lemma one_timer_network_failure (w : World) :
  one_timer w -> request_active (self w) = true ->
  one_timer (world_of (run network_failure w)).
Proof.
  intros H Ha. rewrite network_failure_world.
  apply one_timer_onerror.
  - exact (one_timer_active w H Ha).
  - apply received_4_not_active.
Qed.

Lemma timer_pending_one (handle : nat) (w : World) :
  one_timer w -> timer_pending handle (host w) = true ->
  timers (drop_timer (Some handle) (host w)) = [].
Proof.
  unfold one_timer, timer_pending. cbn [drop_timer timers remove_timer].
  destruct (timers (host w)) as [|t [|t' ts]]; [reflexivity | | contradiction].
  intros _ Hp. cbn [existsb] in Hp. rewrite orb_false_r in Hp.
  cbn [filter]. rewrite Hp. reflexivity.
Qed.

Lemma one_timer_timer (handle : nat) (w : World) :
  one_timer w -> one_timer (world_of (step (Timer_fires handle) w)).
Proof.
  intros H. rewrite timer_world.
  destruct (timer_pending handle (host w)) eqn:Hp; [|exact H].
  apply one_timer_none, timers_poll_none. cbn [host].
  apply timer_pending_one; assumption.
Qed.

Lemma one_timer_open (w : World) :
  one_timer w -> one_timer (world_of (open w)).
Proof.
  intros H. rewrite open_world. destruct (busy (self w)) eqn:Eb; [exact H|].
  unfold busy in Eb. apply orb_false_elim in Eb. destruct Eb as [_ Es].
  apply one_timer_none, timers_poll_none. rewrite in_state_host.
  apply one_timer_idle; assumption.
Qed.

Lemma one_timer_move (m : Move) (w : World) :
  one_timer w -> one_timer (move w m).
Proof.
  intros H. unfold move. destruct (possible m w) eqn:P; [|exact H].
  destruct m as [|error| |st text|st text| |handle]; simpl inputs_of.
  - rewrite world_run_one. simpl step. rewrite world_bind.
    apply one_timer_open, H.
  - rewrite world_run_one. simpl step. rewrite world_bind.
    apply one_timer_close, H.
  - rewrite world_run_one. simpl step. rewrite world_bind.
    change (world_of (ret Normal (world_of (destroy w))))
      with (world_of (destroy w)).
    rewrite destroy_world. apply one_timer_close, H.
  - rewrite world_run_one. simpl in P.
    apply one_timer_xhr_event; [exact H | exact P | left; reflexivity].
  - rewrite world_run_one. unfold possible in P.
    apply andb_prop in P. destruct P as [P Pn].
    apply andb_prop in P. destruct P as [Pa _].
    apply one_timer_xhr_event; [exact H | exact Pa |]. right.
    split; [reflexivity|].
    unfold completes_normally in Pn.
    destruct (result_of (step (Xhr_readystatechange 4 st text) w));
      [reflexivity | discriminate].
  - apply one_timer_network_failure; [exact H | exact P].
  - rewrite world_run_one. apply one_timer_timer, H.
Qed.

(** X12. Under the moves of a host that keeps to the protocol of the
    request, every call of [open], [close] and [destroy] being made
    between two handlers (no listener calls a method of the client while
    an event is published to it), at most one timer is pending at any
    time, [_pollTimer] holds its handle, and no request is on its way
    while it is pending. *)
Theorem at_most_one_timer_is_pending :
  forall (ms : list Move) (w : World),
    one_timer w -> one_timer (play ms w).
Proof.
  unfold play. induction ms as [|m ms IH]; intros w H; simpl.
  - exact H.
  - apply IH, one_timer_move, H.
Qed.

(** X12 at a failure, the retry and a close by the peer. *)
Lemma at_most_one_timer_is_pending_witness :
  one_timer (play [Calls_open; Fails; Timer_due 1; Completes 200 []]
               example_World).
Proof.
  apply at_most_one_timer_is_pending. exact I.
Defined.

(** ** The response handler, case by case *)

Lemma is_frame_of_address (w w' : World) (e : Effect) :
  url (self w') = url (self w) -> path (self w') = path (self w) ->
  is_frame_of w' e -> is_frame_of w e.
Proof.
  intros Hu Hp [name [d [id He]]]. exists name, d, id.
  rewrite He, Hu, Hp. reflexivity.
Qed.

Lemma decode_log_frames (text cache : jsstring) (w : World) :
  Forall (is_frame_of w) (log_of (decode text cache w)).
Proof.
  unfold decode. rewrite bind_run. unfold log_of at 1. simpl snd.
  rewrite app_nil_r. apply for_parts_publishes_frames.
Qed.

Lemma step_readystatechange_run (rs st : Z) (text : jsstring) (w : World) :
  step (Xhr_readystatechange rs st text) w
  = onreadystatechange (received rs st text w).
Proof.
  simpl step. unfold bind. rewrite xhr_becomes_run.
  destruct (onreadystatechange (received rs st text w)) as [[c w1] lg].
  reflexivity.
Qed.

Lemma step_error_run (st : Z) (text : jsstring) (w : World) :
  step (Xhr_error st text) w
  = (Normal, world_of (onerror (received 4 st text w)),
     log_of (onerror (received 4 st text w))).
Proof.
  simpl step. unfold bind. rewrite xhr_becomes_run.
  destruct (onerror (received 4 st text w)) as [[[] w1] lg].
  unfold ret, world_of, log_of. cbn [fst snd app]. rewrite app_nil_r.
  reflexivity.
Qed.

Lemma opens_received (rs st st' : Z) (text : jsstring) (w : World) :
  opens st' (received rs st text w) = opens st' w.
Proof.
  unfold opens. f_equal. f_equal.
  apply (kept_received _ readyState). reflexivity.
Qed.

Lemma open_log_received (rs st st' : Z) (text : jsstring) (w : World) :
  open_log st' (received rs st text w) = open_log st' w.
Proof.
  unfold open_log. rewrite opens_received.
  rewrite (kept_received _ readyState), (kept_received _ url); reflexivity.
Qed.

Lemma readyState_opened (st : Z) (w : World) :
  readyState (self (opened st w))
  = if opens st w then Some OPEN else readyState (self w).
Proof.
  unfold opened. destruct (opens st w); [|reflexivity].
  unfold with_self. cbn [self].
  change (readyState (set_attempts ?v ?e)) with (readyState e).
  apply in_state_readyState.
Qed.

Lemma attempts_opened (st : Z) (w : World) :
  _attempts (self (opened st w))
  = if opens st w then 0 else _attempts (self w).
Proof. unfold opened. destruct (opens st w); reflexivity. Qed.

(** What a decoder call leaves of the client it started from. *)
Lemma decode_keeps (text cache : jsstring) (w : World) :
  readyState (self (world_of (decode text cache w))) = readyState (self w)
  /\ _attempts (self (world_of (decode text cache w))) = _attempts (self w)
  /\ _pollTimer (self (world_of (decode text cache w))) = _pollTimer (self w)
  /\ url (self (world_of (decode text cache w))) = url (self w)
  /\ path (self (world_of (decode text cache w))) = path (self w).
Proof.
  repeat split.
  - apply (kept_decode _ readyState). reflexivity.
  - apply (kept_decode _ _attempts). reflexivity.
  - apply (kept_decode _ _pollTimer). reflexivity.
  - apply (kept_decode _ url). reflexivity.
  - apply (kept_decode _ path). reflexivity.
Qed.

(** X13. Text received (readyState 3): a client that is CONNECTING
    becomes OPEN on status 200, publishes [state] and [open] before any
    message and has its retry counter reset; in every other case the
    state and the counter are kept. Besides that the call publishes
    messages of the stream only and sets no timer, and the answers that
    follow publish no second [open]. *)
Theorem text_received_opens_a_connecting_client_once :
  forall (w : World) (x : Xhr) (st : Z) (text : jsstring),
    _xhr (self w) = Some x ->
    exists fr : list Effect,
      log_of (step (Xhr_readystatechange 3 st text) w)
      = (if opens st w
         then [Emit types.ON_STATE (PState OPEN (Some CONNECTING));
               Emit types.ON_OPEN (POpen (url (self w)))]
         else [])
        ++ fr
      /\ Forall (is_frame_of w) fr
      /\ readyState (self (world_of (step (Xhr_readystatechange 3 st text) w)))
         = (if opens st w then Some OPEN else readyState (self w))
      /\ _attempts (self (world_of (step (Xhr_readystatechange 3 st text) w)))
         = (if opens st w then 0 else _attempts (self w))
      /\ timers (host (world_of (step (Xhr_readystatechange 3 st text) w)))
         = timers (host w)
      /\ opens st (world_of (step (Xhr_readystatechange 3 st text) w)) = false.
Proof.
  intros w x st text Hx. rewrite step_readystatechange_run.
  set (x' := {| xhr_readyState := 3; status := st; responseText := text;
                cache := cache x |}).
  pose proof (received_xhr 3 st text w x Hx) as Hr. fold x' in Hr.
  assert (Hx' : _xhr (self (received 3 st text w)) = Some x')
    by (rewrite Hr; reflexivity).
  rewrite (onreadystatechange_success _ x' Hx' eq_refl). cbv zeta.
  cbn [xhr_readyState status responseText cache x'].
  change (3 =? 4) with false. cbv iota.
  set (w1 := opened st (received 3 st text w)).
  set (r := decode text (cache x) w1).
  assert (E : (match fst (result_of r) with
               | Normal =>
                   (Normal, with_self (set_xhr (Some (set_cache text x')))
                              (world_of r),
                    open_log st (received 3 st text w) ++ log_of r)
               | ThrowReferenceError =>
                   (ThrowReferenceError,
                    with_self (set_xhr (Some (set_cache text x'))) (world_of r),
                    open_log st (received 3 st text w) ++ log_of r)
               end)
              = (fst (result_of r),
                 with_self (set_xhr (Some (set_cache text x'))) (world_of r),
                 open_log st (received 3 st text w) ++ log_of r))
    by (destruct (fst (result_of r)); reflexivity).
  rewrite E. clear E.
  change (log_of (?a, ?b, ?c)) with c.
  change (world_of (?a, ?b, ?c)) with b.
  cbn [with_self self host].
  change (readyState (set_xhr ?v ?e)) with (readyState e).
  change (_attempts (set_xhr ?v ?e)) with (_attempts e).
  destruct (decode_keeps text (cache x) w1) as (Hs & Ha & _ & Hu & Hp).
  fold r in Hs, Ha, Hu, Hp.
  assert (Ho : opens st (received 3 st text w) = opens st w)
    by apply opens_received.
  exists (log_of r). repeat split.
  - rewrite open_log_received. unfold open_log, opens.
    destruct (readyState_is (readyState (self w)) CONNECTING) eqn:Ec;
      [|reflexivity].
    apply readyState_is_true in Ec. rewrite Ec. reflexivity.
  - eapply Forall_impl; [|apply decode_log_frames].
    intros e. apply is_frame_of_address.
    + subst w1. rewrite (kept_opened _ url); try reflexivity.
      rewrite Hr. reflexivity.
    + subst w1. rewrite (kept_opened _ path); try reflexivity.
      rewrite Hr. reflexivity.
  - rewrite Hs. subst w1. rewrite readyState_opened, Ho.
    rewrite (kept_received _ readyState); reflexivity.
  - rewrite Ha. subst w1. rewrite attempts_opened, Ho.
    rewrite (kept_received _ _attempts); reflexivity.
  - subst r. rewrite timers_decode. subst w1.
    rewrite host_opened. reflexivity.
  - unfold opens at 1, with_self. cbn [self].
    change (readyState (set_xhr ?v ?e)) with (readyState e).
    rewrite Hs. subst w1. rewrite readyState_opened, Ho.
    unfold opens. rewrite (kept_received _ readyState) by reflexivity.
    destruct (readyState_is (readyState (self w)) CONNECTING) eqn:Ec;
      [|cbn [andb]; rewrite Ec; reflexivity].
    destruct (st =? 200); [reflexivity | apply andb_false_r].
Qed.

(** X13 at the first frame of a client that is CONNECTING. *)
Lemma text_received_opens_a_connecting_client_once_witness :
  exists fr : list Effect,
    log_of (step (Xhr_readystatechange 3 200 (js "data: x" ++ [LF; LF]))
              connecting_World)
    = (if opens 200 connecting_World
       then [Emit types.ON_STATE (PState OPEN (Some CONNECTING));
             Emit types.ON_OPEN (POpen (url (self connecting_World)))]
       else [])
      ++ fr
    /\ Forall (is_frame_of connecting_World) fr
    /\ readyState
         (self (world_of (step (Xhr_readystatechange 3 200
                                  (js "data: x" ++ [LF; LF]))
                            connecting_World)))
       = (if opens 200 connecting_World then Some OPEN
          else readyState (self connecting_World))
    /\ _attempts
         (self (world_of (step (Xhr_readystatechange 3 200
                                  (js "data: x" ++ [LF; LF]))
                            connecting_World)))
       = (if opens 200 connecting_World then 0
          else _attempts (self connecting_World))
    /\ timers
         (host (world_of (step (Xhr_readystatechange 3 200
                                  (js "data: x" ++ [LF; LF]))
                            connecting_World)))
       = timers (host connecting_World)
    /\ opens 200 (world_of (step (Xhr_readystatechange 3 200
                                    (js "data: x" ++ [LF; LF]))
                              connecting_World))
       = false.
Proof.
  exact (text_received_opens_a_connecting_client_once
           connecting_World sent_Xhr 200 (js "data: x" ++ [LF; LF]) eq_refl).
Defined.

(** ** Reading the logs of the methods *)

Lemma state_log_quiet (s : ReadyState) (w : World) :
  published types.ON_CLOSE (state_log s w) = []
  /\ scheduled (state_log s w) = []
  /\ requests (state_log s w) = 0%nat.
Proof.
  unfold state_log. destruct (readyState_is (readyState (self w)) s);
    repeat split; reflexivity.
Qed.

Lemma close_log_read (error : bool) (w : World) :
  published types.ON_CLOSE (close_log error w) = [PClose error]
  /\ scheduled (close_log error w) = []
  /\ requests (close_log error w) = 0%nat.
Proof.
  unfold close_log. destruct (_xhr (self w)); repeat split; reflexivity.
Qed.

Lemma retries_server_error_received (rs st st' : Z) (text : jsstring)
      (w : World) :
  retries_server_error st' (self (received rs st text w))
  = retries_server_error st' (self w).
Proof. apply (kept_received _ (retries_server_error st')). reflexivity. Qed.

Lemma readyState_received (rs st : Z) (text : jsstring) (w : World) :
  readyState (self (received rs st text w)) = readyState (self w).
Proof. apply (kept_received _ readyState). reflexivity. Qed.

Lemma retry_delay_in_state_received (rs st : Z) (text : jsstring) (w : World) :
  retry_delay (in_state CONNECTING (received rs st text w))
  = backoffInterval (next_draw (host w)) (_attempts (self w) + 1)
      (MIN_INTERVAL (self w)) (MAX_INTERVAL (self w)).
Proof.
  unfold retry_delay. rewrite in_state_host, host_received.
  rewrite (kept_in_state _ _attempts), (kept_in_state _ MIN_INTERVAL),
    (kept_in_state _ MAX_INTERVAL) by reflexivity.
  rewrite (kept_received _ _attempts), (kept_received _ MIN_INTERVAL),
    (kept_received _ MAX_INTERVAL) by reflexivity.
  reflexivity.
Qed.

(** X14. A completion with a status other than 0 and 200 on a client
    that is not closed publishes one [error] with the status, the body
    and the body parsed as JSON; then, when [retryOnServerError] is set,
    the status is one of [serverErrorCodes] and the ceiling is not
    reached, the client is CONNECTING, the counter is one more and one
    timer is set with the backoff delay of that attempt; otherwise the
    client is CLOSED with [close] published with the error flag, and no
    timer is set. *)
Theorem server_error_is_published_then_retried_or_closed :
  forall (w : World) (x : Xhr) (st : Z) (text : jsstring),
    _xhr (self w) = Some x ->
    st <> 0 -> st <> 200 ->
    readyState_is (readyState (self w)) CLOSED = false ->
    result_of (step (Xhr_readystatechange 4 st text) w) = Normal
    /\ published types.ON_ERROR
         (log_of (step (Xhr_readystatechange 4 st text) w))
       = [PError st (Some text) (error_data st (Some text))]
    /\ (if retries_server_error st (self w)
        then
          readyState (self (world_of (step (Xhr_readystatechange 4 st text) w)))
          = Some CONNECTING
          /\ _attempts
               (self (world_of (step (Xhr_readystatechange 4 st text) w)))
             = _attempts (self w) + 1
          /\ scheduled (log_of (step (Xhr_readystatechange 4 st text) w))
             = [backoffInterval (next_draw (host w)) (_attempts (self w) + 1)
                  (MIN_INTERVAL (self w)) (MAX_INTERVAL (self w))]
          /\ published types.ON_CLOSE
               (log_of (step (Xhr_readystatechange 4 st text) w))
             = []
        else
          readyState (self (world_of (step (Xhr_readystatechange 4 st text) w)))
          = Some CLOSED
          /\ _attempts
               (self (world_of (step (Xhr_readystatechange 4 st text) w)))
             = 0
          /\ scheduled (log_of (step (Xhr_readystatechange 4 st text) w)) = []
          /\ published types.ON_CLOSE
               (log_of (step (Xhr_readystatechange 4 st text) w))
             = [PClose true]).
Proof.
  intros w x st text Hx H0 H200 Hc. rewrite step_readystatechange_run.
  set (x' := {| xhr_readyState := 4; status := st; responseText := text;
                cache := cache x |}).
  set (w1 := received 4 st text w).
  assert (Hx' : _xhr (self w1) = Some x')
    by (subst w1; rewrite (received_xhr 4 st text w x Hx); reflexivity).
  rewrite (onreadystatechange_server_error w1 x' Hx' eq_refl H0 H200).
  cbn [status responseText x'].
  change (result_of (?a, ?b, ?c)) with a.
  change (log_of (?a, ?b, ?c)) with c.
  change (world_of (?a, ?b, ?c)) with b.
  subst w1. rewrite retries_server_error_received.
  destruct (state_log_quiet CONNECTING (received 4 st text w))
    as (Sc & Ss & _).
  split; [reflexivity|].
  destruct (retries_server_error st (self w)).
  - split; [|repeat split].
    + cbn [published]. change (JS.eqb types.ON_ERROR types.ON_ERROR) with true.
      cbv iota. rewrite published_app, state_log_no_error. reflexivity.
    + unfold retried. cbn [self].
      change (readyState (set_pollTimer ?v (set_attempts ?a ?e)))
        with (readyState e).
      apply in_state_readyState.
    + unfold retried. cbn [self set_pollTimer set_attempts _attempts].
      rewrite (kept_in_state _ _attempts), (kept_received _ _attempts)
        by reflexivity.
      reflexivity.
    + cbn [scheduled]. rewrite scheduled_app, Ss.
      cbn [scheduled app]. rewrite retry_delay_in_state_received. reflexivity.
    + cbn [published]. change (JS.eqb types.ON_ERROR types.ON_CLOSE) with false.
      cbv iota. rewrite published_app, Sc. reflexivity.
  - rewrite close_world, close_log_run, readyState_received, Hc.
    destruct (close_log_read true (received 4 st text w)) as (Cc & Cs & _).
    split; [|repeat split].
    + cbn [published]. change (JS.eqb types.ON_ERROR types.ON_ERROR) with true.
      cbv iota. rewrite close_log_no_error. reflexivity.
    + cbn [scheduled]. exact Cs.
    + cbn [published]. change (JS.eqb types.ON_ERROR types.ON_CLOSE) with false.
      cbv iota. exact Cc.
Qed.

(** X14 at a status 503 with the default options: the client closes. *)
Lemma server_error_is_published_then_retried_or_closed_witness :
  result_of (step (Xhr_readystatechange 4 503 (js "{}")) connecting_World)
  = Normal
  /\ published types.ON_ERROR
       (log_of (step (Xhr_readystatechange 4 503 (js "{}")) connecting_World))
     = [PError 503 (Some (js "{}")) (error_data 503 (Some (js "{}")))]
  /\ readyState
       (self (world_of (step (Xhr_readystatechange 4 503 (js "{}"))
                          connecting_World)))
     = Some CLOSED.
Proof.
  pose proof (server_error_is_published_then_retried_or_closed
                connecting_World sent_Xhr 503 (js "{}") eq_refl) as H.
  destruct H as (H1 & H2 & H3); [discriminate | discriminate | reflexivity |].
  split; [exact H1|]. split; [exact H2|]. exact (proj1 H3).
Defined.

(** X15. A completion with status 200 that the handler ends without
    an exception: after the messages of the text, [timeout] is published
    and one timer is set, whose delay is what
    [randomInterval(RECONNECT_INTERVAL, 100)] makes of the next draw;
    [_pollTimer] holds its handle; the client does not go back to
    CONNECTING (it is OPEN if it was CONNECTING) and the retry counter is
    not incremented. *)
Theorem peer_close_waits_and_polls_again :
  forall (w : World) (x : Xhr) (text : jsstring),
    _xhr (self w) = Some x ->
    result_of (step (Xhr_readystatechange 4 200 text) w) = Normal ->
    exists fr : list Effect,
      log_of (step (Xhr_readystatechange 4 200 text) w)
      = (if opens 200 w
         then [Emit types.ON_STATE (PState OPEN (Some CONNECTING));
               Emit types.ON_OPEN (POpen (url (self w)))]
         else [])
        ++ fr
        ++ [Emit types.ON_TIMEOUT PTimeout;
            SetTimeout (next_handle (host w))
              (randomInterval (next_draw (host w))
                 (RECONNECT_INTERVAL (self w)) 100)]
      /\ Forall (is_frame_of w) fr
      /\ _pollTimer (self (world_of (step (Xhr_readystatechange 4 200 text) w)))
         = Some (next_handle (host w))
      /\ timers (host (world_of (step (Xhr_readystatechange 4 200 text) w)))
         = timers (host w)
           ++ [(next_handle (host w),
                randomInterval (next_draw (host w))
                  (RECONNECT_INTERVAL (self w)) 100)]
      /\ readyState (self (world_of (step (Xhr_readystatechange 4 200 text) w)))
         = (if opens 200 w then Some OPEN else readyState (self w))
      /\ _attempts (self (world_of (step (Xhr_readystatechange 4 200 text) w)))
         = (if opens 200 w then 0 else _attempts (self w)).
Proof.
  intros w x text Hx Hn. rewrite step_readystatechange_run in *.
  set (x' := {| xhr_readyState := 4; status := 200; responseText := text;
                cache := cache x |}).
  pose proof (received_xhr 4 200 text w x Hx) as Hr. fold x' in Hr.
  assert (Hx' : _xhr (self (received 4 200 text w)) = Some x')
    by (rewrite Hr; reflexivity).
  rewrite (onreadystatechange_success _ x' Hx' eq_refl) in *. cbv zeta in *.
  cbn [xhr_readyState status responseText cache x'] in *.
  change (4 =? 4) with true in *. cbv iota in *.
  set (w1 := opened 200 (received 4 200 text w)) in *.
  set (r := decode text (cache x) w1) in *.
  set (w3 := with_self (set_xhr (Some (set_cache text x'))) (world_of r)) in *.
  destruct (fst (result_of r)); [|discriminate Hn]. clear Hn.
  change (log_of (?a, ?b, ?c)) with c.
  change (world_of (?a, ?b, ?c)) with b.
  destruct (decode_keeps text (cache x) w1) as (Hs & Ha & _ & Hu & Hp).
  destruct (decode_frame text (cache x) w1) as (Hout & _ & _).
  destruct (outside_decoder_settings _ _ Hout) as (Hri' & _ & _ & Hd & Hh).
  fold r in Hs, Ha, Hu, Hp, Hri', Hd, Hh.
  assert (Ho : opens 200 (received 4 200 text w) = opens 200 w)
    by apply opens_received.
  assert (Hhost : host w1 = host w)
    by (subst w1; rewrite host_opened; reflexivity).
  assert (Hdelay : reconnect_delay w3
                   = randomInterval (next_draw (host w))
                       (RECONNECT_INTERVAL (self w)) 100).
  { unfold reconnect_delay. subst w3. unfold with_self. cbn [self host].
    change (RECONNECT_INTERVAL (set_xhr ?v ?e)) with (RECONNECT_INTERVAL e).
    rewrite Hri', Hd, Hhost. subst w1.
    rewrite (kept_opened _ RECONNECT_INTERVAL),
      (kept_received _ RECONNECT_INTERVAL) by reflexivity.
    reflexivity. }
  assert (Hnh : next_handle (host w3) = next_handle (host w)).
  { subst w3. unfold with_self. cbn [host]. rewrite Hh, Hhost. reflexivity. }
  exists (log_of r).
  rewrite Hdelay, Hnh. repeat split.
  - rewrite open_log_received. unfold open_log, opens.
    destruct (readyState_is (readyState (self w)) CONNECTING) eqn:Ec;
      [|reflexivity].
    apply readyState_is_true in Ec. rewrite Ec. reflexivity.
  - eapply Forall_impl; [|apply decode_log_frames].
    intros e. apply is_frame_of_address.
    + subst w1. rewrite (kept_opened _ url); try reflexivity.
      rewrite Hr. reflexivity.
    + subst w1. rewrite (kept_opened _ path); try reflexivity.
      rewrite Hr. reflexivity.
  - unfold polled_again. cbn [self set_pollTimer _pollTimer].
    f_equal. exact Hnh.
  - unfold polled_again. cbn [self host add_timer pop_draw timers].
    f_equal; [|f_equal; f_equal; exact Hnh].
    subst w3. unfold with_self. cbn [host]. subst r.
    rewrite timers_decode, Hhost. reflexivity.
  - unfold polled_again. cbn [self].
    change (readyState (set_pollTimer ?v ?e)) with (readyState e).
    subst w3. unfold with_self. cbn [self].
    change (readyState (set_xhr ?v ?e)) with (readyState e).
    rewrite Hs. subst w1. rewrite readyState_opened, Ho, readyState_received.
    reflexivity.
  - unfold polled_again. cbn [self].
    change (_attempts (set_pollTimer ?v ?e)) with (_attempts e).
    subst w3. unfold with_self. cbn [self].
    change (_attempts (set_xhr ?v ?e)) with (_attempts e).
    rewrite Ha. subst w1. rewrite attempts_opened, Ho.
    rewrite (kept_received _ _attempts); reflexivity.
Qed.

(** X15 at a response that ends after one frame. *)
Lemma peer_close_waits_and_polls_again_witness :
  exists fr : list Effect,
    log_of (step (Xhr_readystatechange 4 200 (js "data: x" ++ [LF; LF]))
              connecting_World)
    = (if opens 200 connecting_World
       then [Emit types.ON_STATE (PState OPEN (Some CONNECTING));
             Emit types.ON_OPEN (POpen (url (self connecting_World)))]
       else [])
      ++ fr
      ++ [Emit types.ON_TIMEOUT PTimeout;
          SetTimeout (next_handle (host connecting_World))
            (randomInterval (next_draw (host connecting_World))
               (RECONNECT_INTERVAL (self connecting_World)) 100)]
    /\ _pollTimer
         (self (world_of (step (Xhr_readystatechange 4 200
                                  (js "data: x" ++ [LF; LF]))
                            connecting_World)))
       = Some (next_handle (host connecting_World)).
Proof.
  destruct (peer_close_waits_and_polls_again
              connecting_World sent_Xhr (js "data: x" ++ [LF; LF])
              eq_refl eq_refl)
    as (fr & H1 & _ & H2 & _).
  exists fr. split; [exact H1 | exact H2].
Defined.

(** ** [open()] and [close()] *)

Lemma poll_throws_run (w : World) :
  request_throws (host w) = true ->
  readyState_is (readyState (self w)) CLOSED = false ->
  _poll w
  = (tt, closed w,
     Emit types.ON_ERROR (PError 0 None (JSON.JObject []))
     :: close_log true w).
Proof.
  intros Ht Hc. unfold _poll. rewrite bind_this, Hc, Ht.
  unfold bind.
  change (_emitError 0 None w)
    with (tt, w, [Emit types.ON_ERROR (PError 0 None (JSON.JObject []))]).
  cbv beta iota zeta. rewrite close_run, Hc. reflexivity.
Qed.

(** X16. When building or sending the request throws, [open()] on an
    idle client publishes one [error] with status 0 and no message,
    closes the client with the error flag, sends nothing and sets no
    timer: the exception is not retried, whatever the options. *)
Theorem open_on_a_host_that_throws_closes_with_an_error :
  forall w : World,
    request_throws (host w) = true ->
    busy (self w) = false ->
    readyState (self (world_of (open w))) = Some CLOSED
    /\ _pollTimer (self (world_of (open w))) = None
    /\ published types.ON_ERROR (log_of (open w))
       = [PError 0 None (JSON.JObject [])]
    /\ published types.ON_CLOSE (log_of (open w)) = [PClose true]
    /\ scheduled (log_of (open w)) = []
    /\ requests (log_of (open w)) = 0%nat.
Proof.
  intros w Ht Hb. unfold busy in Hb. rewrite (open_idle w Hb).
  unfold bind. rewrite _setReadyState_run.
  rewrite (poll_throws_run (in_state CONNECTING w)).
  - change (log_of (?a, ?b, ?c)) with c.
    change (world_of (?a, ?b, ?c)) with b.
    destruct (state_log_quiet CONNECTING w) as (Sc & Ss & Sr).
    destruct (close_log_read true (in_state CONNECTING w)) as (Cc & Cs & Cr).
    repeat split.
    + rewrite published_app, state_log_no_error. cbn [app published].
      change (JS.eqb types.ON_ERROR types.ON_ERROR) with true. cbv iota.
      rewrite close_log_no_error. reflexivity.
    + rewrite published_app, Sc. cbn [app published].
      change (JS.eqb types.ON_ERROR types.ON_CLOSE) with false. cbv iota.
      exact Cc.
    + rewrite scheduled_app, Ss. cbn [app scheduled]. exact Cs.
    + rewrite requests_app, Sr. cbn [requests Nat.add]. exact Cr.
  - rewrite in_state_host. exact Ht.
  - rewrite in_state_readyState. reflexivity.
Qed.

(** X16 at a fresh client on a host whose requests throw. *)
Lemma open_on_a_host_that_throws_closes_with_an_error_witness :
  readyState
    (self (world_of (open {| self := self example_World;
                             host := {| timers := []; next_handle := 1;
                                        draws := []; globals := no_globals;
                                        request_throws := true |} |})))
  = Some CLOSED
  /\ scheduled
       (log_of (open {| self := self example_World;
                        host := {| timers := []; next_handle := 1;
                                   draws := []; globals := no_globals;
                                   request_throws := true |} |}))
     = [].
Proof.
  pose proof (open_on_a_host_that_throws_closes_with_an_error
                {| self := self example_World;
                   host := {| timers := []; next_handle := 1;
                              draws := []; globals := no_globals;
                              request_throws := true |} |}
                eq_refl eq_refl) as H.
  split; [exact (proj1 H) | exact (proj1 (proj2 (proj2 (proj2 (proj2 H)))))].
Defined.

Lemma busy_closed (w : World) : busy (self (closed w)) = false.
Proof.
  unfold busy, request_active, timer_set, closed.
  cbn [self _xhr _pollTimer set_attempts set_xhr set_pollTimer].
  destruct (_xhr (self w)); reflexivity.
Qed.

(** X17. [close()] then [open()] on a client that was not closed:
    after what [close] publishes, the state goes from CLOSED to
    CONNECTING and a new request is sent, with the header
    [Last-Event-ID] when the client holds an id; the new request starts
    with an empty cursor, no timer is held and the counter is 0. *)
Theorem close_then_open_sends_a_new_request :
  forall (w : World) (error : bool),
    request_throws (host w) = false ->
    readyState_is (readyState (self w)) CLOSED = false ->
    log_of (run [Call_close error; Call_open] w)
    = close_log error w
      ++ [Emit types.ON_STATE (PState CONNECTING (Some CLOSED));
          XhrSend (lastEventId_header (self w))]
    /\ readyState (self (world_of (run [Call_close error; Call_open] w)))
       = Some CONNECTING
    /\ _xhr (self (world_of (run [Call_close error; Call_open] w)))
       = Some sent_Xhr
    /\ _pollTimer (self (world_of (run [Call_close error; Call_open] w)))
       = None
    /\ _attempts (self (world_of (run [Call_close error; Call_open] w))) = 0
    /\ lastEventId (self (world_of (run [Call_close error; Call_open] w)))
       = lastEventId (self w).
Proof.
  intros w error Ht Hc.
  assert (E : run [Call_close error; Call_open] w
              = (tt, with_self (set_xhr (Some sent_Xhr))
                       (in_state CONNECTING (closed w)),
                 close_log error w
                 ++ [Emit types.ON_STATE (PState CONNECTING (Some CLOSED));
                     XhrSend (lastEventId_header (self w))])).
  { simpl run. simpl step. unfold bind. rewrite close_run, Hc.
    unfold ret. cbv beta iota zeta.
    rewrite (open_run (closed w)) by exact Ht.
    pose proof (busy_closed w) as Hb. unfold busy in Hb. rewrite Hb.
    rewrite !app_nil_r. reflexivity. }
  rewrite E.
  change (log_of (?a, ?b, ?c)) with c.
  change (world_of (?a, ?b, ?c)) with b.
  repeat split.
Qed.

(** X17 at a client that is streaming and holds the id 7. *)
Lemma close_then_open_sends_a_new_request_witness :
  log_of (run [Call_close false; Call_open]
            (with_lastEventId (Some (js "7")) streaming_World))
  = close_log false (with_lastEventId (Some (js "7")) streaming_World)
    ++ [Emit types.ON_STATE (PState CONNECTING (Some CLOSED));
        XhrSend (Some (js "7"))].
Proof.
  exact (proj1 (close_then_open_sends_a_new_request
                  (with_lastEventId (Some (js "7")) streaming_World) false
                  eq_refl eq_refl)).
Defined.

(** ** No ceiling *)

Lemma or_number_negative (x : option Z) :
  (forall v, x = Some v -> v <= 0) -> or_number x (-1) < 0.
Proof.
  intros H. unfold or_number. destruct x as [v|]; [|lia].
  specialize (H v eq_refl). destruct (Z.eqb_spec v 0); lia.
Qed.

Lemma published_none_of_state_and_timer (name : jsstring) (s : ReadyState)
      (w : World) (h : nat) (d : Z) :
  JS.eqb types.ON_STATE name = false ->
  published name (state_log s w ++ [SetTimeout h d]) = [].
Proof.
  intros H. unfold state_log.
  destruct (readyState_is (readyState (self w)) s); [reflexivity|].
  cbn [app published]. rewrite H. reflexivity.
Qed.

(** X18. [maxAttempts] left out, 0 or negative means no ceiling: on a
    client built with such options, after any inputs, the test before a
    retry succeeds; so a failure of the transport always sets one timer,
    publishes no [close] and leaves the client CONNECTING. *)
Theorem maxAttempts_zero_means_no_limit :
  forall (o : Options) (ds : list Q) (g : Globals) (inputs : list Input)
         (text : jsstring),
    (forall v, maxAttempts o = Some v -> v <= 0) ->
    below_ceiling (self (world_of (run inputs (new_World o ds g)))) = true
    /\ (_xhr (self (world_of (run inputs (new_World o ds g)))) <> None ->
        List.length
          (scheduled
             (log_of (step (Xhr_error 0 text)
                        (world_of (run inputs (new_World o ds g))))))
        = 1%nat
        /\ published types.ON_CLOSE
             (log_of (step (Xhr_error 0 text)
                        (world_of (run inputs (new_World o ds g)))))
           = []
        /\ readyState
             (self (world_of (step (Xhr_error 0 text)
                                (world_of (run inputs (new_World o ds g))))))
           = Some CONNECTING).
Proof.
  intros o ds g inputs text H.
  set (w := world_of (run inputs (new_World o ds g))).
  pose proof (kept_run _ settings
                ltac:(reflexivity) ltac:(reflexivity) ltac:(reflexivity)
                ltac:(reflexivity) inputs ltac:(reflexivity)
                (new_World o ds g)) as Hs.
  fold w in Hs. unfold settings in Hs. cbn [self new_World] in Hs.
  injection Hs as _ _ _ Hmax Hnet _ _ _ _.
  cbn [new_EventSource MAX_ATTEMPTS RETRY_ON_NETWORK_ERROR] in Hmax, Hnet.
  rewrite or_bool_true in Hnet.
  assert (Hb : below_ceiling (self w) = true).
  { unfold below_ceiling. rewrite Hmax.
    pose proof (or_number_negative (maxAttempts o) H) as Hneg.
    apply Z.ltb_lt in Hneg. rewrite Hneg. reflexivity. }
  split; [exact Hb|]. intros Hx.
  destruct (_xhr (self w)) as [x|] eqn:Ex; [clear Hx | contradiction].
  rewrite step_error_run.
  change (log_of (?a, ?b, ?c)) with c.
  change (world_of (?a, ?b, ?c)) with b.
  set (x' := {| xhr_readyState := 4; status := 0; responseText := text;
                cache := cache x |}).
  set (w1 := received 4 0 text w).
  assert (Hx' : _xhr (self w1) = Some x')
    by (subst w1; rewrite (received_xhr 4 0 text w x Ex); reflexivity).
  rewrite (onerror_closed_form w1 x' Hx' eq_refl).
  change (log_of (?a, ?b, ?c)) with c.
  change (world_of (?a, ?b, ?c)) with b.
  assert (Hc : RETRY_ON_NETWORK_ERROR (self w1) && below_ceiling (self w1)
               = true).
  { subst w1.
    rewrite (kept_received _ RETRY_ON_NETWORK_ERROR),
      (kept_received _ below_ceiling) by reflexivity.
    rewrite Hnet, Hb. reflexivity. }
  rewrite Hc. destruct (state_log_quiet CONNECTING w1) as (Sc & Ss & _).
  repeat split.
  - rewrite !scheduled_app, Ss.
    destruct (_attempts (self w1) =? 0); reflexivity.
  - rewrite published_app, published_none_of_state_and_timer by reflexivity.
    destruct (_attempts (self w1) =? 0); reflexivity.
  - unfold retried. cbn [self].
    change (readyState (set_pollTimer ?v (set_attempts ?a ?e)))
      with (readyState e).
    apply in_state_readyState.
Qed.

(** X18 at [maxAttempts: 0], after three failed attempts. *)
Lemma maxAttempts_zero_means_no_limit_witness :
  below_ceiling
    (self (world_of
             (run three_failed_attempts
                (new_World
                   {| o_url := js "http://example.org/stream"; o_path := None;
                      reconnectInterval := None; maxInterval := None;
                      minInterval := None; maxAttempts := Some 0;
                      retryOnNetworkError := None; retryOnServerError := None;
                      serverErrorCodes := None |} [] no_globals))))
  = true.
Proof.
  refine (proj1 (maxAttempts_zero_means_no_limit
                   {| o_url := js "http://example.org/stream"; o_path := None;
                      reconnectInterval := None; maxInterval := None;
                      minInterval := None; maxAttempts := Some 0;
                      retryOnNetworkError := None; retryOnServerError := None;
                      serverErrorCodes := None |} [] no_globals
                   three_failed_attempts [] _)).
  intros v Hv. injection Hv as <-. lia.
Defined.

(** ** The cursor of the decoder *)

(** X19. The decoder skips as many code units as the text it saw last
    had, whatever they were: of the cursor only the length counts, the
    new text is not compared with it. *)
Theorem decode_reads_from_the_length_of_the_cache :
  forall (seen rest cache : jsstring) (w : World),
    List.length cache = List.length seen ->
    fst (result_of (decode (seen ++ rest) cache w))
    = fst (result_of (decode rest [] w))
    /\ world_of (decode (seen ++ rest) cache w) = world_of (decode rest [] w)
    /\ log_of (decode (seen ++ rest) cache w) = log_of (decode rest [] w).
Proof.
  intros seen rest cache w H. unfold decode.
  rewrite H, substr_app_length.
  change (substr rest (List.length (@nil N))) with rest.
  rewrite !bind_run. repeat split.
Qed.

(** X19 at a cursor that is not a prefix of the text. *)
Lemma decode_reads_from_the_length_of_the_cache_witness :
  log_of (decode (js "data: a" ++ [LF; LF] ++ js "data: b" ++ [LF; LF])
            (js "data: zzz") example_World)
  = log_of (decode (js "data: b" ++ [LF; LF]) [] example_World).
Proof.
  exact (proj2 (proj2 (decode_reads_from_the_length_of_the_cache
                         (js "data: a" ++ [LF; LF])
                         (js "data: b" ++ [LF; LF])
                         (js "data: zzz") example_World eq_refl))).
Defined.

(** ** [destroy()] *)

(** X20. [destroy()] does what [close()] does, with the error flag
    false, and removes the listeners after the [close] event was
    published; a second [destroy()] publishes nothing and only removes
    the listeners again. *)
Theorem destroy_closes_before_it_removes_the_listeners :
  forall w : World,
    log_of (destroy w) = log_of (close false w) ++ [RemoveAllListeners]
    /\ world_of (destroy w) = world_of (close false w)
    /\ log_of (destroy (world_of (destroy w))) = [RemoveAllListeners]
    /\ world_of (destroy (world_of (destroy w))) = world_of (destroy w).
Proof.
  intros w.
  assert (E : forall w', destroy w'
                         = (tt, world_of (close false w'),
                            log_of (close false w') ++ [RemoveAllListeners])).
  { intros w'. unfold destroy, bind.
    destruct (close false w') as [[[] w1] lg1]. reflexivity. }
  assert (C : readyState_is
                (readyState (self (world_of (close false w)))) CLOSED = true).
  { rewrite close_run.
    destruct (readyState_is (readyState (self w)) CLOSED) eqn:Ec;
      [exact Ec | reflexivity]. }
  rewrite !E.
  change (log_of (?a, ?b, ?c)) with c.
  change (world_of (?a, ?b, ?c)) with b.
  rewrite (close_run false (world_of (close false w))), C.
  change (log_of (?a, ?b, ?c)) with c.
  change (world_of (?a, ?b, ?c)) with b.
  repeat split. rewrite (close_run false (world_of (close false w))), C.
  reflexivity.
Qed.

(** ** A stream of frames *)

Lemma join_lf_blank (ls : list jsstring) :
  join_lf (ls ++ [[]]) = List.concat (List.map (fun l => l ++ [LF]) ls).
Proof.
  induction ls as [|l ls IH]; [reflexivity|].
  cbn [app List.map List.concat]. rewrite <- IH.
  destruct ls as [|l' ls']; cbn [app join_lf].
  - rewrite app_nil_r. reflexivity.
  - destruct (ls' ++ [[]]) eqn:E.
    + destruct ls'; discriminate E.
    + rewrite <- app_assoc. reflexivity.
Qed.

Lemma split_lf_lines (ls : list jsstring) (t : jsstring) :
  forallb no_lf ls = true ->
  split_lf (List.concat (List.map (fun l => l ++ [LF]) ls) ++ t)
  = ls ++ split_lf t.
Proof.
  induction ls as [|l ls IH]; intros H; [reflexivity|].
  cbn [forallb] in H. apply andb_prop in H. destruct H as [Hl Hls].
  cbn [List.map List.concat]. rewrite <- !app_assoc. cbn [app].
  rewrite split_lf_app_lf, (split_lf_no_lf l Hl), (IH Hls). reflexivity.
Qed.

Lemma frame_text_lines (id name : option jsstring) (ds : list jsstring) :
  frame_text id name ds
  = List.concat (List.map (fun l => l ++ [LF]) (frame_lines id name ds ++ [[]])).
Proof.
  unfold frame_text. rewrite <- join_lf_blank, <- app_assoc. reflexivity.
Qed.

Lemma well_formed_inv (f : Frame) :
  well_formed f = true ->
  f_data f <> []
  /\ forallb plain (f_data f) = true
  /\ match f_id f with Some i => plain i = true | None => True end
  /\ match f_event f with
     | Some n => plain n = true /\ n <> []
     | None => True
     end.
Proof.
  unfold well_formed. intros H.
  apply andb_prop in H. destruct H as [H H4].
  apply andb_prop in H. destruct H as [H H3].
  apply andb_prop in H. destruct H as [H1 H2].
  repeat split.
  - destruct (f_data f); [discriminate H1 | discriminate].
  - exact H2.
  - destruct (f_id f); [exact H3 | exact I].
  - destruct (f_event f) as [n|]; [|exact I].
    apply andb_prop in H4. destruct H4 as [Hp Hn].
    split; [exact Hp|]. destruct n; [discriminate Hn | discriminate].
Qed.

Lemma frame_lines_blank_no_lf (f : Frame) :
  well_formed f = true ->
  forallb no_lf (frame_lines (f_id f) (f_event f) (f_data f) ++ [[]]) = true.
Proof.
  intros H. destruct (well_formed_inv f H) as (_ & Hd & Hi & Hn).
  pose proof (frame_lines_no_lf (f_id f) (f_event f) (f_data f) Hi Hn Hd) as E.
  rewrite forallb_app in *. apply andb_prop in E. destruct E as [E _].
  rewrite E. reflexivity.
Qed.

(** The lines of one frame, and whatever lines follow them. *)
Lemma for_parts_frame_lines (f : Frame) (rest : list jsstring) (w : World) :
  well_formed f = true ->
  for_parts (frame_lines (f_id f) (f_event f) (f_data f) ++ [] :: rest)
    no_locals w
  = let w' := match f_id f with
              | Some i => with_lastEventId (Some i) w
              | None => w
              end in
    let r := for_parts rest no_locals w' in
    (result_of r, world_of r,
     Emit match f_event f with Some n => n | None => js "message" end
       (PMessage (js "message") (payload_of (join_lf (f_data f)))
          match f_id f with Some i => Some i | None => lastEventId (self w) end
          (url (self w) ++ path (self w)))
     :: log_of r).
Proof.
  intros H. destruct (well_formed_inv f H) as (Hne & Hds & Hid & Hname).
  destruct f as [id name ds]. cbn [f_id f_event f_data] in *.
  assert (Hloop :
    forall (l : Locals) (w' : World),
      data l = [] ->
      for_parts (List.map (fun d => js "data: " ++ d) ds ++ [] :: rest) l w'
      = (result_of (for_parts rest no_locals w'),
         world_of (for_parts rest no_locals w'),
         Emit match eventType l with
              | Some ((_ :: _) as t) => t
              | _ => js "message"
              end
           (PMessage (js "message") (payload_of (join_lf ds))
              (lastEventId (self w')) (url (self w') ++ path (self w')))
         :: log_of (for_parts rest no_locals w'))).
  { intros l w' Hl. rewrite (for_parts_data_lines ds _ l w' Hds). rewrite Hl.
    cbn [app]. destruct ds as [|d ds']; [contradiction|].
    change (for_parts ([] :: rest) ?l0 w')
      with (bind (line_body [] l0)
              (fun r => let (c, l') := r in
                        match c with
                        | Normal => for_parts rest l'
                        | ThrowReferenceError => ret (ThrowReferenceError, l')
                        end) w').
    unfold bind at 1.
    assert (E : line_body []
                  {| data := d :: ds'; eventType := eventType l |} w'
                = ((Normal, no_locals), w',
                   [Emit match eventType l with
                         | Some ((_ :: _) as t) => t
                         | _ => js "message"
                         end
                      (PMessage (js "message") (payload_of (join_lf (d :: ds')))
                         (lastEventId (self w'))
                         (url (self w') ++ path (self w')))])).
    { unfold line_body. simpl classify. cbv iota.
      cbn [data eventType]. unfold bind, this_, _emitMessage, emit, tell, ret,
        MessageEvent, payload_of. cbn [m_data m_type m_lastEventId m_origin].
      destruct (join_lf (d :: ds')) eqn:E; reflexivity. }
    rewrite E. destruct (for_parts rest no_locals w') as [[r1 w1] lg1].
    reflexivity. }
  cbv zeta. unfold frame_lines.
  destruct id as [i|]; destruct name as [n|]; cbn [app].
  - rewrite (for_parts_cons_silent _ _ _ _ _ _
               (line_body_id_plain i no_locals w Hid)).
    rewrite (for_parts_cons_silent _ _ _ _ _ _
               (line_body_event_plain n no_locals _ (proj1 Hname))).
    rewrite Hloop by reflexivity. destruct Hname as [_ Hn].
    destruct n; [contradiction|]. reflexivity.
  - rewrite (for_parts_cons_silent _ _ _ _ _ _
               (line_body_id_plain i no_locals w Hid)).
    rewrite Hloop by reflexivity. reflexivity.
  - rewrite (for_parts_cons_silent _ _ _ _ _ _
               (line_body_event_plain n no_locals _ (proj1 Hname))).
    rewrite Hloop by reflexivity. destruct Hname as [_ Hn].
    destruct n; [contradiction|]. reflexivity.
  - rewrite Hloop by reflexivity. reflexivity.
Qed.

Lemma split_lf_stream_text (fs : list Frame) :
  forallb well_formed fs = true ->
  split_lf (stream_text fs)
  = List.concat (List.map (fun f => frame_lines (f_id f) (f_event f) (f_data f)
                               ++ [[]]) fs)
    ++ [[]].
Proof.
  unfold stream_text. induction fs as [|f fs IH]; intros H; [reflexivity|].
  cbn [forallb] in H. apply andb_prop in H. destruct H as [Hf Hfs].
  cbn [List.map List.concat]. rewrite frame_text_lines.
  rewrite split_lf_lines by (apply frame_lines_blank_no_lf, Hf).
  rewrite (IH Hfs), <- !app_assoc. reflexivity.
Qed.

Lemma for_parts_stream (fs : list Frame) :
  forall w : World,
    forallb well_formed fs = true ->
    exists w' : World,
      for_parts (List.concat (List.map
                           (fun f => frame_lines (f_id f) (f_event f) (f_data f)
                                     ++ [[]]) fs)
                 ++ [[]]) no_locals w
      = ((Normal, no_locals), w',
         events_of fs (lastEventId (self w)) (url (self w) ++ path (self w)))
      /\ lastEventId (self w') = id_after fs (lastEventId (self w))
      /\ outside_decoder w' = outside_decoder w
      /\ globals (host w') = globals (host w).
Proof.
  induction fs as [|f fs IH]; intros w H.
  - exists w. repeat split.
  - cbn [forallb] in H. apply andb_prop in H. destruct H as [Hf Hfs].
    cbn [List.map List.concat]. rewrite <- !app_assoc. cbn [app].
    rewrite (for_parts_frame_lines f _ w Hf). cbv zeta.
    set (w1 := match f_id f with
               | Some i => with_lastEventId (Some i) w
               | None => w
               end).
    assert (Hl : lastEventId (self w1)
                 = match f_id f with
                   | Some i => Some i
                   | None => lastEventId (self w)
                   end)
      by (subst w1; destruct (f_id f); reflexivity).
    assert (Ho : outside_decoder w1 = outside_decoder w)
      by (subst w1; destruct (f_id f); reflexivity).
    assert (Hg : globals (host w1) = globals (host w))
      by (subst w1; destruct (f_id f); reflexivity).
    assert (Ha : url (self w1) ++ path (self w1) = url (self w) ++ path (self w))
      by (subst w1; destruct (f_id f); reflexivity).
    destruct (IH w1 Hfs) as (w' & E & El & Eo & Eg).
    exists w'. rewrite E.
    change (result_of (?a, ?b, ?c)) with a.
    change (log_of (?a, ?b, ?c)) with c.
    change (world_of (?a, ?b, ?c)) with b.
    repeat split.
    + cbn [events_of]. rewrite Hl, Ha. reflexivity.
    + rewrite El, Hl. reflexivity.
    + rewrite Eo. exact Ho.
    + rewrite Eg. exact Hg.
Qed.

Lemma decode_reads_back_a_stream_parts (fs : list Frame) (w : World) :
  forallb well_formed fs = true ->
  fst (result_of (decode (stream_text fs) [] w)) = Normal
  /\ lastEventId (self (world_of (decode (stream_text fs) [] w)))
     = id_after fs (lastEventId (self w))
  /\ globals (host (world_of (decode (stream_text fs) [] w)))
     = globals (host w).
Proof.
  intros H. unfold decode.
  change (substr ?t (List.length (@nil N))) with t.
  rewrite (split_lf_stream_text fs H).
  destruct (for_parts_stream fs w H) as (w' & E & El & _ & Eg).
  unfold bind. rewrite E. unfold ret.
  change (result_of (?a, ?b, ?c)) with a.
  change (world_of (?a, ?b, ?c)) with b.
  cbn [fst]. repeat split; assumption.
Qed.

(** X21. A text made of well-formed frames, each closed by its blank
    line, is decoded in one call without an exception into one event per
    frame, in order; a frame without an [id] line carries the id of the
    frame before it (or the one the client held), and the client holds
    the last id afterwards. *)
Theorem decode_reads_back_a_stream :
  forall (fs : list Frame) (w : World),
    forallb well_formed fs = true ->
    fst (result_of (decode (stream_text fs) [] w)) = Normal
    /\ log_of (decode (stream_text fs) [] w)
       = events_of fs (lastEventId (self w)) (url (self w) ++ path (self w))
    /\ lastEventId (self (world_of (decode (stream_text fs) [] w)))
       = id_after fs (lastEventId (self w))
    /\ globals (host (world_of (decode (stream_text fs) [] w)))
       = globals (host w).
Proof.
  intros fs w H.
  destruct (decode_reads_back_a_stream_parts fs w H) as (Hn & Hl & Hg).
  split; [exact Hn|]. split; [|split; assumption].
  unfold decode.
  change (substr ?t (List.length (@nil N))) with t.
  rewrite (split_lf_stream_text fs H).
  destruct (for_parts_stream fs w H) as (w' & E & _).
  unfold bind. rewrite E. unfold ret.
  change (log_of (?a, ?b, ?c)) with c. apply app_nil_r.
Qed.

(** X21 at two frames, the second without an id. *)
Lemma decode_reads_back_a_stream_witness :
  log_of (decode
            (stream_text
               [{| f_id := Some (js "1"); f_event := None;
                   f_data := [js "a"; js "b"] |};
                {| f_id := None; f_event := Some (js "tick");
                   f_data := [js "{}"] |}])
            [] example_World)
  = events_of
      [{| f_id := Some (js "1"); f_event := None;
          f_data := [js "a"; js "b"] |};
       {| f_id := None; f_event := Some (js "tick"); f_data := [js "{}"] |}]
      (lastEventId (self example_World))
      (url (self example_World) ++ path (self example_World)).
Proof.
  exact (proj1 (proj2 (decode_reads_back_a_stream
                         [{| f_id := Some (js "1"); f_event := None;
                             f_data := [js "a"; js "b"] |};
                          {| f_id := None; f_event := Some (js "tick");
                             f_data := [js "{}"] |}]
                         example_World eq_refl))).
Defined.

(** ** Resuming after a close by the peer *)

Lemma request_throws_decode (text cache : jsstring) (w : World) :
  request_throws (host (world_of (decode text cache w)))
  = request_throws (host w).
Proof.
  destruct (decode_frame text cache w) as [H _].
  apply (f_equal snd) in H. cbn [snd outside_decoder] in H.
  apply (f_equal request_throws) in H. exact H.
Qed.

Lemma timer_pending_last (h : nat) (d : Z) (ts : list (nat * Z)) (hst : Host) :
  timers hst = ts ++ [(h, d)] -> timer_pending h hst = true.
Proof.
  intros H. unfold timer_pending. rewrite H, existsb_app. cbn [existsb fst].
  rewrite Nat.eqb_refl. apply orb_true_r.
Qed.

Lemma timer_run (handle : nat) (w : World) :
  timer_pending handle (host w) = true ->
  step (Timer_fires handle) w
  = (Normal,
     world_of (_poll {| self := self w;
                        host := drop_timer (Some handle) (host w) |}),
     log_of (_poll {| self := self w;
                      host := drop_timer (Some handle) (host w) |})).
Proof.
  intros H. simpl step. rewrite H. unfold bind, update_host, ret.
  destruct (_poll {| self := self w;
                     host := drop_timer (Some handle) (host w) |})
    as [[[] w1] lg1].
  unfold world_of, log_of. cbn [fst snd app]. rewrite app_nil_r. reflexivity.
Qed.

(** A call reads what follows the cursor, as a call on that text alone
    would. *)
Lemma decode_resumes (seen rest cache : jsstring) (w : World) :
  List.length cache = List.length seen ->
  fst (result_of (decode (seen ++ rest) cache w))
  = fst (result_of (decode rest [] w))
  /\ world_of (decode (seen ++ rest) cache w) = world_of (decode rest [] w)
  /\ log_of (decode (seen ++ rest) cache w) = log_of (decode rest [] w).
Proof.
  intros H. unfold decode. rewrite H, substr_app_length.
  change (substr rest (List.length (@nil N))) with rest.
  rewrite !bind_run. repeat split.
Qed.

(** X22. Resuming: when what the decoder has not read yet of a response
    (the text after the cursor, all of it when nothing was received
    before) is made of well-formed frames, the response ends with status
    200 and the timer it sets comes due, the request that is sent carries
    as [Last-Event-ID] the id those frames leave: the id of the last
    frame that has one, or the id the client held (no header when that id
    is empty or there is none). *)
Theorem reconnection_carries_the_last_id :
  forall (fs : list Frame) (w : World) (x : Xhr) (seen : jsstring),
    forallb well_formed fs = true ->
    _xhr (self w) = Some x ->
    List.length (cache x) = List.length seen ->
    request_throws (host w) = false ->
    readyState_is (readyState (self w)) CLOSED = false ->
    log_of (step (Timer_fires (next_handle (host w)))
              (world_of (step (Xhr_readystatechange 4 200
                                 (seen ++ stream_text fs)) w)))
    = [XhrSend
         (lastEventId_header
            (set_lastEventId (id_after fs (lastEventId (self w))) (self w)))].
Proof.
  intros fs w x seen Hfs Hx Hcache Hthrows Hc.
  rewrite step_readystatechange_run.
  set (text := seen ++ stream_text fs).
  set (x' := {| xhr_readyState := 4; status := 200; responseText := text;
                cache := cache x |}).
  pose proof (received_xhr 4 200 text w x Hx) as Hr. fold x' in Hr.
  assert (Hx' : _xhr (self (received 4 200 text w)) = Some x')
    by (rewrite Hr; reflexivity).
  rewrite (onreadystatechange_success _ x' Hx' eq_refl). cbv zeta.
  cbn [xhr_readyState status responseText cache x'].
  change (4 =? 4) with true. cbv iota.
  set (w1 := opened 200 (received 4 200 text w)).
  destruct (decode_reads_back_a_stream_parts fs w1 Hfs) as (Hn & Hl & Hg).
  destruct (decode_resumes seen (stream_text fs) (cache x) w1 Hcache)
    as (En & Ew & _).
  fold text in En, Ew. rewrite <- En in Hn. rewrite <- Ew in Hl, Hg.
  rewrite Hn.
  change (world_of (?a, ?b, ?c)) with b.
  set (r := decode text (cache x) w1) in *.
  set (w3 := with_self (set_xhr (Some (set_cache text x'))) (world_of r)).
  set (w4 := polled_again (reconnect_delay w3) w3).
  assert (Hh : next_handle (host w) = next_handle (host w3)).
  { destruct (decode_frame text (cache x) w1) as (Hout & _ & _).
    destruct (outside_decoder_settings _ _ Hout) as (_ & _ & _ & _ & Hh).
    subst w3 r. unfold with_self. cbn [host]. rewrite Hh. subst w1.
    rewrite host_opened. reflexivity. }
  rewrite Hh.
  assert (Hp : timer_pending (next_handle (host w3)) (host w4) = true).
  { apply (timer_pending_last _ (reconnect_delay w3) (timers (host w3))).
    reflexivity. }
  rewrite (timer_run _ _ Hp).
  change (log_of (?a, ?b, ?c)) with c.
  rewrite _poll_run.
  - assert (Hs : readyState_is (readyState (self w4)) CLOSED = false).
    { subst w4 w3. unfold polled_again, with_self. cbn [self].
      change (readyState (set_pollTimer ?v (set_xhr ?u ?e)))
        with (readyState e).
      subst r. rewrite (kept_decode _ readyState) by reflexivity.
      subst w1. rewrite readyState_opened.
      destruct (opens 200 (received 4 200 text w)); [reflexivity|].
      rewrite readyState_received. exact Hc. }
    cbn [self]. rewrite Hs.
    change (log_of (?a, ?b, ?c)) with c. f_equal. f_equal.
    unfold lastEventId_header. cbn [lastEventId set_lastEventId].
    subst w4 w3. unfold polled_again, with_self. cbn [self].
    change (lastEventId (set_pollTimer ?v (set_xhr ?u ?e)))
      with (lastEventId e).
    rewrite Hl. subst w1.
    rewrite (kept_opened _ lastEventId), (kept_received _ lastEventId)
      by reflexivity.
    reflexivity.
  - cbn [host drop_timer request_throws]. subst w4 w3.
    unfold polled_again, with_self. cbn [host add_timer pop_draw request_throws].
    subst r. rewrite request_throws_decode. subst w1. rewrite host_opened.
    exact Hthrows.
Qed.

(** X22 at a response that is streamed: a first frame with the id 41 was
    received at readyState 3, and the response ends after two more
    frames, the first with the id 42 and the last without an id. *)
Lemma reconnection_carries_the_last_id_witness :
  log_of (step (Timer_fires (next_handle (host (after_a_frame_World))))
            (world_of
               (step (Xhr_readystatechange 4 200
                        (stream_text
                           [{| f_id := Some (js "41"); f_event := None;
                               f_data := [js "a"] |}]
                         ++ stream_text
                              [{| f_id := Some (js "42"); f_event := None;
                                  f_data := [js "b"] |};
                               {| f_id := None; f_event := Some (js "tick");
                                  f_data := [js "c"] |}]))
                  after_a_frame_World)))
  = [XhrSend (Some (js "42"))].
Proof.
  exact (reconnection_carries_the_last_id
           [{| f_id := Some (js "42"); f_event := None; f_data := [js "b"] |};
            {| f_id := None; f_event := Some (js "tick");
               f_data := [js "c"] |}]
           after_a_frame_World
           {| xhr_readyState := 3; status := 200;
              responseText :=
                stream_text [{| f_id := Some (js "41"); f_event := None;
                                f_data := [js "a"] |}];
              cache :=
                stream_text [{| f_id := Some (js "41"); f_event := None;
                                f_data := [js "a"] |}] |}
           (stream_text [{| f_id := Some (js "41"); f_event := None;
                            f_data := [js "a"] |}])
           eq_refl eq_refl eq_refl eq_refl eq_refl).
Defined.

(** ** A closed client is idle *)

Lemma idle_not_closed (w : World) :
  readyState_is (readyState (self w)) CLOSED = false -> idle_when_closed w.
Proof. intros H F. rewrite H in F. discriminate F. Qed.

Lemma idle_closed (w : World) : idle_when_closed (closed w).
Proof. intros _. apply busy_closed. Qed.

Lemma idle_close (error : bool) (w : World) :
  idle_when_closed w -> idle_when_closed (world_of (close error w)).
Proof.
  intros H. rewrite close_world.
  destruct (readyState_is (readyState (self w)) CLOSED);
    [exact H | apply idle_closed].
Qed.

Lemma idle_busy (w : World) :
  idle_when_closed w -> busy (self w) = true ->
  readyState_is (readyState (self w)) CLOSED = false.
Proof.
  intros H Hb. destruct (readyState_is (readyState (self w)) CLOSED) eqn:E;
    [|reflexivity].
  rewrite (H E) in Hb. discriminate Hb.
Qed.

Lemma idle_poll (w : World) :
  idle_when_closed w -> idle_when_closed (world_of (_poll w)).
Proof.
  intros H. rewrite _poll_world.
  destruct (readyState_is (readyState (self w)) CLOSED) eqn:E; [exact H|].
  destruct (request_throws (host w)); [apply idle_close, H|].
  apply idle_not_closed. exact E.
Qed.

Lemma idle_open (w : World) :
  idle_when_closed w -> idle_when_closed (world_of (open w)).
Proof.
  intros H. rewrite open_world. destruct (busy (self w)); [exact H|].
  apply idle_poll, idle_not_closed. rewrite in_state_readyState. reflexivity.
Qed.

Lemma idle_retried (w : World) :
  idle_when_closed (retried (in_state CONNECTING w)).
Proof.
  apply idle_not_closed. unfold retried. cbn [self].
  change (readyState (set_pollTimer ?v (set_attempts ?a ?e)))
    with (readyState e).
  rewrite in_state_readyState. reflexivity.
Qed.

Lemma idle_onerror (w : World) :
  idle_when_closed w -> idle_when_closed (world_of (onerror w)).
Proof.
  intros H. destruct (_xhr (self w)) as [x|] eqn:Hx.
  - destruct (Z.eq_dec (status x) 0) as [Hs|Hs].
    + rewrite (onerror_closed_form w x Hx Hs).
      change (world_of (?a, ?b, ?c)) with b.
      destruct (RETRY_ON_NETWORK_ERROR (self w) && below_ceiling (self w));
        [apply idle_retried | apply idle_close, H].
    + rewrite onerror_other; [exact H|]. rewrite Hx. exact Hs.
  - rewrite onerror_other; [exact H|]. rewrite Hx. exact I.
Qed.

Lemma not_closed_opened (st : Z) (w : World) :
  readyState_is (readyState (self w)) CLOSED = false ->
  readyState_is (readyState (self (opened st w))) CLOSED = false.
Proof.
  intros H. rewrite readyState_opened.
  destruct (opens st w); [reflexivity | exact H].
Qed.

(** The response handler on a client that is not closed. *)
Lemma idle_onreadystatechange (w : World) :
  readyState_is (readyState (self w)) CLOSED = false ->
  idle_when_closed (world_of (onreadystatechange w)).
Proof.
  intros Hc.
  destruct (onreadystatechange_cases w)
    as [E | [(x & Hx & Hcond) | (x & Hx & H4 & H0 & H200)]].
  - rewrite E. apply idle_not_closed, Hc.
  - rewrite (onreadystatechange_success w x Hx Hcond). cbv zeta.
    assert (H3 : readyState_is
                   (readyState
                      (self (with_self
                               (set_xhr (Some (set_cache (responseText x) x)))
                               (world_of (decode (responseText x) (cache x)
                                            (opened (status x) w))))))
                   CLOSED = false).
    { unfold with_self. cbn [self].
      change (readyState (set_xhr ?v ?e)) with (readyState e).
      rewrite (kept_decode _ readyState) by reflexivity.
      apply not_closed_opened, Hc. }
    destruct (fst (result_of (decode (responseText x) (cache x)
                                (opened (status x) w)))).
    + destruct (xhr_readyState x =? 4); apply idle_not_closed; exact H3.
    + apply idle_not_closed, H3.
  - rewrite (onreadystatechange_server_error w x Hx H4 H0 H200).
    change (world_of (?a, ?b, ?c)) with b.
    destruct (retries_server_error (status x) (self w));
      [apply idle_retried | apply idle_close, idle_not_closed, Hc].
Qed.

Lemma idle_move (m : Move) (w : World) :
  idle_when_closed w -> idle_when_closed (move w m).
Proof.
  intros H. unfold move. destruct (possible m w) eqn:P; [|exact H].
  assert (Hactive : request_active (self w) = true ->
                    readyState_is (readyState (self w)) CLOSED = false).
  { intros Ha. apply idle_busy; [exact H|]. unfold busy. rewrite Ha.
    reflexivity. }
  destruct m as [|error| |st text|st text| |handle]; simpl inputs_of.
  - rewrite world_run_one. simpl step. rewrite world_bind.
    apply idle_open, H.
  - rewrite world_run_one. simpl step. rewrite world_bind.
    apply idle_close, H.
  - rewrite world_run_one. simpl step. rewrite world_bind.
    change (world_of (ret Normal (world_of (destroy w))))
      with (world_of (destroy w)).
    rewrite destroy_world. apply idle_close, H.
  - rewrite world_run_one, step_readystatechange_world. simpl in P.
    apply idle_onreadystatechange. rewrite readyState_received.
    apply Hactive, P.
  - rewrite world_run_one, step_readystatechange_world. unfold possible in P.
    apply andb_prop in P. destruct P as [P _].
    apply andb_prop in P. destruct P as [Pa _].
    apply idle_onreadystatechange. rewrite readyState_received.
    apply Hactive, Pa.
  - rewrite network_failure_world. apply idle_onerror, idle_not_closed.
    rewrite !readyState_received. apply Hactive, P.
  - rewrite world_run_one, timer_world.
    destruct (timer_pending handle (host w)); [|exact H].
    apply idle_poll. exact H.
Qed.

Lemma idle_play (ms : list Move) :
  forall w : World, idle_when_closed w -> idle_when_closed (play ms w).
Proof.
  unfold play. induction ms as [|m ms IH]; intros w H; simpl.
  - exact H.
  - apply IH, idle_move, H.
Qed.

Lemma one_timer_play (ms : list Move) :
  forall w : World, one_timer w -> one_timer (play ms w).
Proof.
  unfold play. induction ms as [|m ms IH]; intros w H; simpl.
  - exact H.
  - apply IH, one_timer_move, H.
Qed.

(** X23. Under the moves of a host that keeps to the protocol of the
    request, every call of [open], [close] and [destroy] being made
    between two handlers (no listener calls a method of the client while
    an event is published to it), a client that is CLOSED has no request
    on its way, holds no timer handle, and no timer is pending. *)
Theorem a_closed_client_is_idle :
  forall (ms : list Move) (w : World),
    idle_when_closed w -> one_timer w ->
    readyState_is (readyState (self (play ms w))) CLOSED = true ->
    request_active (self (play ms w)) = false
    /\ _pollTimer (self (play ms w)) = None
    /\ timers (host (play ms w)) = [].
Proof.
  intros ms w Hi Ht Hc.
  pose proof (idle_play ms w Hi Hc) as Hb.
  pose proof (one_timer_play ms w Ht) as Ho.
  unfold busy in Hb. apply orb_false_elim in Hb. destruct Hb as [Ha Hs].
  split; [exact Ha|]. split.
  - unfold timer_set in Hs. destruct (_pollTimer (self (play ms w)));
      [discriminate Hs | reflexivity].
  - apply one_timer_idle; assumption.
Qed.

(** X23 at a client closed while it waits to retry. *)
Lemma a_closed_client_is_idle_witness :
  request_active
    (self (play [Calls_open; Fails; Calls_close false] example_World))
  = false
  /\ _pollTimer
       (self (play [Calls_open; Fails; Calls_close false] example_World))
     = None
  /\ timers (host (play [Calls_open; Fails; Calls_close false] example_World))
     = [].
Proof.
  apply (a_closed_client_is_idle
           [Calls_open; Fails; Calls_close false] example_World).
  - discriminate.
  - exact I.
  - reflexivity.
Defined.

(** ** Listeners that call the client back *)

Lemma bind_ret_r {A : Type} (m : M A) (w : World) :
  bind m (fun x => ret x) w = m w.
Proof.
  unfold bind, ret. destruct (m w) as [[a w1] lg]. rewrite app_nil_r.
  reflexivity.
Qed.

(** With listeners that do nothing the handlers are those of the
    instance. *)
Lemma onerror_heard_nothing (w : World) :
  onerror_heard (ret tt) w = onerror w.
Proof.
  unfold onerror_heard, onerror. rewrite !bind_this.
  destruct (_xhr (self w)) as [x|]; [|reflexivity].
  destruct (status x =? 0); [|reflexivity].
  rewrite !bind_run.
  assert (H1 : (if _attempts (self w) =? 0
                then _emitError (status x) (Some (responseText x)) ;; ret tt
                else ret tt) w
               = (if _attempts (self w) =? 0
                  then _emitError (status x) (Some (responseText x))
                  else ret tt) w)
    by (destruct (_attempts (self w) =? 0); reflexivity).
  rewrite H1.
  assert (H2 : world_of ((if _attempts (self w) =? 0
                          then _emitError (status x) (Some (responseText x))
                          else ret tt) w) = w)
    by (destruct (_attempts (self w) =? 0); reflexivity).
  rewrite ?H2. reflexivity.
Qed.

Lemma bind_ext {A B : Type} (m : M A) (f g : A -> M B) (w : World) :
  (forall a w', f a w' = g a w') -> bind m f w = bind m g w.
Proof.
  intros H. unfold bind. destruct (m w) as [[a w1] l1]. rewrite H.
  reflexivity.
Qed.

Lemma bind_ret_l {A B : Type} (a : A) (f : A -> M B) (w : World) :
  bind (ret a) f w = f a w.
Proof. unfold bind, ret. destruct (f a w) as [[b w2] l2]. reflexivity. Qed.

Lemma onreadystatechange_heard_nothing (w : World) :
  onreadystatechange_heard (ret tt) w = onreadystatechange w.
Proof.
  unfold onreadystatechange_heard, onreadystatechange. rewrite !bind_this.
  destruct (_xhr (self w)) as [x|]; [|reflexivity].
  destruct ((xhr_readyState x =? 3)
            || (xhr_readyState x =? 4) && (status x =? 200)); [|reflexivity].
  apply bind_ext. intros [] w1.
  apply bind_ext. intros r w2.
  apply bind_ext. intros [] w3.
  destruct (fst r); [|reflexivity].
  destruct (xhr_readyState x =? 4); [|reflexivity].
  apply bind_ext. intros [] w4.
  refine (bind_ret_l tt _ w4).
Qed.

(** X24. [emit] calls the listeners before it returns. When the
    transport fails on a first attempt and a listener of [error] calls
    [open()] (no other listener calling the client), [open()] sends a
    request, and the handler then goes on to set its retry timer: a
    request is on its way while a timer is pending, which the invariant
    of X12 excludes, and when that timer comes due a second request is
    sent. *)
Theorem an_error_listener_that_calls_open_doubles_the_connection :
  forall (w : World) (x : Xhr),
    _xhr (self w) = Some x -> xhr_readyState x = 4 -> status x = 0 ->
    _attempts (self w) = 0 -> _pollTimer (self w) = None ->
    RETRY_ON_NETWORK_ERROR (self w) = true -> below_ceiling (self w) = true ->
    request_throws (host w) = false ->
    requests (log_of (onerror_heard open w)) = 1%nat
    /\ request_active (self (world_of (onerror_heard open w))) = true
    /\ _pollTimer (self (world_of (onerror_heard open w)))
       = Some (next_handle (host w))
    /\ timer_pending (next_handle (host w))
         (host (world_of (onerror_heard open w))) = true
    /\ ~ one_timer (world_of (onerror_heard open w))
    /\ requests (log_of (step (Timer_fires (next_handle (host w)))
                           (world_of (onerror_heard open w))))
       = 1%nat.
Proof.
  intros w x Hx H4 Hs Ha Ht Hr Hb Hthrows.
  set (w2 := with_self (set_xhr (Some sent_Xhr)) (in_state CONNECTING w)).
  assert (Hopen : open w
                  = (tt, w2,
                     state_log CONNECTING w
                     ++ [XhrSend (lastEventId_header (self w))])).
  { rewrite (open_run w Hthrows).
    unfold request_active, timer_set. rewrite Hx, Ht, H4. reflexivity. }
  assert (Hcond : RETRY_ON_NETWORK_ERROR (self w2) && below_ceiling (self w2)
                  = true).
  { subst w2. unfold with_self. cbn [self].
    change (RETRY_ON_NETWORK_ERROR (set_xhr ?v ?e))
      with (RETRY_ON_NETWORK_ERROR e).
    change (below_ceiling (set_xhr ?v ?e)) with (below_ceiling e).
    rewrite (kept_in_state _ RETRY_ON_NETWORK_ERROR),
      (kept_in_state _ below_ceiling) by reflexivity.
    rewrite Hr, Hb. reflexivity. }
  assert (E : onerror_heard open w
              = (tt, retried (in_state CONNECTING w2),
                 (Emit types.ON_ERROR
                    (PError 0 (Some (responseText x)) (JSON.JObject []))
                  :: state_log CONNECTING w
                     ++ [XhrSend (lastEventId_header (self w))])
                 ++ state_log CONNECTING w2
                 ++ [SetTimeout (next_handle (host w2))
                       (retry_delay (in_state CONNECTING w2))])).
  { unfold onerror_heard. rewrite bind_this, Hx, Hs, Ha.
    change (0 =? 0) with true. cbv iota.
    unfold bind at 1. unfold bind at 1.
    change (_emitError 0 (Some (responseText x)) w)
      with (tt, w, [Emit types.ON_ERROR
                      (PError 0 (Some (responseText x)) (JSON.JObject []))]).
    cbv beta iota zeta. rewrite Hopen. cbv beta iota zeta.
    rewrite bind_this, Hcond, retry_path_run. reflexivity. }
  assert (Hhost : next_handle (host w2) = next_handle (host w))
    by (subst w2; unfold with_self; cbn [host]; rewrite in_state_host;
        reflexivity).
  assert (Hactive : request_active (self (retried (in_state CONNECTING w2)))
                    = true).
  { unfold retried. cbn [self].
    change (request_active (set_pollTimer ?v (set_attempts ?a ?e)))
      with (request_active e).
    rewrite (kept_in_state _ request_active) by reflexivity. reflexivity. }
  assert (Hpending : timer_pending (next_handle (host w))
                       (host (retried (in_state CONNECTING w2))) = true).
  { apply (timer_pending_last _ (retry_delay (in_state CONNECTING w2))
             (timers (host w))).
    unfold retried. cbn [host add_timer pop_draw timers].
    rewrite in_state_host. subst w2. unfold with_self. cbn [host].
    rewrite in_state_host. reflexivity. }
  rewrite E.
  change (log_of (?a, ?b, ?c)) with c.
  change (world_of (?a, ?b, ?c)) with b.
  destruct (state_log_quiet CONNECTING w) as (_ & _ & S1).
  destruct (state_log_quiet CONNECTING w2) as (_ & _ & S2).
  split; [|split; [|split; [|split; [|split]]]].
  - rewrite requests_app. cbn [requests]. rewrite !requests_app, S1, S2.
    reflexivity.
  - exact Hactive.
  - unfold retried. cbn [self set_pollTimer _pollTimer].
    rewrite in_state_host, Hhost. reflexivity.
  - exact Hpending.
  - intros Hone. unfold one_timer in Hone.
    unfold timer_pending in Hpending.
    destruct (timers (host (retried (in_state CONNECTING w2))))
      as [|t [|t' ts]]; [discriminate Hpending | | exact Hone].
    destruct Hone as [_ Hone]. rewrite Hactive in Hone. discriminate Hone.
  - rewrite (timer_run _ _ Hpending).
    change (log_of (?a, ?b, ?c)) with c.
    rewrite _poll_run
      by (cbn [host drop_timer request_throws]; unfold retried;
          cbn [host add_timer pop_draw request_throws];
          rewrite in_state_host; subst w2; unfold with_self; cbn [host];
          rewrite in_state_host; exact Hthrows).
    cbn [self]. unfold retried. cbn [self].
    change (readyState (set_pollTimer ?v (set_attempts ?a ?e)))
      with (readyState e).
    rewrite in_state_readyState. reflexivity.
Qed.

(** X24 at the first failure of a fresh client. *)
Lemma an_error_listener_that_calls_open_doubles_the_connection_witness :
  requests (log_of (onerror_heard open failed_World)) = 1%nat
  /\ request_active (self (world_of (onerror_heard open failed_World))) = true
  /\ timer_pending (next_handle (host failed_World))
       (host (world_of (onerror_heard open failed_World))) = true.
Proof.
  destruct (an_error_listener_that_calls_open_doubles_the_connection
              failed_World
              {| xhr_readyState := 4; status := 0; responseText := [];
                 cache := [] |}
              eq_refl eq_refl eq_refl eq_refl eq_refl eq_refl eq_refl eq_refl)
    as (H1 & H2 & _ & H3 & _).
  split; [exact H1|]. split; [exact H2 | exact H3].
Defined.

(** A client that is wedged stays so, and sends nothing. *)
Lemma wedged_step (i : Input) (w : World) :
  wedged w -> outside_a_request i = true ->
  wedged (world_of (step i w)) /\ requests (log_of (step i w)) = 0%nat.
Proof.
  intros [Hc Ht] Hi.
  assert (Hclosed : readyState_is (readyState (self w)) CLOSED = true)
    by (apply readyState_is_true, Hc).
  destruct i as [|error| |rs st text|st text|handle];
    try discriminate Hi; cbn [step].
  - unfold bind. rewrite open_busy by (rewrite Ht; apply orb_true_r).
    split; [split; assumption | reflexivity].
  - unfold bind. rewrite close_run, Hclosed.
    split; [split; assumption | reflexivity].
  - unfold destroy, bind. rewrite close_run, Hclosed.
    split; [split; assumption | reflexivity].
  - destruct (timer_pending handle (host w)) eqn:Hp;
      [|split; [split; assumption | reflexivity]].
    pose proof (timer_run handle w Hp) as E. cbn [step] in E. rewrite Hp in E.
    rewrite E.
    assert (P : _poll {| self := self w;
                         host := drop_timer (Some handle) (host w) |}
                = (tt, {| self := self w;
                          host := drop_timer (Some handle) (host w) |}, [])).
    { unfold _poll. rewrite bind_this. cbn [self]. rewrite Hclosed.
      reflexivity. }
    rewrite P. split; [split; assumption | reflexivity].
Qed.

Lemma wedged_run (inputs : list Input) :
  forall w : World,
    wedged w -> forallb outside_a_request inputs = true ->
    wedged (world_of (run inputs w))
    /\ requests (log_of (run inputs w)) = 0%nat.
Proof.
  induction inputs as [|i rest IH]; intros w Hw Hi.
  - split; [exact Hw | reflexivity].
  - cbn [forallb] in Hi. apply andb_prop in Hi. destruct Hi as [Hi Hrest].
    destruct (wedged_step i w Hw Hi) as [Hw1 Hr1].
    destruct (IH (world_of (step i w)) Hw1 Hrest) as [Hw2 Hr2].
    simpl run. rewrite bind_run.
    change (log_of (?a, ?b, ?c)) with c.
    change (world_of (?a, ?b, ?c)) with b.
    split; [exact Hw2|]. rewrite requests_app, Hr1, Hr2. reflexivity.
Qed.

Lemma close_closes (error : bool) (w : World) :
  readyState (self (world_of (close error w))) = Some CLOSED.
Proof.
  rewrite close_world.
  destruct (readyState_is (readyState (self w)) CLOSED) eqn:E.
  - apply readyState_is_true, E.
  - reflexivity.
Qed.

(** The world after the listener has closed the client and the handler
    has set its timer. *)
Lemma timeout_heard_world (w : World) (x : Xhr) :
  _xhr (self w) = Some x -> xhr_readyState x = 4 -> status x = 200 ->
  result_of (onreadystatechange_heard (close false) w) = Normal ->
  exists c : World,
    readyState (self c) = Some CLOSED
    /\ world_of (onreadystatechange_heard (close false) w)
       = polled_again (reconnect_delay c) c.
Proof.
  intros Hx H4 Hs Hn. unfold onreadystatechange_heard in *.
  rewrite bind_this, Hx in *.
  assert (Hc : (xhr_readyState x =? 3)
               || (xhr_readyState x =? 4) && (status x =? 200) = true)
    by (rewrite H4, Hs; reflexivity).
  assert (E4 : (xhr_readyState x =? 4) = true) by (rewrite H4; reflexivity).
  rewrite Hc, E4 in *.
  rewrite world_bind. rewrite result_bind in Hn.
  set (w1 := world_of ((if readyState_is (readyState (self w)) CONNECTING
                           && (status x =? 200)
                        then _setReadyState OPEN ;;
                             emit types.ON_OPEN (POpen (url (self w))) ;;
                             update (set_attempts 0)
                        else ret tt) w)) in *.
  clearbody w1. cbv beta in *.
  rewrite world_bind. rewrite result_bind in Hn.
  destruct (decode (responseText x) (cache x) w1) as [[[c0 nc] w2] lg2].
  change (result_of (c0, nc, w2, lg2)) with (c0, nc) in *.
  change (world_of (c0, nc, w2, lg2)) with w2 in *.
  cbv beta in *. cbn [fst snd] in *.
  rewrite world_bind. rewrite result_bind in Hn.
  set (w3 := world_of (update (set_xhr (Some (set_cache nc x))) w2)) in *.
  clearbody w3. cbv beta in *.
  destruct c0; [|discriminate Hn].
  exists (world_of (close false w3)). split; [apply close_closes|].
  unfold bind, emit, tell, this_, Math_random, _pollAgain, setTimeout, update,
    ret.
  destruct (close false w3) as [[[] c] lg]. reflexivity.
Qed.

(** X25. When a response ends with status 200, the handler ends
    without an exception and a listener of [timeout] calls [close()], the
    handler sets its timer after the client was closed: the client is
    CLOSED and holds a timer handle. From then on no call of [open],
    [close] or [destroy] and no timer changes that or sends a request:
    [open()] never reconnects. *)
Theorem a_timeout_listener_that_calls_close_wedges_the_client :
  forall (w : World) (x : Xhr) (inputs : list Input),
    _xhr (self w) = Some x -> xhr_readyState x = 4 -> status x = 200 ->
    result_of (onreadystatechange_heard (close false) w) = Normal ->
    forallb outside_a_request inputs = true ->
    readyState (self (world_of (onreadystatechange_heard (close false) w)))
    = Some CLOSED
    /\ (exists h : nat,
          _pollTimer
            (self (world_of (onreadystatechange_heard (close false) w)))
          = Some h
          /\ timer_pending h
               (host (world_of (onreadystatechange_heard (close false) w)))
             = true)
    /\ readyState
         (self (world_of (run inputs
                            (world_of (onreadystatechange_heard
                                         (close false) w)))))
       = Some CLOSED
    /\ timer_set
         (self (world_of (run inputs
                            (world_of (onreadystatechange_heard
                                         (close false) w)))))
       = true
    /\ requests
         (log_of (run inputs
                    (world_of (onreadystatechange_heard (close false) w))))
       = 0%nat.
Proof.
  intros w x inputs Hx H4 Hs Hn Hi.
  destruct (timeout_heard_world w x Hx H4 Hs Hn) as (c & Hc & E).
  rewrite E.
  assert (Hw : wedged (polled_again (reconnect_delay c) c))
    by (split; [exact Hc | reflexivity]).
  destruct (wedged_run inputs _ Hw Hi) as [[Hc' Ht'] Hr].
  split; [exact Hc|]. split; [|split; [|split]; assumption].
  exists (next_handle (host c)). split; [reflexivity|].
  apply (timer_pending_last _ (reconnect_delay c) (timers (host c))).
  reflexivity.
Qed.

(** X25 at a streaming client whose response ends; [open()], the timer
    and [open()] again send nothing. *)
Lemma a_timeout_listener_that_calls_close_wedges_the_client_witness :
  readyState
    (self (world_of (onreadystatechange_heard (close false)
                       (received 4 200 (js "data: x" ++ [LF; LF])
                          streaming_World))))
  = Some CLOSED
  /\ requests
       (log_of (run [Call_open; Timer_fires 1; Call_open]
                  (world_of (onreadystatechange_heard (close false)
                               (received 4 200 (js "data: x" ++ [LF; LF])
                                  streaming_World)))))
     = 0%nat.
Proof.
  destruct (a_timeout_listener_that_calls_close_wedges_the_client
              (received 4 200 (js "data: x" ++ [LF; LF]) streaming_World)
              {| xhr_readyState := 4; status := 200;
                 responseText := js "data: x" ++ [LF; LF];
                 cache := js "data: x" ++ [LF; LF] |}
              [Call_open; Timer_fires 1; Call_open]
              eq_refl eq_refl eq_refl eq_refl eq_refl)
    as (H1 & _ & _ & _ & H2).
  split; [exact H1 | exact H2].
Defined.
